(** * langgraph_toy: the graph execution engine and its state container

    A shallow embedding of [core/state.py] and [core/graph.py], and of what
    is built on them: the edge conditions of [core/edges.py], the graph of
    [agents/simple.py], the strategy selection of [core/strategy_selector.py]
    and [core/compilation.py], and the graph cache of [core/execution.py].

    Python values are a first-order datatype (the JSON fragment without
    floats), dicts are insertion-ordered association lists, [Set[str]] is a
    [gset string], exceptions are values of [exn] carried by [result], and
    the methods of a class are computations in a state-and-error monad over
    the object they mutate. *)

From Stdlib Require Import ZArith Lia.
From stdpp Require Import gmap strings list.

#[local] Set Warnings "-clear-no-such-hyp".

Local Open Scope Z_scope.
Local Open Scope nat_scope.

(** ** Python values *)

(** The runtime classes of the values that can be bound in a state. *)
Inductive rtclass := Cstr | Cint | Cbool | Cdict | Clist | CNoneType.

(** What a class body can write as the annotation of a field: a class, or a
    subscripted alias over [dict] or [list] ([Dict[str, Any]], [List[int]]).
    The arguments of an alias are read by [get_args] and never used. *)
Inductive pytype := Tclass (c : rtclass) | Talias_dict | Talias_list.

Unset Elimination Schemes.
Inductive pyval :=
| VNone
| VBool (b : bool)
| VInt (z : Z)
| VStr (s : string)
| VList (l : list pyval)
| VDict (d : list (string * pyval)).
Set Elimination Schemes.

Abbreviation dict := (list (string * pyval)).

(** Induction on values, through the lists and dicts they hold. *)
Fixpoint pyval_induction (P : pyval -> Prop)
    (HNone : P VNone) (HBool : forall b, P (VBool b))
    (HInt : forall z, P (VInt z)) (HStr : forall s, P (VStr s))
    (HList : forall l, Forall P l -> P (VList l))
    (HDict : forall d, Forall (fun kv => P kv.2) d -> P (VDict d))
    (v : pyval) {struct v} : P v :=
  let rec := pyval_induction P HNone HBool HInt HStr HList HDict in
  match v with
  | VNone => HNone
  | VBool b => HBool b
  | VInt z => HInt z
  | VStr s => HStr s
  | VList l =>
      HList l ((fix go (l : list pyval) : Forall P l :=
                  match l with
                  | [] => @List.Forall_nil _ P
                  | x :: l' => @List.Forall_cons _ P x l' (rec x) (go l')
                  end) l)
  | VDict d =>
      HDict d ((fix go (d : dict) : Forall (fun kv => P kv.2) d :=
                  match d with
                  | [] => @List.Forall_nil _ _
                  | kv :: d' => @List.Forall_cons _ _ kv d' (rec kv.2) (go d')
                  end) d)
  end.

Global Instance rtclass_eq_dec : EqDecision rtclass.
Proof. solve_decision. Defined.
Global Instance pytype_eq_dec : EqDecision pytype.
Proof. solve_decision. Defined.

(** ** Exceptions and results *)

Inductive exn :=
| ValueError (msg : string)
| TypeError (msg : string)
| RuntimeError (msg : string)
| StateValidationError (field : string) (expected : pytype) (got : rtclass).

Inductive result (A : Type) :=
| Ok (a : A)
| Raise (e : exn).
Arguments Ok {A} a.
Arguments Raise {A} e.

Definition is_ok {A} (r : result A) : bool :=
  match r with Ok _ => true | Raise _ => false end.

Definition raises {A} (r : result A) : Prop :=
  match r with Ok _ => False | Raise _ => True end.

(** A computation that reads and writes a world [W] and may raise. *)
Definition comp (W A : Type) : Type := W -> result A * W.

Definition ret {W A} (a : A) : comp W A := fun w => (Ok a, w).
Definition raise {W A} (e : exn) : comp W A := fun w => (Raise e, w).
Definition bind {W A B} (c : comp W A) (k : A -> comp W B) : comp W B :=
  fun w => match c w with
           | (Ok a, w') => k a w'
           | (Raise e, w') => (Raise e, w')
           end.
Definition gets {W A} (f : W -> A) : comp W A := fun w => (Ok (f w), w).
Definition modify {W} (f : W -> W) : comp W unit := fun w => (Ok tt, f w).
Definition lift {W A} (r : result A) : comp W A := fun w => (r, w).

Notation "x <- c ;; k" := (bind c (fun x => k))
  (at level 62, c at next level, right associativity).

(** ** Insertion-ordered dicts with string keys *)

Fixpoint dict_get {V} (k : string) (d : list (string * V)) : option V :=
  match d with
  | [] => None
  | (k', v) :: d' => if String.eqb k' k then Some v else dict_get k d'
  end.

Definition dict_mem {V} (k : string) (d : list (string * V)) : bool :=
  match dict_get k d with Some _ => true | None => false end.

(** [d[k] = v]: overwrite in place, or append a new key at the end. *)
Fixpoint dict_set {V} (k : string) (v : V) (d : list (string * V))
  : list (string * V) :=
  match d with
  | [] => [(k, v)]
  | (k', v') :: d' =>
      if String.eqb k' k then (k', v) :: d' else (k', v') :: dict_set k v d'
  end.

Definition dict_keys {V} (d : list (string * V)) : list string := d.*1.

(** ** The graph engine ([core/graph.py]) *)

Module GraphPy.
Section Engine.

(** The engine never looks inside a state: [St] is any state type. *)
Variable St : Type.

(** [Node]: a name and the function it wraps. A node function returns the new
    state or raises. *)
Record Node := { node_name : string; func : St -> result St }.

(** [Edge]: conditions are taken at their declared type
    [Callable[[StateSchema], bool]], total boolean functions of the state. *)
Record Edge := {
  source : string;
  target : string;
  condition : option (St -> bool)
}.

Record Graph := {
  graph_name : string;
  nodes : list (string * Node);
  edges : list Edge;
  entry_point : option string
}.

(** Calls made to the callables a graph holds, in the order they happen. *)
Inductive call :=
| CallNode (name : string) (arg : St)
| CallShouldFollow (e : Edge) (arg : St).

(** The world of a method call: the graph object [self] and the calls made so
    far. *)
Record world := { self : Graph; calls : list call }.

Abbreviation M := (comp world).

(** The world after some more calls. *)
Definition logged (w : world) (cs : list call) : world :=
  {| self := self w; calls := calls w ++ cs |}.

Definition record (c : call) : M unit := modify (fun w => logged w [c]).

Definition set_nodes (ns : list (string * Node)) : M unit :=
  modify (fun w => {| self := {| graph_name := graph_name (self w); nodes := ns;
                                 edges := edges (self w);
                                 entry_point := entry_point (self w) |};
                      calls := calls w |}).

Definition set_edges (es : list Edge) : M unit :=
  modify (fun w => {| self := {| graph_name := graph_name (self w);
                                 nodes := nodes (self w); edges := es;
                                 entry_point := entry_point (self w) |};
                      calls := calls w |}).

Definition set_entry (e : option string) : M unit :=
  modify (fun w => {| self := {| graph_name := graph_name (self w);
                                 nodes := nodes (self w); edges := edges (self w);
                                 entry_point := e |};
                      calls := calls w |}).

(** [Graph.__init__] *)
Definition Graph_init (name : string) : Graph :=
  {| graph_name := name; nodes := []; edges := []; entry_point := None |}.

(** [Node.execute]: call the function, let its exception through. *)
Definition Node_execute (node : Node) (state : St) : M St :=
  _ <- record (CallNode (node_name node) state) ;;
  lift (func node state).

(** [Edge.should_follow] *)
Definition should_follow_pure (e : Edge) (state : St) : bool :=
  match condition e with
  | None => true
  | Some c => c state
  end.

Definition should_follow (e : Edge) (state : St) : M bool :=
  _ <- record (CallShouldFollow e state) ;;
  ret (should_follow_pure e state).

(** [Graph.add_node] *)
Definition add_node (name : string) (f : St -> result St) : M unit :=
  ns <- gets (fun w => nodes (self w)) ;;
  if dict_mem name ns then
    raise (ValueError ("Node '" +:+ name +:+ "' already exists"))
  else
    _ <- set_nodes (dict_set name {| node_name := name; func := f |} ns) ;;
    ep <- gets (fun w => entry_point (self w)) ;;
    match ep with
    | None => set_entry (Some name)
    | Some _ => ret tt
    end.

(** [Graph.add_edge] *)
Definition add_edge (src tgt : string) (cond : option (St -> bool)) : M unit :=
  ns <- gets (fun w => nodes (self w)) ;;
  if negb (dict_mem src ns) then
    raise (ValueError ("Source node '" +:+ src +:+ "' not found"))
  else if negb (dict_mem tgt ns) then
    raise (ValueError ("Target node '" +:+ tgt +:+ "' not found"))
  else
    es <- gets (fun w => edges (self w)) ;;
    set_edges (es ++ [{| source := src; target := tgt; condition := cond |}]).

(** [Graph.set_entry_point] *)
Definition set_entry_point (node_name : string) : M unit :=
  ns <- gets (fun w => nodes (self w)) ;;
  if negb (dict_mem node_name ns) then
    raise (ValueError ("Node '" +:+ node_name +:+ "' not found"))
  else set_entry (Some node_name).

(** [Graph.get_next_nodes]: the [for edge in self.edges] loop, with the list
    [next_nodes] as accumulator. [and] short-circuits: [should_follow] is
    called only on the edges that leave [current_node]. *)
Fixpoint get_next_nodes_loop (es : list Edge) (current_node : string)
    (state : St) (next_nodes : list string) : M (list string) :=
  match es with
  | [] => ret next_nodes
  | edge :: es' =>
      if String.eqb (source edge) current_node then
        b <- should_follow edge state ;;
        get_next_nodes_loop es' current_node state
          (if b then next_nodes ++ [target edge] else next_nodes)
      else get_next_nodes_loop es' current_node state next_nodes
  end.

Definition get_next_nodes (current_node : string) (state : St) : M (list string) :=
  es <- gets (fun w => edges (self w)) ;;
  get_next_nodes_loop es current_node state [].

(** The local variables of [Graph.execute]. Inside the loop [current_node] is
    always a string: it starts as the entry point, checked not to be [None],
    and is only ever assigned [next_nodes[0]]. *)
Record locals := {
  current_state : St;
  current_node : string;
  visited_nodes : gset string
}.

Inductive control := Continue (l : locals) | Break (l : locals).

(** One iteration of the [while] loop of [Graph.execute]. *)
Definition loop_body (l : locals) : M control :=
  if decide (current_node l ∈ visited_nodes l) then
    raise (ValueError ("Cycle detected: node '" +:+ current_node l
                       +:+ "' already visited"))
  else
    ns <- gets (fun w => nodes (self w)) ;;
    match dict_get (current_node l) ns with
    | None =>
        raise (ValueError ("Node '" +:+ current_node l +:+ "' not found"))
    | Some node =>
        st <- Node_execute node (current_state l) ;;
        let visited := {[ current_node l ]} ∪ visited_nodes l in
        next_nodes <- get_next_nodes (current_node l) st ;;
        match next_nodes with
        | [] =>
            ret (Break {| current_state := st; current_node := current_node l;
                          visited_nodes := visited |})
        | n :: _ =>
            ret (Continue {| current_state := st; current_node := n;
                             visited_nodes := visited |})
        end
    end.

(** The [while] loop, run for at most [fuel] iterations; [None] when the
    fuel runs out before the loop ends. *)
Fixpoint while_loop (fuel : nat) (l : locals) : M (option locals) :=
  match fuel with
  | O => ret None
  | S fuel' =>
      c <- loop_body l ;;
      match c with
      | Break l' => ret (Some l')
      | Continue l' => while_loop fuel' l'
      end
  end.

Definition execute_fuel (fuel : nat) (initial_state : St) : M (option St) :=
  ep <- gets (fun w => entry_point (self w)) ;;
  match ep with
  | None => raise (ValueError "Graph has no entry point")
  | Some e =>
      r <- while_loop fuel {| current_state := initial_state; current_node := e;
                              visited_nodes := ∅ |} ;;
      ret (current_state <$> r)
  end.

(** [Graph.execute]. One iteration more than there are nodes is always
    enough ([execute_terminates] below), so [Ok None] is never the result. *)
Definition execute (initial_state : St) : M (option St) :=
  ns <- gets (fun w => nodes (self w)) ;;
  execute_fuel (S (length ns)) initial_state.

(** [Graph.validate] *)
Fixpoint orphan_issues (names : list string) (incoming : gset (option string))
    (ep : option string) : list string :=
  match names with
  | [] => []
  | n :: names' =>
      (if bool_decide (Some n ∉ incoming) && bool_decide (Some n ≠ ep)
       then ["Node '" +:+ n +:+ "' has no incoming edges and is not entry point"]
       else [])
      ++ orphan_issues names' incoming ep
  end.

Fixpoint edge_issues (es : list Edge) (ns : list (string * Node)) : list string :=
  match es with
  | [] => []
  | e :: es' =>
      (if negb (dict_mem (source e) ns)
       then ["Edge source '" +:+ source e +:+ "' not found"] else [])
      ++ (if negb (dict_mem (target e) ns)
          then ["Edge target '" +:+ target e +:+ "' not found"] else [])
      ++ edge_issues es' ns
  end.

Definition validate : M (list string) :=
  ns <- gets (fun w => nodes (self w)) ;;
  ep <- gets (fun w => entry_point (self w)) ;;
  es <- gets (fun w => edges (self w)) ;;
  let issues := if decide (ns = []) then ["Graph has no nodes"] else [] in
  let issues := issues ++
    match ep with
    | None => ["Graph has no entry point"]
    | Some e => if negb (dict_mem e ns)
                then ["Entry point '" +:+ e +:+ "' not found in nodes"] else []
    end in
  let nodes_with_incoming_edges : gset (option string) :=
    foldl (fun acc e => {[ Some (target e) ]} ∪ acc) {[ ep ]} es in
  let issues := issues ++ orphan_issues (dict_keys ns) nodes_with_incoming_edges ep in
  let issues := issues ++ edge_issues es ns in
  ret issues.

(** *** Vocabulary of the specification *)

(** The edges that leave a node, in the order they were added. *)
Definition outgoing (g : Graph) (n : string) : list Edge :=
  List.filter (fun e => String.eqb (source e) n) (edges g).

(** An edge qualifies on a state when it has no predicate or its predicate
    holds there. *)
Definition qualifying (g : Graph) (n : string) (s : St) : list Edge :=
  List.filter (fun e => should_follow_pure e s) (outgoing g n).

(** The same in the words of the specification, without the engine's
    method: the predicate of the edge is absent, or it returns true on the
    state. *)
Definition qualifies (e : Edge) (s : St) : Prop :=
  condition e = None \/ exists c, condition e = Some c /\ c s = true.

Definition is_node_call (c : call) : bool :=
  match c with CallNode _ _ => true | CallShouldFollow _ _ => false end.

(** How many node functions a sequence of calls ran. *)
Definition node_calls (cs : list call) : nat :=
  length (List.filter is_node_call cs).

Definition cycle_error (n : string) : exn :=
  ValueError ("Cycle detected: node '" +:+ n +:+ "' already visited").

(** The locals on entry to the loop. *)
Definition initial_locals (initial_state : St) (e : string) : locals :=
  {| current_state := initial_state; current_node := e; visited_nodes := ∅ |}.

(** The locals after one more iteration that ran its node and moved on. *)
Definition moved (l : locals) (st : St) (n : string) : locals :=
  {| current_state := st; current_node := n;
     visited_nodes := {[ current_node l ]} ∪ visited_nodes l |}.

(** The calls of an iteration that runs [node], which returns [st]. *)
Definition step_calls (w : world) (l : locals) (node : Node) (st : St)
  : list call :=
  CallNode (node_name node) (current_state l)
  :: map (fun e => CallShouldFollow e st) (outgoing (self w) (current_node l)).

(** [reaches w0 l0 w l]: started in world [w0] with locals [l0], the loop
    comes to the head of an iteration in world [w] with locals [l]. *)
Inductive reaches (w0 : world) (l0 : locals) : world -> locals -> Prop :=
| reaches_here : reaches w0 l0 w0 l0
| reaches_next w l w' l' :
    reaches w0 l0 w l ->
    loop_body l w = (Ok (Continue l'), w') ->
    reaches w0 l0 w' l'.

(** The node names a run has still not visited. *)
Definition remaining (w : world) (l : locals) : nat :=
  size (list_to_set (dict_keys (nodes (self w))) ∖ visited_nodes l : gset string).

End Engine.
End GraphPy.

Arguments GraphPy.node_name {St} _.
Arguments GraphPy.func {St} _ _.
Arguments GraphPy.source {St} _.
Arguments GraphPy.target {St} _.
Arguments GraphPy.condition {St} _.
Arguments GraphPy.graph_name {St} _.
Arguments GraphPy.nodes {St} _.
Arguments GraphPy.edges {St} _.
Arguments GraphPy.entry_point {St} _.
Arguments GraphPy.CallNode {St} _ _.
Arguments GraphPy.CallShouldFollow {St} _ _.
Arguments GraphPy.self {St} _.
Arguments GraphPy.calls {St} _.
Arguments GraphPy.logged {St} _ _.
Arguments GraphPy.outgoing {St} _ _.
Arguments GraphPy.qualifying {St} _ _ _.
Arguments GraphPy.qualifies {St} _ _.
Arguments GraphPy.is_node_call {St} _.
Arguments GraphPy.node_calls {St} _.
Arguments GraphPy.initial_locals {St} _ _.
Arguments GraphPy.moved {St} _ _ _.
Arguments GraphPy.step_calls {St} _ _ _ _.
Arguments GraphPy.reaches {St} _ _ _ _.
Arguments GraphPy.remaining {St} _ _.
Arguments GraphPy.Graph_init {St} _.
Arguments GraphPy.Node_execute {St} _ _ _.
Arguments GraphPy.should_follow_pure {St} _ _.
Arguments GraphPy.should_follow {St} _ _ _.
Arguments GraphPy.add_node {St} _ _ _.
Arguments GraphPy.add_edge {St} _ _ _ _.
Arguments GraphPy.set_entry_point {St} _ _.
Arguments GraphPy.get_next_nodes_loop {St} _ _ _ _ _.
Arguments GraphPy.get_next_nodes {St} _ _ _.
Arguments GraphPy.current_state {St} _.
Arguments GraphPy.current_node {St} _.
Arguments GraphPy.visited_nodes {St} _.
Arguments GraphPy.Continue {St} _.
Arguments GraphPy.Break {St} _.
Arguments GraphPy.loop_body {St} _ _.
Arguments GraphPy.while_loop {St} _ _ _.
Arguments GraphPy.execute_fuel {St} _ _ _.
Arguments GraphPy.execute {St} _ _.
Arguments GraphPy.validate {St} _.

(** ** The state container ([core/state.py]) *)

Module StatePy.

(** *** The Python operations on values that the container uses *)

(** [bool(v)] *)
Definition truthy (v : pyval) : bool :=
  match v with
  | VNone => false
  | VBool b => b
  | VInt z => negb (z =? 0)%Z
  | VStr s => negb (String.eqb s "")
  | VList l => negb (Nat.eqb (length l) 0)
  | VDict d => negb (Nat.eqb (length d) 0)
  end.

(** [a or b] *)
Definition py_or (a b : pyval) : pyval := if truthy a then a else b.

(** [type(v)] *)
Definition type_of (v : pyval) : rtclass :=
  match v with
  | VNone => CNoneType
  | VBool _ => Cbool
  | VInt _ => Cint
  | VStr _ => Cstr
  | VList _ => Clist
  | VDict _ => Cdict
  end.

(** [issubclass] on the runtime classes: [bool] is a subclass of [int]. *)
Definition issubclass_rt (c d : rtclass) : bool :=
  bool_decide (c = d) || (bool_decide (c = Cbool) && bool_decide (d = Cint)).

Definition isinstance (v : pyval) (c : rtclass) : bool :=
  issubclass_rt (type_of v) c.

Section ListEqb.
Context {A : Type} (eqb : A -> A -> bool).

(** Sequence comparison: same length and equal item by item. *)
Fixpoint list_eqb (l1 l2 : list A) : bool :=
  match l1, l2 with
  | [], [] => true
  | x :: l1', y :: l2' => eqb x y && list_eqb l1' l2'
  | _, _ => false
  end.

End ListEqb.

(** [a == b] on values. [True == 1] and [False == 0] hold in Python; a dict
    equals another when they have as many keys and every key of the first is
    bound in the second to an equal value. *)
Fixpoint py_eq (a b : pyval) {struct a} : bool :=
  match a, b with
  | VNone, VNone => true
  | VBool x, VBool y => Bool.eqb x y
  | VBool x, VInt z => (Z.b2z x =? z)%Z
  | VInt z, VBool x => (z =? Z.b2z x)%Z
  | VInt x, VInt y => (x =? y)%Z
  | VStr x, VStr y => String.eqb x y
  | VList l1, VList l2 => list_eqb py_eq l1 l2
  | VDict d1, VDict d2 =>
      Nat.eqb (length d1) (length d2)
      && forallb (fun kv => match dict_get kv.1 d2 with
                            | Some v' => py_eq kv.2 v'
                            | None => false
                            end) d1
  | _, _ => false
  end.

Definition dict_eq (d1 d2 : dict) : bool := py_eq (VDict d1) (VDict d2).

(** Every item of [d1] has its key bound in [d2] to an equal value. *)
Definition dict_le (d1 d2 : dict) : bool :=
  forallb (fun kv => match dict_get kv.1 d2 with
                     | Some v' => py_eq kv.2 v'
                     | None => false
                     end) d1.

(** [copy.deepcopy] rebuilds every container. *)
Fixpoint deepcopy (v : pyval) : pyval :=
  match v with
  | VList l => VList (map deepcopy l)
  | VDict d => VDict (map (fun kv => (kv.1, deepcopy kv.2)) d)
  | _ => v
  end.

Definition deepcopy_dict (d : dict) : dict :=
  map (fun kv => (kv.1, deepcopy kv.2)) d.

(** [{**d, **kwargs}] and [d.update(kwargs)] *)
Definition dict_update {V} (d kwargs : list (string * V)) : list (string * V) :=
  foldl (fun acc kv => dict_set kv.1 kv.2 acc) d kwargs.

(** Python dicts have no repeated key, at any depth. *)
Fixpoint wf_val (v : pyval) : bool :=
  match v with
  | VList l => forallb wf_val l
  | VDict d => bool_decide (NoDup d.*1) && forallb (fun kv => wf_val kv.2) d
  | _ => true
  end.

Definition wf_dict (d : dict) : bool := wf_val (VDict d).

(** *** Classes *)

(** The state classes: the three of [core/state.py], and a subclass of
    [StateSchema] that declares annotated fields and inherits everything
    else, as [TestState] in [tests/test_state.py]. *)
Inductive pyclass :=
| StateSchema
| AgentState
| GraphState
| UserSchema (name : string) (annotations : list (string * pytype)).

Global Instance pyclass_eq_dec : EqDecision pyclass.
Proof. solve_decision. Defined.

(** [issubclass(c, d)]: every class derives from [StateSchema] directly. *)
Definition issubclass (c d : pyclass) : bool :=
  bool_decide (c = d) || bool_decide (d = StateSchema).

(** [typing.get_type_hints(cls)]: the annotations of the class body, a later
    annotation of a name replacing an earlier one. *)
Definition get_type_hints (c : pyclass) : list (string * pytype) :=
  match c with
  | StateSchema => []
  | AgentState =>
      [("messages", Tclass Clist); ("tool_calls", Tclass Clist);
       ("intermediate_steps", Tclass Clist); ("is_complete", Tclass Cbool)]
  | GraphState =>
      [("current_node", Tclass Cstr); ("next_node", Tclass Cstr);
       ("context", Talias_dict); ("results", Talias_dict)]
  | UserSchema _ annotations => dict_update [] annotations
  end.

(** *** Objects and the store *)

Record obj := { cls : pyclass; _data : dict }.

(** State instances live in a store; an instance is its address. *)
Abbreviation store := (list obj).
Abbreviation ref := nat.
Abbreviation M := (comp store).

Definition alloc (o : obj) : M ref := fun st => (Ok (length st), st ++ [o]).

(** Reading through a reference. Python has no dangling reference; the model
    answers one with a [RuntimeError]. *)
Definition deref (r : ref) : M obj :=
  fun st => match st !! r with
            | Some o => (Ok o, st)
            | None => (Raise (RuntimeError "dangling reference"), st)
            end.

(** [StateSchema._is_valid_type]. [get_origin] is [dict] for an alias over
    [dict], [list] for an alias over [list], and [None] for a class, which
    falls through to the [isinstance] test on the class itself. *)
Definition _is_valid_type (value : pyval) (expected_type : pytype) : bool :=
  match expected_type with
  | Talias_dict => isinstance value Cdict
  | Talias_list => isinstance value Clist
  | Tclass c => isinstance value c
  end.

(** [StateSchema._validate_types]: the loop over [type_hints.items()]. *)
Fixpoint validate_fields (type_hints : list (string * pytype)) (data : dict)
  : result unit :=
  match type_hints with
  | [] => Ok tt
  | (field, expected_type) :: rest =>
      match dict_get field data with
      | Some value =>
          if negb (_is_valid_type value expected_type) then
            Raise (StateValidationError field expected_type (type_of value))
          else validate_fields rest data
      | None => validate_fields rest data
      end
  end.

Definition _validate_types (c : pyclass) (data : dict) : result unit :=
  validate_fields (get_type_hints c) data.

(** [StateSchema.__init__(self, **kwargs)], for an instance of class [c]. *)
Definition StateSchema_init (c : pyclass) (kwargs : dict) : M ref :=
  _ <- lift (_validate_types c kwargs) ;;
  alloc {| cls := c; _data := deepcopy_dict kwargs |}.

(** Binding keyword arguments to a fixed parameter list: a keyword that is
    not a parameter is a [TypeError]. *)
Definition bind_keywords (params : list string) (kwargs : dict) : result unit :=
  match List.find (fun kv => negb (bool_decide (kv.1 ∈ params))) kwargs with
  | Some kv =>
      Raise (TypeError ("__init__() got an unexpected keyword argument '"
                        +:+ kv.1 +:+ "'"))
  | None => Ok tt
  end.

Definition arg (name : string) (default : pyval) (kwargs : dict) : pyval :=
  match dict_get name kwargs with Some v => v | None => default end.

(** [AgentState.__init__] *)
Definition AgentState_init (c : pyclass) (kwargs : dict) : M ref :=
  _ <- lift (bind_keywords
               ["messages"; "tool_calls"; "intermediate_steps"; "is_complete"]
               kwargs) ;;
  let messages := arg "messages" VNone kwargs in
  let tool_calls := arg "tool_calls" VNone kwargs in
  let intermediate_steps := arg "intermediate_steps" VNone kwargs in
  let is_complete := arg "is_complete" (VBool false) kwargs in
  StateSchema_init c
    [("messages", py_or messages (VList []));
     ("tool_calls", py_or tool_calls (VList []));
     ("intermediate_steps", py_or intermediate_steps (VList []));
     ("is_complete", is_complete)].

(** [GraphState.__init__] *)
Definition GraphState_init (c : pyclass) (kwargs : dict) : M ref :=
  _ <- lift (bind_keywords ["current_node"; "next_node"; "context"; "results"]
               kwargs) ;;
  let current_node := arg "current_node" (VStr "") kwargs in
  let next_node := arg "next_node" (VStr "") kwargs in
  let context := arg "context" VNone kwargs in
  let results := arg "results" VNone kwargs in
  StateSchema_init c
    [("current_node", current_node);
     ("next_node", next_node);
     ("context", py_or context (VDict []));
     ("results", py_or results (VDict []))].

(** The first parameter of every [__init__] is [self], bound to the new
    instance: a keyword of that name is a [TypeError]. *)
Definition bind_self (kwargs : dict) : result unit :=
  if dict_mem "self" kwargs then
    Raise (TypeError "__init__() got multiple values for argument 'self'")
  else Ok tt.

(** The constructor call with unpacked keyword arguments, dispatched on the
    class. *)
Definition new (c : pyclass) (kwargs : dict) : M ref :=
  _ <- lift (bind_self kwargs) ;;
  match c with
  | AgentState => AgentState_init c kwargs
  | GraphState => GraphState_init c kwargs
  | StateSchema | UserSchema _ _ => StateSchema_init c kwargs
  end.

(** [StateSchema.get] *)
Definition get (self : ref) (key : string) (default : pyval) : M pyval :=
  o <- deref self ;;
  ret (match dict_get key (_data o) with Some v => v | None => default end).

(** [StateSchema.set] *)
Definition set (self : ref) (key : string) (value : pyval) : M ref :=
  o <- deref self ;;
  let new_data := deepcopy_dict (_data o) in
  let new_data := dict_set key value new_data in
  let type_hints := get_type_hints (cls o) in
  match dict_get key type_hints with
  | Some expected =>
      if negb (_is_valid_type value expected) then
        raise (StateValidationError key expected (type_of value))
      else new (cls o) new_data
  | None => new (cls o) new_data
  end.

(** [StateSchema.update]. Its first parameter is [self] too: a keyword of
    that name does not bind. *)
Definition update (self : ref) (kwargs : dict) : M ref :=
  _ <- lift (if dict_mem "self" kwargs then
               Raise (TypeError "update() got multiple values for argument 'self'")
             else Ok tt) ;;
  o <- deref self ;;
  let new_data := dict_update (_data o) kwargs in
  new (cls o) new_data.

(** [StateSchema.to_dict] *)
Definition to_dict (self : ref) : M dict :=
  o <- deref self ;;
  ret (deepcopy_dict (_data o)).

(** [StateSchema.__eq__(self, other)], for [other] a state instance. *)
Definition __eq__ (self other : ref) : M bool :=
  a <- deref self ;;
  b <- deref other ;;
  if negb (issubclass (cls b) (cls a)) then ret false
  else ret (dict_eq (_data a) (_data b)).

(** The operator [a == b]. Python first tries the reflected
    [b.__eq__(a)] when the class of [b] is a proper subclass of the class of
    [a]; [__eq__] above never answers [NotImplemented], so the first method
    tried decides. *)
Definition eq_op (a b : ref) : M bool :=
  oa <- deref a ;;
  ob <- deref b ;;
  if negb (bool_decide (cls oa = cls ob)) && issubclass (cls ob) (cls oa)
  then __eq__ b a
  else __eq__ a b.

(** The operator [a != b]: [object.__ne__] inverts what [__eq__] answers. *)
Definition ne_op (a b : ref) : M bool :=
  r <- eq_op a b ;;
  ret (negb r).

(** Modelled from the spec: [from_dict], which [core/state.py] does not
    define. The spec names it only in the round-trip property; it is taken
    to be the class method that builds an instance from a dictionary of
    bindings the way every method of the class does, the constructor call on the unpacked dictionary. *)
Definition from_dict (c : pyclass) (d : dict) : M ref := new c d.

(** *** Vocabulary of the specification *)

Definition agent_params : list string :=
  ["messages"; "tool_calls"; "intermediate_steps"; "is_complete"].
Definition graph_params : list string :=
  ["current_node"; "next_node"; "context"; "results"].

(** The bindings of an [AgentState] and of a [GraphState]. *)
Definition agent_data (m t i b : pyval) : dict :=
  [("messages", m); ("tool_calls", t); ("intermediate_steps", i); ("is_complete", b)].

Definition graph_data (cn nn cx rs : pyval) : dict :=
  [("current_node", cn); ("next_node", nn); ("context", cx); ("results", rs)].

(** The keyword arguments that reach [StateSchema.__init__] when the class
    [c] is called with [kwargs]: [AgentState] and [GraphState] bind their
    four parameters, default them and pass all four on. *)
Definition class_args (c : pyclass) (kwargs : dict) : result dict :=
  match c with
  | AgentState =>
      match bind_keywords agent_params kwargs with
      | Raise e => Raise e
      | Ok _ =>
          Ok [("messages", py_or (arg "messages" VNone kwargs) (VList []));
              ("tool_calls", py_or (arg "tool_calls" VNone kwargs) (VList []));
              ("intermediate_steps",
                py_or (arg "intermediate_steps" VNone kwargs) (VList []));
              ("is_complete", arg "is_complete" (VBool false) kwargs)]
      end
  | GraphState =>
      match bind_keywords graph_params kwargs with
      | Raise e => Raise e
      | Ok _ =>
          Ok [("current_node", arg "current_node" (VStr "") kwargs);
              ("next_node", arg "next_node" (VStr "") kwargs);
              ("context", py_or (arg "context" VNone kwargs) (VDict []));
              ("results", py_or (arg "results" VNone kwargs) (VDict []))]
      end
  | StateSchema | UserSchema _ _ => Ok kwargs
  end.

Definition init_args (c : pyclass) (kwargs : dict) : result dict :=
  match bind_self kwargs with
  | Raise e => Raise e
  | Ok _ => class_args c kwargs
  end.

(** The bindings a new instance of [c] gets from [kwargs], or the exception
    of the constructor. *)
Definition init_data (c : pyclass) (kwargs : dict) : result dict :=
  match init_args c kwargs with
  | Raise e => Raise e
  | Ok args =>
      match _validate_types c args with
      | Raise e => Raise e
      | Ok _ => Ok (deepcopy_dict args)
      end
  end.

(** A state object that a constructor call built. *)
Definition constructed (o : obj) : Prop :=
  exists kwargs, wf_dict kwargs = true /\ init_data (cls o) kwargs = Ok (_data o).

(** Whether the constructor of [c] takes the keyword [k]. *)
Definition accepts (c : pyclass) (k : string) : bool :=
  match c with
  | AgentState => bool_decide (k ∈ agent_params)
  | GraphState => bool_decide (k ∈ graph_params)
  | StateSchema | UserSchema _ _ => negb (String.eqb k "self")
  end.

Definition is_validation_error {A} (r : result A) : bool :=
  match r with
  | Raise (StateValidationError _ _ _) => true
  | _ => false
  end.

Definition is_type_error {A} (r : result A) : bool :=
  match r with
  | Raise (TypeError _) => true
  | _ => false
  end.

(** Some declared field is bound in [args] to a value of the wrong kind. *)
Definition some_field_invalid (c : pyclass) (args : dict) : Prop :=
  exists field expected value,
    dict_get field (get_type_hints c) = Some expected
    /\ dict_get field args = Some value
    /\ _is_valid_type value expected = false.

End StatePy.

(** ** More vocabulary for the graph engine *)

Arguments GraphPy.edge_issues {St} _ _.

Section GraphVocabulary.
Import GraphPy.
Context {St : Type}.

(** What the build-time methods maintain: no name registered twice, every
    node stored under its own name, every edge between registered names, and
    an entry point that is registered, or absent only while the graph has no
    node. *)
Record well_formed (g : Graph St) : Prop := {
  wf_names : NoDup (dict_keys (nodes g));
  wf_node_name :
    forall n node, dict_get n (nodes g) = Some node -> node_name node = n;
  wf_edges :
    Forall (fun e => dict_mem (source e) (nodes g) = true
                     /\ dict_mem (target e) (nodes g) = true) (edges g);
  wf_entry :
    match entry_point g with
    | None => nodes g = []
    | Some n => dict_mem n (nodes g) = true
    end
}.

(** The names of the nodes a sequence of calls ran, in order. *)
Fixpoint called_names (cs : list (call St)) : list string :=
  match cs with
  | [] => []
  | CallNode n _ :: cs' => n :: called_names cs'
  | CallShouldFollow _ _ :: cs' => called_names cs'
  end.

(** The message [validate] has for a node without incoming edge. *)
Definition orphan_message (n : string) : string :=
  "Node '" +:+ n +:+ "' has no incoming edges and is not entry point".

(** The ways a run can end. *)
Definition run_outcome (g : Graph St) {A} (r : result (option A)) : Prop :=
  match r with
  | Ok (Some _) => True
  | Ok None => False
  | Raise ex =>
      (exists n, ex = cycle_error n)
      \/ (exists n node s, dict_get n (nodes g) = Some node /\ func node s = Raise ex)
  end.

(** The set [nodes_with_incoming_edges] that [validate] builds. *)
Definition incoming_names (g : Graph St) : gset (option string) :=
  foldl (fun acc e => {[ Some (target e) ]} ∪ acc) {[ entry_point g ]} (edges g).

(** The list [validate] returns. *)
Definition issues_of (g : Graph St) : result (list string) :=
  fst (validate {| self := g; calls := [] |}).

End GraphVocabulary.

(** ** The methods of [AgentState] and [GraphState] ([core/state.py]) *)

Module StateOps.
Import StatePy.

(** [a + [x, ...]]: list concatenation; any other left operand of the value
    domain is a [TypeError] (its message depends on the operand). *)
Definition list_add (a : pyval) (items : list pyval) : result pyval :=
  match a with
  | VList l => Ok (VList (l ++ items))
  | _ => Raise (TypeError "unsupported operand type(s) for +")
  end.

(** The dict display that unpacks [d] and then binds [key]; unpacking
    anything but a dict is a [TypeError]. *)
Definition dict_merge (d : pyval) (key : string) (value : pyval) : result pyval :=
  match d with
  | VDict items => Ok (VDict (dict_set key value items))
  | _ => Raise (TypeError "object is not a mapping")
  end.

(** The properties of [AgentState]. *)
Definition messages (self : ref) : M pyval := get self "messages" (VList []).
Definition tool_calls (self : ref) : M pyval := get self "tool_calls" (VList []).
Definition intermediate_steps (self : ref) : M pyval :=
  get self "intermediate_steps" (VList []).
Definition is_complete (self : ref) : M pyval := get self "is_complete" (VBool false).

(** [AgentState.add_message] *)
Definition add_message (self : ref) (role content : pyval) : M ref :=
  ms <- messages self ;;
  new_messages <- lift (list_add ms [VDict [("role", role); ("content", content)]]) ;;
  update self [("messages", new_messages)].

(** [AgentState.add_tool_call] *)
Definition add_tool_call (self : ref) (tool_name tool_args : pyval) : M ref :=
  tcs <- tool_calls self ;;
  new_tool_calls <-
    lift (list_add tcs [VDict [("tool", tool_name); ("args", tool_args)]]) ;;
  update self [("tool_calls", new_tool_calls)].

(** [AgentState.add_intermediate_step] *)
Definition add_intermediate_step (self : ref) (step : pyval) : M ref :=
  steps <- intermediate_steps self ;;
  new_steps <- lift (list_add steps [step]) ;;
  update self [("intermediate_steps", new_steps)].

(** The properties of [GraphState]. *)
Definition current_node (self : ref) : M pyval := get self "current_node" (VStr "").
Definition next_node (self : ref) : M pyval := get self "next_node" (VStr "").
Definition context (self : ref) : M pyval := get self "context" (VDict []).
Definition results (self : ref) : M pyval := get self "results" (VDict []).

(** [GraphState.set_current_node] and [GraphState.set_next_node] *)
Definition set_current_node (self : ref) (node_name : pyval) : M ref :=
  update self [("current_node", node_name)].

Definition set_next_node (self : ref) (node_name : pyval) : M ref :=
  update self [("next_node", node_name)].

(** [GraphState.add_context] and [GraphState.add_result] *)
Definition add_context (self : ref) (key : string) (value : pyval) : M ref :=
  ctx <- context self ;;
  new_context <- lift (dict_merge ctx key value) ;;
  update self [("context", new_context)].

Definition add_result (self : ref) (key : string) (value : pyval) : M ref :=
  rs <- results self ;;
  new_results <- lift (dict_merge rs key value) ;;
  update self [("results", new_results)].

(** Every object of a store was built by a constructor call. *)
Definition store_ok (st : store) : Prop :=
  forall r o, st !! r = Some o -> constructed o.

End StateOps.

(** ** Edge conditions ([core/edges.py]) *)

Module EdgesPy.
Import StatePy GraphPy.

(** A condition reads the state instance it is given: its class and its
    bindings. [state_get] is [StateSchema.get] on the instance. Strings are
    sequences of characters, compared character by character. *)
Definition state_get (state : obj) (key : string) (default : pyval) : pyval :=
  match dict_get key (_data state) with Some v => v | None => default end.

Definition always_true (state : obj) : bool := true.
Definition always_false (state : obj) : bool := false.

(** [has_key]: [key in state.to_dict()] *)
Definition has_key (key : string) (state : obj) : bool :=
  dict_mem key (deepcopy_dict (_data state)).

(** [key_equals]: [state.get(key) == value] *)
Definition key_equals (key : string) (value : pyval) (state : obj) : bool :=
  py_eq (state_get state key VNone) value.

(** [key_exists_and_true]: [bool(state.get(key, False))] *)
Definition key_exists_and_true (key : string) (state : obj) : bool :=
  truthy (state_get state key (VBool false)).

(** [len(v)]: defined on strings, lists and dicts. *)
Definition py_len (v : pyval) : result nat :=
  match v with
  | VStr s => Ok (String.length s)
  | VList l => Ok (length l)
  | VDict d => Ok (length d)
  | _ => Raise (TypeError "object has no len()")
  end.

(** [has_messages(min_count)] *)
Definition has_messages (min_count : Z) (state : obj) : result bool :=
  if issubclass (cls state) AgentState then
    match py_len (state_get state "messages" (VList [])) with
    | Ok n => Ok (min_count <=? Z.of_nat n)%Z
    | Raise ex => Raise ex
    end
  else Ok false.

(** [has_tool_calls()] *)
Definition has_tool_calls (state : obj) : result bool :=
  if issubclass (cls state) AgentState then
    match py_len (state_get state "tool_calls" (VList [])) with
    | Ok n => Ok (0 <? Z.of_nat n)%Z
    | Raise ex => Raise ex
    end
  else Ok false.

(** [is_complete(state)] returns a condition, whatever [state] is; the
    condition answers with the value bound to [is_complete]. Both branches of
    the source read that binding with the default [False]. *)
Definition is_complete (state : obj) : obj -> pyval :=
  fun state' => state_get state' "is_complete" (VBool false).

(** [current_node_equals(node_name)] *)
Definition current_node_equals (node_name : string) (state : obj) : bool :=
  if issubclass (cls state) GraphState then
    py_eq (state_get state "current_node" (VStr "")) (VStr node_name)
  else py_eq (state_get state "current_node" VNone) (VStr node_name).

(** [value_in_list]: [state.get(key) in valid_values], which compares each
    item of the list with the value. *)
Definition value_in_list (key : string) (valid_values : list pyval) (state : obj)
  : bool :=
  existsb (fun item => py_eq item (state_get state key VNone)) valid_values.

(** [isinstance(state_value, (int, float))] on the values of the model,
    none of which is a float: the int a value is when it is an instance of
    [int], a bool among them. *)
Definition as_number (v : pyval) : option Z :=
  match v with
  | VInt z => Some z
  | VBool b => Some (Z.b2z b)
  | _ => None
  end.

(** [numeric_condition(key, operator, value)], for an int [value]: the
    comparisons are those of two ints. *)
Definition numeric_condition (key operator : string) (value : Z) (state : obj)
  : bool :=
  match as_number (state_get state key VNone) with
  | None => false
  | Some state_value =>
      if String.eqb operator ">" then (value <? state_value)%Z
      else if String.eqb operator ">=" then (value <=? state_value)%Z
      else if String.eqb operator "<" then (state_value <? value)%Z
      else if String.eqb operator "<=" then (state_value <=? value)%Z
      else if String.eqb operator "==" then (state_value =? value)%Z
      else if String.eqb operator "!=" then negb (state_value =? value)%Z
      else false
  end.

(** [string_contains] and [string_starts_with] *)
Definition string_contains (key substring : string) (state : obj) : bool :=
  match state_get state key VNone with
  | VStr state_value =>
      match String.index 0 substring state_value with
      | Some _ => true
      | None => false
      end
  | _ => false
  end.

Definition string_starts_with (key prefix : string) (state : obj) : bool :=
  match state_get state key VNone with
  | VStr state_value => String.prefix prefix state_value
  | _ => false
  end.

(** The combinators work on conditions over any state type. *)
Definition logical_and {St} (conditions : list (St -> bool)) (state : St) : bool :=
  forallb (fun cond => cond state) conditions.

Definition logical_or {St} (conditions : list (St -> bool)) (state : St) : bool :=
  existsb (fun cond => cond state) conditions.

Definition logical_not {St} (condition : St -> bool) (state : St) : bool :=
  negb (condition state).

(** [EdgeBuilder]: each method returns the argument tuple, or tuples, of
    [Graph.add_edge], here the edge those arguments make. *)
Definition sequential (source target : string) : Edge obj :=
  {| source := source; target := target; condition := Some always_true |}.

Definition conditional (source target : string) (condition : obj -> bool)
  : Edge obj :=
  {| GraphPy.source := source; GraphPy.target := target;
     GraphPy.condition := Some condition |}.

Definition branch {St} (source true_target false_target : string)
    (condition : St -> bool) : list (Edge St) :=
  [ {| GraphPy.source := source; target := true_target;
       GraphPy.condition := Some condition |};
    {| GraphPy.source := source; target := false_target;
       GraphPy.condition := Some (logical_not condition) |} ].

(** [switch]: [cases] is a dict from values to targets, iterated in
    insertion order; [default] is appended when it is given and not empty. *)
Definition switch (source : string) (cases : list (pyval * string))
    (default : option string) : list (Edge obj) :=
  let edges :=
    map (fun case => {| GraphPy.source := source; target := case.2;
                        condition := Some (key_equals "switch_value" case.1) |})
        cases in
  match default with
  | Some d =>
      if negb (String.eqb d "") then
        edges ++ [{| GraphPy.source := source; target := d;
                     condition := Some always_true |}]
      else edges
  | None => edges
  end.

End EdgesPy.

(** ** The graph of [SimpleAgent] ([agents/simple.py]) *)

Module SimpleAgentPy.
Import StatePy GraphPy.

(** The six bound methods [create_graph] registers as node functions. *)
Record methods := {
  _create_input_node : obj -> result obj;
  _analyze_input : obj -> result obj;
  _use_tool_node : obj -> result obj;
  _respond_node : obj -> result obj;
  _check_complete_node : obj -> result obj;
  _create_output_node : obj -> result obj
}.

(** A function object is true. *)
Definition function_truthy {A B} (f : A -> B) : bool := true.

(** What the engine sees when [is_complete] itself is an edge condition:
    [should_follow] calls it on the state and gets the inner function back,
    which [get_next_nodes] tests for truth. *)
Definition is_complete_condition (state : obj) : bool :=
  function_truthy (EdgesPy.is_complete state).

(** [SimpleAgent.create_graph], for the agent called [name]. The parameter
    [has_tool_calls] is the condition that [has_tool_calls()] returns, as a
    total predicate. The result is the graph, or the exception of the first
    build step that raises. *)
Definition create_graph (name : string) (self : methods)
    (has_tool_calls : obj -> bool) : result (Graph obj) :=
  let build : comp (world obj) unit :=
    _ <- add_node "input" (_create_input_node self) ;;
    _ <- add_node "analyze" (_analyze_input self) ;;
    _ <- add_node "use_tool" (_use_tool_node self) ;;
    _ <- add_node "respond" (_respond_node self) ;;
    _ <- add_node "check_complete" (_check_complete_node self) ;;
    _ <- add_node "output" (_create_output_node self) ;;
    _ <- add_edge "input" "analyze" None ;;
    _ <- add_edge "analyze" "use_tool" (Some has_tool_calls) ;;
    _ <- add_edge "analyze" "respond" (Some (EdgesPy.logical_not has_tool_calls)) ;;
    _ <- add_edge "use_tool" "respond" None ;;
    _ <- add_edge "respond" "check_complete" None ;;
    _ <- add_edge "check_complete" "output" (Some is_complete_condition) ;;
    _ <- add_edge "check_complete" "analyze"
           (Some (EdgesPy.logical_not is_complete_condition)) ;;
    set_entry_point "input" in
  match build {| GraphPy.self := Graph_init (name +:+ "_graph"); calls := [] |} with
  | (Ok _, w) => Ok (GraphPy.self w)
  | (Raise ex, _) => Raise ex
  end.

End SimpleAgentPy.

(** ** Strategy selection ([core/strategy_selector.py], [core/execution.py],
    [core/compilation.py]) *)

Module StrategyPy.

(** The two strategy classes; a compiled strategy is created with the size
    of its cache. *)
Inductive ExecutionStrategy :=
| TraditionalStrategy
| CompiledStrategy (cache_size : Z).

(** [StrategyFactory] *)
Definition create_traditional : ExecutionStrategy := TraditionalStrategy.

Definition create_compiled (cache_size : option Z) : ExecutionStrategy :=
  CompiledStrategy (default 50%Z cache_size).

Definition create_best_automatic : ExecutionStrategy := CompiledStrategy 50.

(** [StrategySelector]: its two attributes, read from the environment when
    the selector is made. *)
Record StrategySelector := {
  default_strategy : string;
  enable_auto_switch : bool
}.

Definition strategy_names : list string := ["traditional"; "compiled"; "auto"].

(** [s and s in ["traditional", "compiled", "auto"]], for an optional
    string. *)
Definition names_strategy (s : option string) : bool :=
  match s with
  | None => false
  | Some name =>
      negb (String.eqb name "") && existsb (String.eqb name) strategy_names
  end.

(** [StrategySelector.select_strategy] *)
Definition select_strategy (self : StrategySelector)
    (request_strategy header_strategy : option string)
    (request_complexity : option Z) : string :=
  if names_strategy request_strategy then default "" request_strategy
  else if names_strategy header_strategy then default "" header_strategy
  else if enable_auto_switch self
          && match request_complexity with
             | Some c => negb (c =? 0)%Z
             | None => false
             end
  then
    let c := default 0%Z request_complexity in
    if (7 <? c)%Z then "compiled"
    else if (c <? 3)%Z then "traditional"
    else "compiled"
  else default_strategy self.

(** [StrategySelector.create_strategy], called with the keywords of
    [select_strategy]. *)
Definition create_strategy (self : StrategySelector)
    (request_strategy header_strategy : option string)
    (request_complexity : option Z) : ExecutionStrategy :=
  let strategy_type :=
    select_strategy self request_strategy header_strategy request_complexity in
  if String.eqb strategy_type "auto" then create_best_automatic
  else if String.eqb strategy_type "traditional" then create_traditional
  else if String.eqb strategy_type "compiled" then create_compiled None
  else create_traditional.

(** [AgentCompiler.compile]: the execution strategy of the compiled agent it
    returns. *)
Definition compile (strategy : string) : result ExecutionStrategy :=
  if String.eqb strategy "traditional" then Ok create_traditional
  else if String.eqb strategy "compiled" then Ok (create_compiled None)
  else if String.eqb strategy "auto" then Ok create_best_automatic
  else Raise (ValueError ("Unknown strategy: " +:+ strategy +:+
                          ". Use 'traditional', 'compiled', or 'auto'")).

End StrategyPy.

(** ** The graph cache ([core/execution.py]) *)

Module CachePy.
Import GraphPy.

(** What a cache method does: it returns, lets an exception of the graph
    through, or fails to find a key. *)
Inductive outcome (A : Type) :=
| Returned (a : A)
| Raised (ex : exn)
| KeyError (key : string).
Arguments Returned {A} _.
Arguments Raised {A} _.
Arguments KeyError {A} _.

Section Cache.
Context {St Agent : Type}.

(** [_generate_key] digests the class name, the name and the tool names of
    the agent into a string; any function from agents to strings stands for
    it. *)
Variable _generate_key : Agent -> string.

(** A cached graph is the graph as it was when it was cached: nothing
    changes it while the cache holds it. *)
Record GraphCache := {
  _cache : list (string * Graph St);
  _validation_cache : list (string * bool);
  _max_size : Z
}.

Definition GraphCache_init (max_size : Z) : GraphCache :=
  {| _cache := []; _validation_cache := []; _max_size := max_size |}.

(** [GraphCache.get] *)
Definition get (agent : Agent) (self : GraphCache) : option (Graph St) :=
  dict_get (_generate_key agent) (_cache self).

(** [GraphCache.clear] *)
Definition clear (self : GraphCache) : GraphCache :=
  {| _cache := []; _validation_cache := []; _max_size := _max_size self |}.

(** [GraphCache.set]: the key and the cache afterwards. *)
Definition set (agent : Agent) (graph : Graph St) (self : GraphCache)
  : string * GraphCache :=
  let key := _generate_key agent in
  let self' :=
    if (_max_size self <=? Z.of_nat (length (_cache self)))%Z then clear self
    else self in
  (key, {| _cache := dict_set key graph (_cache self');
           _validation_cache := _validation_cache self';
           _max_size := _max_size self' |}).

(** [GraphCache.is_valid]: the answer and the cache afterwards. *)
Definition is_valid (key : string) (self : GraphCache)
  : outcome bool * GraphCache :=
  if negb (dict_mem key (_validation_cache self)) then
    match dict_get key (_cache self) with
    | None => (KeyError key, self)
    | Some graph =>
        match issues_of graph with
        | Raise ex => (Raised ex, self)
        | Ok issues =>
            let self' :=
              {| _cache := _cache self;
                 _validation_cache :=
                   dict_set key (Nat.eqb (length issues) 0) (_validation_cache self);
                 _max_size := _max_size self |} in
            (match dict_get key (_validation_cache self') with
             | Some b => Returned b
             | None => KeyError key
             end, self')
        end
    end
  else
    (match dict_get key (_validation_cache self) with
     | Some b => Returned b
     | None => KeyError key
     end, self).

End Cache.
End CachePy.

(** ** Concrete graphs and states *)

Module Examples.
Import GraphPy.

(** Graphs over a counter state, built by the build-time methods from an
    empty [Graph]. *)
Definition built (name : string) (c : comp (world nat) unit) : world nat :=
  snd (c {| self := Graph_init name; calls := [] |}).

Definition incr (s : nat) : result nat := Ok (s + 1).
Definition times10 (s : nat) : result nat := Ok (s * 10).

(** [A -> B], [B -> A], both unconditional. *)
Definition w_cycle : world nat :=
  built "cycle"
    (_ <- add_node "A" incr ;;
     _ <- add_node "B" times10 ;;
     _ <- add_edge "A" "B" None ;;
     add_edge "B" "A" None).

(** [A -> B] guarded by a predicate that never holds, [B -> A]. *)
Definition never (s : nat) : bool := false.

Definition w_guarded : world nat :=
  built "guarded"
    (_ <- add_node "A" incr ;;
     _ <- add_node "B" times10 ;;
     _ <- add_edge "A" "B" (Some never) ;;
     add_edge "B" "A" None).

(** [S -> X] guarded by [s == 1], then [S -> Y] unconditional. The guard
    fails on the initial state [0] and holds on the output [1] of [S]. *)
Definition is_one (s : nat) : bool := Nat.eqb s 1.

Definition w_fork : world nat :=
  built "fork"
    (_ <- add_node "S" incr ;;
     _ <- add_node "X" times10 ;;
     _ <- add_node "Y" incr ;;
     _ <- add_edge "S" "X" (Some is_one) ;;
     add_edge "S" "Y" None).

(** [S -> X] then [S -> Y], both unconditional. *)
Definition w_tie : world nat :=
  built "tie"
    (_ <- add_node "S" incr ;;
     _ <- add_node "X" times10 ;;
     _ <- add_node "Y" incr ;;
     _ <- add_edge "S" "X" None ;;
     add_edge "S" "Y" None).

(** [S -> X] guarded by [s == 0], then [S -> Y] and [S -> Z], both
    unconditional. The guard holds on the initial state [0] and fails on the
    output [1] of [S]. *)
Definition is_zero (s : nat) : bool := Nat.eqb s 0.

Definition w_skip : world nat :=
  built "skip"
    (_ <- add_node "S" incr ;;
     _ <- add_node "X" times10 ;;
     _ <- add_node "Y" incr ;;
     _ <- add_node "Z" incr ;;
     _ <- add_edge "S" "X" (Some is_zero) ;;
     _ <- add_edge "S" "Y" None ;;
     add_edge "S" "Z" None).

Definition node_S : Node nat := {| node_name := "S"; func := incr |}.
Definition node_A : Node nat := {| node_name := "A"; func := incr |}.
Definition node_B : Node nat := {| node_name := "B"; func := times10 |}.
Definition edge (s t : string) (c : option (nat -> bool)) : Edge nat :=
  {| source := s; target := t; condition := c |}.


(** States: a store holding a [TestState] as in the tests, a default
    [AgentState], a plain [StateSchema] and a default [GraphState]. *)
Import StatePy.

Definition TestState : pyclass :=
  UserSchema "TestState" [("name", Tclass Cstr); ("age", Tclass Cint)].

Definition kw_test : dict := [("name", VStr "John"); ("age", VInt 30)].
Definition kw_plain : dict := [("x", VInt 1)].

Definition st_example : store :=
  snd ((_ <- new TestState kw_test ;;
        _ <- new AgentState [] ;;
        _ <- new StateSchema kw_plain ;;
        new GraphState []) []).

Definition o_test : obj := {| cls := TestState; _data := kw_test |}.
Definition o_agent : obj :=
  {| cls := AgentState;
     _data := agent_data (VList []) (VList []) (VList []) (VBool false) |}.
Definition o_plain : obj := {| cls := StateSchema; _data := kw_plain |}.

End Examples.

(** More graphs, states and a cache, for the facts beyond the claims. *)
Module MoreExamples.
Import GraphPy Examples.

(** [A -> B] where the function of [B] raises. *)
Definition boom (s : nat) : result nat := Raise (RuntimeError "boom").

Definition w_boom : world nat :=
  built "boom"
    (_ <- add_node "A" incr ;;
     _ <- add_node "B" boom ;;
     add_edge "A" "B" None).

Definition node_boom : Node nat := {| node_name := "B"; func := boom |}.

(** [S] branches to [X] or [Y] on [s == 1]; [X -> Y] comes first in the
    edge list. *)
Definition w_branch : world nat :=
  {| self :=
       {| graph_name := "branch";
          nodes := [("S", node_S);
                    ("X", {| node_name := "X"; func := times10 |});
                    ("Y", {| node_name := "Y"; func := incr |})];
          edges := edge "X" "Y" None :: EdgesPy.branch "S" "X" "Y" is_one;
          entry_point := Some "S" |};
     calls := [] |}.

Import StatePy.

(** A default [GraphState], the fourth instance of [st_example]. *)
Definition o_graph : obj :=
  {| cls := GraphState;
     _data := graph_data (VStr "") (VStr "") (VDict []) (VDict []) |}.

(** [st_example] with a second [TestState] equal to the first. *)
Definition st_twice : store := snd (new TestState kw_test st_example).

(** A router: [route] switches on [switch_value] to [A] for ["a"] and to
    [B] for [1], with default [D]. *)
Definition keep (o : obj) : result obj := Ok o.

Definition switch_cases : list (pyval * string) := [(VStr "a", "A"); (VInt 1, "B")].

Definition w_switch : world obj :=
  {| self :=
       {| graph_name := "switch";
          nodes := [("route", {| node_name := "route"; func := keep |});
                    ("A", {| node_name := "A"; func := keep |});
                    ("B", {| node_name := "B"; func := keep |});
                    ("D", {| node_name := "D"; func := keep |})];
          edges := EdgesPy.switch "route" switch_cases (Some "D");
          entry_point := Some "route" |};
     calls := [] |}.

Definition o_switch : obj :=
  {| cls := StateSchema; _data := [("switch_value", VBool true)] |}.

(** A plain state that binds a flag. *)
Definition o_flag : obj :=
  {| cls := StateSchema; _data := [("x", VBool true)] |}.

(** An agent whose node functions return the state as it is and whose
    tool-call condition never holds. *)
Definition m_keep : SimpleAgentPy.methods :=
  {| SimpleAgentPy._create_input_node := keep;
     SimpleAgentPy._analyze_input := keep;
     SimpleAgentPy._use_tool_node := keep;
     SimpleAgentPy._respond_node := keep;
     SimpleAgentPy._check_complete_node := keep;
     SimpleAgentPy._create_output_node := keep |}.

Definition no_tool_calls (o : obj) : bool := false.

(** A selector with automatic switching on. *)
Definition selector : StrategyPy.StrategySelector :=
  {| StrategyPy.default_strategy := "traditional";
     StrategyPy.enable_auto_switch := true |}.

(** A cache of at most one graph, for agents that are told apart by their
    name, holding the graph of [w_fork] for the agent [fork]. *)
Definition agent_key (agent : string) : string := agent.

Definition cache_full : CachePy.GraphCache (St := nat) :=
  snd (CachePy.set agent_key "fork" (self w_fork) (CachePy.GraphCache_init 1)).

End MoreExamples.

(** * Facts about the graph engine *)

Section GraphFacts.
Import GraphPy.
Context {St : Type}.
Implicit Types (w : world St) (l : locals St) (g : Graph St) (e : Edge St).

Lemma logged_nil w : logged w [] = w.
Proof. destruct w; unfold logged; simpl; by rewrite app_nil_r. Qed.

Lemma logged_logged w cs cs' : logged (logged w cs) cs' = logged w (cs ++ cs').
Proof. unfold logged; simpl; by rewrite app_assoc. Qed.

Lemma self_logged w cs : self (logged w cs) = self w.
Proof. reflexivity. Qed.

Lemma calls_logged w cs : calls (logged w cs) = calls w ++ cs.
Proof. reflexivity. Qed.

Lemma node_calls_app (cs cs' : list (call St)) :
  node_calls (cs ++ cs') = node_calls cs + node_calls cs'.
Proof. unfold node_calls. by rewrite List.filter_app, length_app. Qed.

Lemma node_calls_should_follow (es : list (Edge St)) (s : St) :
  node_calls (map (fun e => CallShouldFollow e s) es) = 0.
Proof. induction es as [|e es IH]; [done|]. exact IH. Qed.

(** Membership in a dict, by keys. *)
Lemma dict_get_Some_keys {V} (k : string) (d : list (string * V)) v :
  dict_get k d = Some v -> k ∈ dict_keys d.
Proof.
  induction d as [|[k' v'] d IH]; simpl; [done|].
  destruct (String.eqb_spec k' k) as [->|Hne]; intros H.
  - apply list_elem_of_here.
  - apply list_elem_of_further, IH, H.
Qed.

Lemma dict_get_None_keys {V} (k : string) (d : list (string * V)) :
  dict_get k d = None <-> k ∉ dict_keys d.
Proof.
  induction d as [|[k' v'] d IH]; simpl.
  - split; [intros _; apply not_elem_of_nil | done].
  - destruct (String.eqb_spec k' k) as [->|Hne].
    + split; [done|]. intros H. exfalso. apply H, list_elem_of_here.
    + rewrite IH, not_elem_of_cons. split; [intros H; split; congruence | tauto].
Qed.

Lemma size_list_to_set_le (ks : list string) :
  size (list_to_set ks : gset string) ≤ length ks.
Proof.
  unfold size, set_size; simpl.
  apply submseteq_length, NoDup_submseteq; [apply NoDup_elements|].
  intros x Hx. apply elem_of_elements in Hx. by apply elem_of_list_to_set in Hx.
Qed.

(** [get_next_nodes] calls [should_follow] once on every edge that leaves
    the node, in the order of [self.edges], and keeps the targets of those
    that answered true. *)
Lemma get_next_nodes_loop_spec (es : list (Edge St)) cur (s : St) acc w :
  get_next_nodes_loop es cur s acc w =
  (Ok (acc ++ map target
         (List.filter (fun e => should_follow_pure e s)
            (List.filter (fun e => String.eqb (source e) cur) es))),
   logged w (map (fun e => CallShouldFollow e s)
               (List.filter (fun e => String.eqb (source e) cur) es))).
Proof.
  revert acc w. induction es as [|e es IH]; intros acc w; simpl.
  - by rewrite app_nil_r, logged_nil.
  - destruct (String.eqb (source e) cur); [|apply IH].
    unfold bind, should_follow, record, modify, ret at 1; simpl.
    rewrite IH, logged_logged; simpl.
    destruct (should_follow_pure e s); simpl; [|done].
    by rewrite <- app_assoc.
Qed.

Lemma get_next_nodes_spec cur (s : St) w :
  get_next_nodes cur s w =
  (Ok (map target (qualifying (self w) cur s)),
   logged w (map (fun e => CallShouldFollow e s) (outgoing (self w) cur))).
Proof.
  unfold get_next_nodes, bind, gets. apply get_next_nodes_loop_spec.
Qed.

(** What one iteration of the loop does, case by case. *)
Lemma loop_body_spec l w :
  loop_body l w =
  if decide (current_node l ∈ visited_nodes l) then
    (Raise (cycle_error (current_node l)), w)
  else match dict_get (current_node l) (nodes (self w)) with
       | None =>
           (Raise (ValueError ("Node '" +:+ current_node l +:+ "' not found")), w)
       | Some node =>
           match func node (current_state l) with
           | Raise ex =>
               (Raise ex, logged w [CallNode (node_name node) (current_state l)])
           | Ok st =>
               (Ok match qualifying (self w) (current_node l) st with
                   | [] => Break (moved l st (current_node l))
                   | e :: _ => Continue (moved l st (target e))
                   end,
                logged w (step_calls w l node st))
           end
       end.
Proof.
  unfold loop_body. destruct (decide _); [reflexivity|].
  unfold bind at 1, gets; simpl.
  destruct (dict_get _ _) as [node|]; [|reflexivity].
  unfold bind at 1, Node_execute, bind at 1, record, modify, lift; simpl.
  destruct (func node (current_state l)) as [st|ex]; [|reflexivity].
  unfold bind. rewrite get_next_nodes_spec. rewrite self_logged, logged_logged.
  unfold step_calls; simpl.
  destruct (qualifying _ _ _); reflexivity.
Qed.

Lemma remaining_pos l w node :
  current_node l ∉ visited_nodes l ->
  dict_get (current_node l) (nodes (self w)) = Some node ->
  0 < remaining w l.
Proof.
  intros Hnv Hget. unfold remaining.
  apply dict_get_Some_keys in Hget.
  assert (Hin : current_node l ∈
     (list_to_set (dict_keys (nodes (self w))) ∖ visited_nodes l : gset string))
    by (apply elem_of_difference; split; [by apply elem_of_list_to_set|done]).
  destruct (size _) eqn:Hs; [|lia].
  apply size_empty_inv in Hs. set_solver.
Qed.

Lemma node_calls_step w l node (st : St) : node_calls (step_calls w l node st) = 1.
Proof.
  unfold step_calls.
  change (CallNode ?a ?b :: ?r) with ([CallNode (St:=St) a b] ++ r).
  by rewrite node_calls_app, node_calls_should_follow.
Qed.

(** An iteration never writes to the graph, and only adds calls: at most one
    of a node function, and none when no name remains. *)
Lemma loop_body_frame l w :
  exists cs, snd (loop_body l w) = logged w cs /\ node_calls cs <= 1 /\
             node_calls cs <= remaining w l.
Proof.
  rewrite loop_body_spec.
  destruct (decide _) as [|Hnv];
    [exists []; rewrite logged_nil; unfold node_calls; simpl; split; [done|lia]|].
  destruct (dict_get _ _) as [node|] eqn:Hget;
    [|exists []; rewrite logged_nil; unfold node_calls; simpl; split; [done|lia]].
  pose proof (remaining_pos l w node Hnv Hget) as Hpos.
  destruct (func node _) as [st|ex]; eexists; (split; [reflexivity|]).
  - rewrite node_calls_step. lia.
  - unfold node_calls; simpl. lia.
Qed.

(** When an iteration moves on, the node it ran was registered and not yet
    visited, so fewer names remain. *)
Lemma loop_body_continue l w l' w' :
  loop_body l w = (Ok (Continue l'), w') ->
  remaining w' l' < remaining w l /\
  exists cs, w' = logged w cs /\ node_calls cs = 1.
Proof.
  rewrite loop_body_spec.
  destruct (decide _) as [|Hnv]; [done|].
  destruct (dict_get _ _) as [node|] eqn:Hget; [|done].
  destruct (func node _) as [st|ex]; [|done].
  intros H. injection H as Hc Hw. subst w'.
  split.
  - destruct (qualifying _ _ _) as [|e es]; [done|].
    injection Hc as <-. unfold remaining, moved; simpl.
    apply subset_size.
    apply dict_get_Some_keys in Hget.
    assert (current_node l ∈ (list_to_set (dict_keys (nodes (self w))) : gset string))
      by (by apply elem_of_list_to_set).
    set_solver.
  - eexists; split; [reflexivity|]. apply node_calls_step.
Qed.

(** The loop ends within as many iterations as names remain, plus the one
    that detects the end; it leaves the graph as it was and runs at most as
    many node functions as names remained. *)
Lemma while_loop_total fuel : forall l w,
  remaining w l < fuel ->
  exists r cs, while_loop fuel l w = (r, logged w cs) /\ r <> Ok None /\
               node_calls cs <= remaining w l.
Proof.
  induction fuel as [|fuel IH]; intros l w Hlt; [lia|].
  simpl. unfold bind at 1.
  destruct (loop_body_frame l w) as (cs0 & Hw & Hone & Hcs0).
  destruct (loop_body l w) as [[c|ex] w1] eqn:Hbody; simpl in Hw; subst w1.
  - destruct c as [l'|l'].
    + destruct (loop_body_continue _ _ _ _ Hbody) as (Hrem & cs & _ & Hcs).
      destruct (IH l' (logged w cs0)) as (r & cs' & Hrun & Hr & Hn); [lia|].
      exists r, (cs0 ++ cs'). rewrite Hrun, logged_logged, node_calls_app.
      split; [done|]. split; [done|]. lia.
    + exists (Ok (Some l')), cs0. by repeat split.
  - exists (Raise ex), cs0. by repeat split.
Qed.

(** More fuel does not change a run that ended. *)
Lemma while_loop_more_fuel fuel : forall l w r w' fuel',
  while_loop fuel l w = (r, w') -> r <> Ok None -> fuel <= fuel' ->
  while_loop fuel' l w = (r, w').
Proof.
  induction fuel as [|fuel IH]; intros l w r w' fuel' Hrun Hr Hle.
  - simpl in Hrun. unfold ret in Hrun. congruence.
  - destruct fuel' as [|fuel']; [lia|].
    simpl in *. unfold bind in *.
    destruct (loop_body l w) as [[[l'|l']|ex] w1]; try done.
    apply IH; [done|done|lia].
Qed.

Lemma while_loop_fuel_irrelevant f1 f2 l w r1 w1 r2 w2 :
  while_loop f1 l w = (r1, w1) -> r1 <> Ok None ->
  while_loop f2 l w = (r2, w2) -> r2 <> Ok None ->
  (r1, w1) = (r2, w2).
Proof.
  intros H1 Hr1 H2 Hr2.
  rewrite <- (while_loop_more_fuel f1 l w r1 w1 (f1 `max` f2) H1 Hr1) by lia.
  rewrite <- (while_loop_more_fuel f2 l w r2 w2 (f1 `max` f2) H2 Hr2) by lia.
  done.
Qed.

Lemma remaining_initial w (s0 : St) (n : string) :
  remaining w (initial_locals s0 n) <= length (nodes (self w)).
Proof.
  unfold remaining, initial_locals; simpl.
  trans (size (list_to_set (dict_keys (nodes (self w))) : gset string)).
  { apply subseteq_size. set_solver. }
  etrans; [apply size_list_to_set_le|].
  unfold dict_keys. by rewrite length_fmap.
Qed.

Lemma remaining_logged w cs l : remaining (logged w cs) l = remaining w l.
Proof. reflexivity. Qed.

(** [execute] with any fuel that let the run end is [execute]. *)
Lemma execute_fuel_spec fuel (s0 : St) w :
  execute_fuel fuel s0 w =
  match entry_point (self w) with
  | None => (Raise (ValueError "Graph has no entry point"), w)
  | Some n =>
      match while_loop fuel (initial_locals s0 n) w with
      | (Ok r, w') => (Ok (current_state <$> r), w')
      | (Raise ex, w') => (Raise ex, w')
      end
  end.
Proof.
  unfold execute_fuel, bind at 1, gets; simpl.
  destruct (entry_point (self w)); [|reflexivity].
  unfold bind, initial_locals.
  destruct (while_loop _ _ _) as [[r|ex] w']; reflexivity.
Qed.

Lemma execute_unfold (s0 : St) w :
  execute s0 w = execute_fuel (S (length (nodes (self w)))) s0 w.
Proof. reflexivity. Qed.

Lemma execute_from_fuel fuel (s0 : St) w r w' :
  execute_fuel fuel s0 w = (r, w') -> r <> Ok None -> execute s0 w = (r, w').
Proof.
  rewrite execute_unfold, !execute_fuel_spec.
  destruct (entry_point (self w)) as [n|]; [|done].
  destruct (while_loop_total (S (length (nodes (self w)))) (initial_locals s0 n) w)
    as (r1 & cs & Hrun & Hr1 & _).
  { pose proof (remaining_initial w s0 n). lia. }
  destruct (while_loop fuel _ _) as [r2 w2] eqn:Hrun2.
  intros H Hr.
  assert (r2 <> Ok None).
  { destruct r2 as [[?|]|]; try done. injection H as <- _. done. }
  pose proof (while_loop_fuel_irrelevant _ _ _ _ _ _ _ _ Hrun Hr1 Hrun2 H0) as Heq.
  injection Heq as ? ?; subst r2 w2. rewrite Hrun. exact H.
Qed.

Lemma while_loop_step fuel l w l' w' :
  loop_body l w = (Ok (Continue l'), w') ->
  while_loop (S fuel) l w = while_loop fuel l' w'.
Proof. intros H. simpl. unfold bind. by rewrite H. Qed.

Lemma reaches_while w0 l0 w l :
  reaches w0 l0 w l ->
  forall fuel, exists k, while_loop (k + fuel) l0 w0 = while_loop fuel l w.
Proof.
  induction 1 as [|w l w' l' _ IH Hbody]; intros fuel.
  - by exists 0.
  - destruct (IH (S fuel)) as [k Hk]. exists (S k).
    rewrite <- (while_loop_step fuel l w l' w' Hbody), <- Hk.
    f_equal. lia.
Qed.

Lemma outgoing_two (g : Graph St) (a b : Edge St) (n : string) :
  edges g = [a; b] -> source a = n -> source b <> n -> outgoing g n = [a].
Proof.
  intros Hes Ha Hb. unfold outgoing. rewrite Hes. simpl.
  rewrite Ha, String.eqb_refl.
  by destruct (String.eqb_spec (source b) n).
Qed.

Lemma outgoing_two' (g : Graph St) (a b : Edge St) (n : string) :
  edges g = [a; b] -> source a <> n -> source b = n -> outgoing g n = [b].
Proof.
  intros Hes Ha Hb. unfold outgoing. rewrite Hes. simpl.
  rewrite Hb, String.eqb_refl.
  by destruct (String.eqb_spec (source a) n).
Qed.

(** [execute] always has an outcome, in the world it started in plus calls. *)
Lemma execute_from_fuel_total (s0 : St) w :
  exists r cs, execute s0 w = (r, logged w cs).
Proof.
  rewrite execute_unfold, execute_fuel_spec.
  destruct (entry_point (self w)) as [n|].
  - destruct (while_loop_total (S (length (nodes (self w)))) (initial_locals s0 n) w)
      as (r & cs & Hrun & _ & _).
    { pose proof (remaining_initial w s0 n). lia. }
    rewrite Hrun. destruct r; by eexists _, _.
  - exists (Raise (ValueError "Graph has no entry point")), [].
    by rewrite logged_nil.
Qed.

(** [Edge.should_follow] answers true exactly on the edges that qualify:
    a predicate that is there is applied to the state, and decides. *)
Lemma should_follow_pure_qualifies e (s : St) :
  should_follow_pure e s = true <-> qualifies e s.
Proof.
  unfold should_follow_pure, qualifies. destruct (condition e) as [c|].
  - split.
    + intros H. right. by exists c.
    + by intros [H|(c' & [= <-] & H)].
  - split; [by left|done].
Qed.

Lemma filter_not_qualifying (s : St) (es : list (Edge St)) :
  Forall (fun e => ~ qualifies e s) es ->
  List.filter (fun e => should_follow_pure e s) es = [].
Proof.
  induction 1 as [|e es He _ IH]; [done|]. simpl.
  destruct (should_follow_pure e s) eqn:Hq; [|done].
  by apply should_follow_pure_qualifies in Hq.
Qed.

(** The qualifying edges start with the first outgoing edge that qualifies:
    the edges before it, whose predicates fail, are passed over. *)
Lemma qualifying_first g n (s : St) skipped e rest :
  outgoing g n = skipped ++ e :: rest ->
  Forall (fun e' => ~ qualifies e' s) skipped ->
  qualifies e s ->
  qualifying g n s = e :: List.filter (fun e' => should_follow_pure e' s) rest.
Proof.
  intros Hout Hskip He. unfold qualifying.
  rewrite Hout, List.filter_app, (filter_not_qualifying s skipped Hskip).
  simpl. by rewrite (proj2 (should_follow_pure_qualifies e s) He).
Qed.

Lemma qualifying_none g n (s : St) :
  Forall (fun e => ~ qualifies e s) (outgoing g n) -> qualifying g n s = [].
Proof. apply filter_not_qualifying. Qed.

(** ** The claims about the engine *)



Lemma loop_body_continue_visits l w l' w' :
  loop_body l w = (Ok (Continue l'), w') ->
  (current_node l ∉ visited_nodes l)
  /\ is_Some (dict_get (current_node l) (nodes (self w)))
  /\ visited_nodes l' = {[ current_node l ]} ∪ visited_nodes l.
Proof.
  rewrite loop_body_spec.
  destruct (decide _) as [|Hnv]; [done|].
  destruct (dict_get _ _) as [node|] eqn:Hget; [|done].
  destruct (func node _) as [st|ex]; [|done].
  destruct (qualifying _ _ _) as [|e es]; [done|].
  intros [= <- _]. by repeat split.
Qed.

(** C9. [execute] terminates: the loop ends (by returning or raising) within
    one iteration more than the graph has nodes, any larger bound gives the
    same outcome, and at most as many node functions run as the graph has
    nodes. An iteration that does not end the run has run a registered node
    that was not yet visited and marked it visited, and an iteration that
    starts on a visited node raises. *)
Theorem execute_terminates (s0 : St) w :
  (exists r cs,
    execute s0 w = (r, logged w cs)
    /\ r <> Ok None
    /\ node_calls cs <= length (nodes (self w))
    /\ forall fuel, length (nodes (self w)) < fuel ->
                    execute_fuel fuel s0 w = (r, logged w cs))
  /\ (forall l w1 l' w2,
        loop_body l w1 = (Ok (Continue l'), w2) ->
        (current_node l ∉ visited_nodes l)
        /\ is_Some (dict_get (current_node l) (nodes (self w1)))
        /\ visited_nodes l' = {[ current_node l ]} ∪ visited_nodes l
        /\ remaining w2 l' < remaining w1 l)
  /\ (forall l w1,
        current_node l ∈ visited_nodes l ->
        loop_body l w1 = (Raise (cycle_error (current_node l)), w1)).
Proof.
  split; [|split].
  2:{ intros l w1 l' w2 Hbody.
      destruct (loop_body_continue_visits _ _ _ _ Hbody) as (H1 & H2 & H3).
      destruct (loop_body_continue _ _ _ _ Hbody) as (H4 & _). done. }
  2:{ intros l w1 Hin. rewrite loop_body_spec. by destruct (decide _). }
  assert (Hfuel : forall fuel, length (nodes (self w)) < fuel ->
    exists r cs, execute_fuel fuel s0 w = (r, logged w cs) /\ r <> Ok None /\
                 node_calls cs <= length (nodes (self w))).
  { intros fuel Hlt. rewrite execute_fuel_spec.
    destruct (entry_point (self w)) as [n|].
    - pose proof (remaining_initial w s0 n) as Hrem.
      destruct (while_loop_total fuel (initial_locals s0 n) w)
        as (r & cs & Hrun & Hr & Hn); [lia|].
      rewrite Hrun. destruct r as [[l'|]|ex]; [| done |].
      + exists (Ok (Some (current_state l'))), cs. repeat split; [done|lia].
      + exists (Raise ex), cs. repeat split; [done|lia].
    - exists (Raise (ValueError "Graph has no entry point")), [].
      rewrite logged_nil. repeat split; [done|unfold node_calls; simpl; lia]. }
  destruct (Hfuel (S (length (nodes (self w))))) as (r & cs & Hrun & Hr & Hn); [lia|].
  exists r, cs. rewrite execute_unfold. repeat split; try done.
  intros fuel Hlt.
  destruct (Hfuel fuel Hlt) as (r' & cs' & Hrun' & Hr' & _).
  pose proof (execute_from_fuel _ _ _ _ _ Hrun' Hr') as Heq.
  rewrite execute_unfold, Hrun in Heq. by rewrite Hrun', <- Heq.
Qed.

(** C10. [execute] and [validate] never write to the graph: whether the call
    returns or raises, the node mapping, the edge sequence and the entry
    point are afterwards what they were before. *)
Theorem execute_and_validate_leave_graph_unchanged (s0 : St) w :
  self (snd (execute s0 w)) = self w
  /\ nodes (self (snd (execute s0 w))) = nodes (self w)
  /\ edges (self (snd (execute s0 w))) = edges (self w)
  /\ entry_point (self (snd (execute s0 w))) = entry_point (self w)
  /\ snd (validate w) = w.
Proof.
  destruct (execute_from_fuel_total s0 w) as (r & cs & Hrun).
  rewrite Hrun; simpl. by repeat split.
Qed.

Lemma dict_set_fresh {V} (k : string) (v : V) (d : list (string * V)) :
  dict_mem k d = false -> dict_set k v d = d ++ [(k, v)].
Proof.
  unfold dict_mem. induction d as [|[k' v'] d IH]; simpl; [done|].
  destruct (String.eqb k' k); [done|]. intros H. by rewrite IH.
Qed.

(** C5. Structural errors are raised by the call that makes them, which
    leaves the graph as it was: [add_node] on a registered name, [add_edge]
    with an unregistered source or target, [set_entry_point] on an
    unregistered name, and [execute] with no entry point, before any node
    runs. A call that passes its check does its update; the first node added
    to a new graph becomes the entry point. *)
Theorem structural_errors_raised_at_call_site w :
  (forall name f,
      dict_mem name (nodes (self w)) = true ->
      add_node name f w =
        (Raise (ValueError ("Node '" +:+ name +:+ "' already exists")), w))
  /\ (forall name f,
      dict_mem name (nodes (self w)) = false ->
      exists w', add_node name f w = (Ok tt, w')
        /\ nodes (self w') = nodes (self w) ++ [(name, {| node_name := name; func := f |})]
        /\ edges (self w') = edges (self w)
        /\ entry_point (self w') =
             match entry_point (self w) with
             | None => Some name
             | Some first => Some first
             end)
  /\ (forall gname name f cs,
      exists w', add_node name f {| self := Graph_init gname; calls := cs |} = (Ok tt, w')
        /\ entry_point (self w') = Some name)
  /\ (forall src tgt cond,
      dict_mem src (nodes (self w)) = false ->
      add_edge src tgt cond w =
        (Raise (ValueError ("Source node '" +:+ src +:+ "' not found")), w))
  /\ (forall src tgt cond,
      dict_mem src (nodes (self w)) = true ->
      dict_mem tgt (nodes (self w)) = false ->
      add_edge src tgt cond w =
        (Raise (ValueError ("Target node '" +:+ tgt +:+ "' not found")), w))
  /\ (forall src tgt cond,
      dict_mem src (nodes (self w)) = true ->
      dict_mem tgt (nodes (self w)) = true ->
      exists w', add_edge src tgt cond w = (Ok tt, w')
        /\ edges (self w') =
             edges (self w) ++ [{| source := src; target := tgt; condition := cond |}]
        /\ nodes (self w') = nodes (self w)
        /\ entry_point (self w') = entry_point (self w))
  /\ (forall name,
      dict_mem name (nodes (self w)) = false ->
      set_entry_point name w =
        (Raise (ValueError ("Node '" +:+ name +:+ "' not found")), w))
  /\ (forall name,
      dict_mem name (nodes (self w)) = true ->
      exists w', set_entry_point name w = (Ok tt, w')
        /\ entry_point (self w') = Some name
        /\ nodes (self w') = nodes (self w) /\ edges (self w') = edges (self w))
  /\ (entry_point (self w) = None ->
      forall s0 : St,
        execute s0 w = (Raise (ValueError "Graph has no entry point"), w)).
Proof.
  repeat apply conj.
  - intros name f H. unfold add_node, bind, gets; simpl. by rewrite H.
  - intros name f H. unfold add_node, bind, gets; simpl. rewrite H.
    unfold set_nodes, modify; simpl. rewrite (dict_set_fresh _ _ _ H).
    destruct (entry_point (self w)); eexists; (split; [reflexivity|]); by simpl.
  - intros gname name f cs. eexists. split; reflexivity.
  - intros src tgt cond H. unfold add_edge, bind, gets; simpl. by rewrite H.
  - intros src tgt cond H1 H2. unfold add_edge, bind, gets; simpl. by rewrite H1, H2.
  - intros src tgt cond H1 H2. unfold add_edge, bind, gets; simpl. rewrite H1, H2.
    eexists; split; [reflexivity|]. by simpl.
  - intros name H. unfold set_entry_point, bind, gets; simpl. by rewrite H.
  - intros name H. unfold set_entry_point, bind, gets; simpl. rewrite H.
    eexists; split; [reflexivity|]. by simpl.
  - intros H s0. rewrite execute_unfold, execute_fuel_spec. by rewrite H.
Qed.

(** C2, amended. A run that comes back to a node it has visited raises the
    cycle error at that moment, with no further call and no state returned.
    On the graph with edges [A -> B] and [B -> A] and entry point [A], whose
    two node functions return: [execute] raises the cycle error after running
    [A] then [B] when the two edges qualify on the states the nodes returned;
    when [A -> B] does not qualify, [execute] returns the output of [A]. *)
Theorem revisit_raises_cycle_error w (s0 : St) :
  (forall n w' l',
      entry_point (self w) = Some n ->
      reaches w (initial_locals s0 n) w' l' ->
      current_node l' ∈ visited_nodes l' ->
      execute s0 w = (Raise (cycle_error (current_node l')), w'))
  /\ (forall A B (nA nB : Node St) (eAB eBA : Edge St) (s1 s2 : St),
      A <> B ->
      entry_point (self w) = Some A ->
      dict_get A (nodes (self w)) = Some nA ->
      dict_get B (nodes (self w)) = Some nB ->
      edges (self w) = [eAB; eBA] ->
      source eAB = A -> target eAB = B -> source eBA = B -> target eBA = A ->
      func nA s0 = Ok s1 ->
      func nB s1 = Ok s2 ->
      (should_follow_pure eAB s1 = true ->
       should_follow_pure eBA s2 = true ->
       execute s0 w =
         (Raise (cycle_error A),
          logged w [CallNode (node_name nA) s0; CallShouldFollow eAB s1;
                    CallNode (node_name nB) s1; CallShouldFollow eBA s2]))
      /\ (should_follow_pure eAB s1 = false ->
          execute s0 w =
            (Ok (Some s1),
             logged w [CallNode (node_name nA) s0; CallShouldFollow eAB s1]))).
Proof.
  split.
  - intros n w' l' Hep Hreach Hin.
    destruct (reaches_while _ _ _ _ Hreach 1) as [k Hk].
    apply (execute_from_fuel (k + 1)); [|done].
    rewrite execute_fuel_spec, Hep, Hk. simpl. unfold bind.
    rewrite loop_body_spec. by destruct (decide _).
  - intros A B nA nB eAB eBA s1 s2 Hne Hep HA HB Hes HsA HtA HsB HtB HfA HfB.
    assert (HoutA : outgoing (self w) A = [eAB]).
    { apply (outgoing_two _ _ eBA); congruence. }
    assert (HoutB : outgoing (self w) B = [eBA]).
    { apply (outgoing_two' _ eAB); congruence. }
    split.
    + intros HqA HqB. apply (execute_from_fuel 3); [|done].
      rewrite execute_fuel_spec, Hep.
      rewrite (while_loop_step 2 _ _ (moved (initial_locals s0 A) s1 B)
                 (logged w (step_calls w (initial_locals s0 A) nA s1))).
      2:{ rewrite loop_body_spec. simpl.
          destruct (decide _) as [Hin|_]; [set_solver|].
          rewrite HA, HfA. unfold qualifying. rewrite HoutA. simpl.
          by rewrite HqA, HtA. }
      rewrite (while_loop_step 1 _ _
                 (moved (moved (initial_locals s0 A) s1 B) s2 A)
                 (logged (logged w (step_calls w (initial_locals s0 A) nA s1))
                    (step_calls w (moved (initial_locals s0 A) s1 B) nB s2))).
      2:{ rewrite loop_body_spec. simpl.
          destruct (decide _) as [Hin|_]; [set_solver|].
          rewrite HB, HfB. unfold qualifying. rewrite HoutB. simpl.
          by rewrite HqB, HtB. }
      simpl. unfold bind. rewrite loop_body_spec. simpl.
      destruct (decide _) as [_|Hnin]; [|set_solver].
      rewrite logged_logged. unfold step_calls. simpl.
      by rewrite HoutA, HoutB.
    + intros HqA. apply (execute_from_fuel 1); [|done].
      rewrite execute_fuel_spec, Hep. simpl. unfold bind.
      rewrite loop_body_spec. simpl.
      destruct (decide _) as [Hin|_]; [set_solver|].
      rewrite HA, HfA. unfold qualifying. rewrite HoutA. simpl.
      rewrite HqA. simpl. unfold ret, step_calls. simpl. by rewrite HoutA.
Qed.

End GraphFacts.

(** ** The engine on concrete graphs *)

Section GraphExamples.
Import GraphPy Examples.



Lemma structural_errors_raised_at_call_site_witness :
  add_node "A" incr w_cycle =
    (Raise (ValueError "Node 'A' already exists"), w_cycle)
  /\ add_edge "A" "C" None w_cycle =
       (Raise (ValueError "Target node 'C' not found"), w_cycle)
  /\ set_entry_point "C" w_cycle =
       (Raise (ValueError "Node 'C' not found"), w_cycle)
  /\ execute 0 {| self := Graph_init "empty"; calls := [] |} =
       (Raise (ValueError "Graph has no entry point"),
        {| self := Graph_init "empty"; calls := [] |}).
Proof.
  pose proof (structural_errors_raised_at_call_site w_cycle)
    as (Hdup & _ & _ & _ & Htgt & _ & Hentry & _ & _).
  pose proof (structural_errors_raised_at_call_site
                {| self := Graph_init (St:=nat) "empty"; calls := [] |})
    as (_ & _ & _ & _ & _ & _ & _ & _ & Hexec).
  split; [apply (Hdup "A" incr); reflexivity|].
  split; [apply (Htgt "A" "C" None); reflexivity|].
  split; [apply (Hentry "C"); reflexivity|].
  apply Hexec; reflexivity.
Defined.

Lemma revisit_raises_cycle_error_witness :
  execute 0 w_cycle =
    (Raise (cycle_error "A"),
     logged w_cycle
       [CallNode "A" 0; CallShouldFollow (edge "A" "B" None) 1;
        CallNode "B" 1; CallShouldFollow (edge "B" "A" None) 10]).
Proof.
  refine (proj1 (proj2 (revisit_raises_cycle_error w_cycle 0)
            "A" "B" node_A node_B (edge "A" "B" None) (edge "B" "A" None) 1 10
            _ _ _ _ _ _ _ _ _ _ _) _ _); try reflexivity.
  intros H; discriminate H.
Defined.

(** C2 as stated fails: with [A -> B], [B -> A] and entry point [A], a
    predicate on [A -> B] that does not hold lets [execute] return the output
    of [A]; nothing is raised. *)
Lemma cycle_regardless_of_predicates_counterexample :
  map (fun e => (source e, target e)) (edges (self w_guarded))
    = [("A", "B"); ("B", "A")]
  /\ entry_point (self w_guarded) = Some "A"
  /\ execute 0 w_guarded =
       (Ok (Some 1),
        logged w_guarded
          [CallNode "A" 0; CallShouldFollow (edge "A" "B" (Some never)) 1])
  /\ ~ raises (fst (execute 0 w_guarded)).
Proof.
  split; [reflexivity|]. split; [reflexivity|].
  assert (H : execute 0 w_guarded =
       (Ok (Some 1),
        logged w_guarded
          [CallNode "A" 0; CallShouldFollow (edge "A" "B" (Some never)) 1])).
  { vm_compute. reflexivity. }
  split; [exact H|]. rewrite H. simpl. tauto.
Qed.

End GraphExamples.

(** * Facts about the state container *)

Section ValueFacts.
Import StatePy.

Lemma deepcopy_id v : deepcopy v = v.
Proof.
  induction v as [| | | |l IH|d IH] using pyval_induction; simpl; try done.
  - f_equal. induction IH as [|x l Hx _ IHl]; simpl; [done|]. by rewrite Hx, IHl.
  - f_equal. induction IH as [|[k x] d Hx _ IHd]; simpl; [done|].
    simpl in Hx. by rewrite Hx, IHd.
Qed.

Lemma deepcopy_dict_id (d : dict) : deepcopy_dict d = d.
Proof.
  unfold deepcopy_dict. induction d as [|[k x] d IH]; simpl; [done|].
  by rewrite deepcopy_id, IH.
Qed.

(** Lookup in a dict against membership in its list of items. *)
Lemma dict_get_elem_of {V} (k : string) (v : V) (d : list (string * V)) :
  dict_get k d = Some v -> (k, v) ∈ d.
Proof.
  induction d as [|[k' v'] d IH]; simpl; [done|].
  destruct (String.eqb_spec k' k) as [->|Hne].
  - intros [= ->]. apply list_elem_of_here.
  - intros H. apply list_elem_of_further, IH, H.
Qed.

Lemma dict_get_NoDup {V} (k : string) (v : V) (d : list (string * V)) :
  NoDup d.*1 -> (k, v) ∈ d -> dict_get k d = Some v.
Proof.
  induction d as [|[k' v'] d IH]; simpl; intros Hnd Hin.
  - by apply elem_of_nil in Hin.
  - apply NoDup_cons in Hnd as [Hk' Hnd].
    apply elem_of_cons in Hin as [[= -> ->]|Hin].
    + by rewrite String.eqb_refl.
    + destruct (String.eqb_spec k' k) as [->|Hne]; [|by apply IH].
      exfalso. apply Hk'. apply list_elem_of_fmap. by exists (k, v).
Qed.

Lemma dict_get_set {V} (k k' : string) (v : V) (d : list (string * V)) :
  dict_get k' (dict_set k v d) = if String.eqb k k' then Some v else dict_get k' d.
Proof.
  induction d as [|[k0 v0] d IH]; simpl.
  - done.
  - destruct (String.eqb_spec k0 k) as [->|Hne]; simpl.
    + by destruct (String.eqb k k').
    + rewrite IH. destruct (String.eqb_spec k0 k') as [->|Hne'].
      * by destruct (String.eqb_spec k k'); [congruence|].
      * done.
Qed.

Lemma dict_set_keys_present {V} (k : string) (v w : V) (d : list (string * V)) :
  dict_get k d = Some w -> (dict_set k v d).*1 = d.*1.
Proof.
  induction d as [|[k0 v0] d IH]; simpl; [done|].
  destruct (String.eqb_spec k0 k) as [->|Hne]; simpl; [done|].
  intros H. csimpl. f_equal. by apply IH.
Qed.

Lemma dict_set_absent {V} (k : string) (v : V) (d : list (string * V)) :
  dict_get k d = None -> dict_set k v d = d ++ [(k, v)].
Proof.
  induction d as [|[k0 v0] d IH]; simpl; [done|].
  destruct (String.eqb k0 k); [done|]. intros H. by rewrite IH.
Qed.

Lemma dict_set_NoDup {V} (k : string) (v : V) (d : list (string * V)) :
  NoDup d.*1 -> NoDup (dict_set k v d).*1.
Proof.
  intros Hnd. destruct (dict_get k d) as [w|] eqn:Hget.
  - by rewrite (dict_set_keys_present k v w d Hget).
  - rewrite (dict_set_absent k v d Hget), fmap_app; simpl.
    apply NoDup_app. split; [done|]. split; [|apply NoDup_singleton].
    intros x Hx Hx'. apply list_elem_of_singleton in Hx'. subst x.
    by apply dict_get_None_keys in Hget.
Qed.

(** *** Equality of values *)

Lemma py_eq_dict d1 d2 :
  py_eq (VDict d1) (VDict d2) = Nat.eqb (length d1) (length d2) && dict_le d1 d2.
Proof. reflexivity. Qed.

Lemma dict_le_spec d1 d2 :
  dict_le d1 d2 = true <->
  forall k v, (k, v) ∈ d1 -> exists v', dict_get k d2 = Some v' /\ py_eq v v' = true.
Proof.
  unfold dict_le. rewrite forallb_forall. split.
  - intros H k v Hin. apply list_elem_of_In in Hin. specialize (H _ Hin). simpl in H.
    destruct (dict_get k d2) as [v'|]; [|done]. by exists v'.
  - intros H [k v] Hin. apply list_elem_of_In in Hin. simpl.
    destruct (H k v Hin) as (v' & -> & Hv). exact Hv.
Qed.

Lemma wf_dict_spec d :
  wf_val (VDict d) = true <-> NoDup d.*1 /\ forall k v, (k, v) ∈ d -> wf_val v = true.
Proof.
  simpl. rewrite andb_true_iff, bool_decide_eq_true, forallb_forall.
  split; intros [Hnd H]; (split; [done|]).
  - intros k v Hin. apply list_elem_of_In in Hin. exact (H _ Hin).
  - intros [k v] Hin. apply list_elem_of_In in Hin. exact (H k v Hin).
Qed.

Lemma py_eq_refl v : wf_val v = true -> py_eq v v = true.
Proof.
  induction v as [|b|z|s|l IH|d IH] using pyval_induction; intros Hwf; simpl.
  - done.
  - by destruct b.
  - apply Z.eqb_refl.
  - apply String.eqb_refl.
  - simpl in Hwf. induction IH as [|x l Hx _ IHl]; simpl; [done|].
    simpl in Hwf. apply andb_true_iff in Hwf as [Hwx Hwl].
    by rewrite Hx, IHl.
  - apply wf_dict_spec in Hwf as [Hnd Hwf].
    rewrite Nat.eqb_refl. simpl. apply dict_le_spec.
    intros k v Hin. exists v. split; [by apply dict_get_NoDup|].
    rewrite Forall_forall in IH. apply (IH (k, v)); [done|]. by apply (Hwf k).
Qed.

(** The keys of two dicts of the same size, one included in the other. *)
Lemma same_keys (ks1 ks2 : list string) :
  NoDup ks1 -> length ks1 = length ks2 ->
  (forall k, k ∈ ks1 -> k ∈ ks2) -> forall k, k ∈ ks2 -> k ∈ ks1.
Proof.
  intros Hnd Hlen Hsub k Hk.
  assert (Hperm : ks1 ≡ₚ ks2).
  { apply submseteq_length_Permutation; [by apply NoDup_submseteq|lia]. }
  by rewrite Hperm.
Qed.

Lemma dict_le_flip d1 d2 :
  NoDup d1.*1 -> NoDup d2.*1 -> length d1 = length d2 ->
  (forall k v1 v2, (k, v1) ∈ d1 -> (k, v2) ∈ d2 ->
                   py_eq v1 v2 = true -> py_eq v2 v1 = true) ->
  dict_le d1 d2 = true -> dict_le d2 d1 = true.
Proof.
  intros Hnd1 Hnd2 Hlen Hsym Hle.
  rewrite dict_le_spec in Hle. apply dict_le_spec.
  intros k v2 Hin2.
  assert (Hk : k ∈ d1.*1).
  { apply (same_keys d1.*1 d2.*1); [done|by rewrite !length_fmap| |].
    - intros k' Hk'. apply list_elem_of_fmap in Hk' as ([k0 v0] & -> & Hin).
      destruct (Hle _ _ Hin) as (v' & Hget & _). simpl.
      by apply dict_get_Some_keys in Hget.
    - apply list_elem_of_fmap. by exists (k, v2). }
  apply list_elem_of_fmap in Hk as ([k0 v1] & -> & Hin1). simpl in *.
  exists v1. split; [by apply dict_get_NoDup|].
  destruct (Hle _ _ Hin1) as (v' & Hget & Heq).
  rewrite (dict_get_NoDup _ _ _ Hnd2 Hin2) in Hget. injection Hget as <-.
  by apply (Hsym k0).
Qed.

Lemma py_eq_sym a : forall b,
  wf_val a = true -> wf_val b = true -> py_eq a b = py_eq b a.
Proof.
  induction a as [|x|x|x|l1 IH|d1 IH] using pyval_induction;
    intros b Hwa Hwb; destruct b as [|y|y|y|l2|d2]; simpl; try done.
  - by destruct x, y.
  - apply Z.eqb_sym.
  - apply Z.eqb_sym.
  - apply Z.eqb_sym.
  - apply String.eqb_sym.
  - simpl in Hwa, Hwb. revert l2 Hwb.
    induction IH as [|x l1 Hx _ IHl]; intros [|y l2] Hwb; simpl; try done.
    simpl in Hwa, Hwb.
    apply andb_true_iff in Hwa as [Hwx Hwl], Hwb as [Hwy Hwl2].
    by rewrite (Hx y Hwx Hwy), (IHl Hwl l2 Hwl2).
  - change (py_eq (VDict d1) (VDict d2) = py_eq (VDict d2) (VDict d1)).
    rewrite !py_eq_dict.
    apply wf_dict_spec in Hwa as [Hnd1 Hw1], Hwb as [Hnd2 Hw2].
    rewrite (Nat.eqb_sym (length d2)).
    destruct (Nat.eqb_spec (length d1) (length d2)) as [Hlen|]; [simpl|done].
    rewrite Forall_forall in IH.
    apply eq_true_iff_eq. split; intros Hle.
    + apply (dict_le_flip d1 d2); try done.
      intros k v1 v2 Hin1 Hin2 Heq.
      pose proof (IH (k, v1) Hin1 v2 (Hw1 k v1 Hin1) (Hw2 k v2 Hin2)) as E.
      simpl in E. congruence.
    + apply (dict_le_flip d2 d1); try done.
      intros k v2 v1 Hin2 Hin1 Heq.
      pose proof (IH (k, v1) Hin1 v2 (Hw1 k v1 Hin1) (Hw2 k v2 Hin2)) as E.
      simpl in E. congruence.
Qed.

End ValueFacts.

Section ObjectFacts.
Import StatePy.
Implicit Types (st : store) (o : obj) (c : pyclass) (d kwargs : dict).

(** *** Validation *)

Lemma validate_fields_cases hints d :
  validate_fields hints d = Ok tt \/
  exists f t g, validate_fields hints d = Raise (StateValidationError f t g).
Proof.
  induction hints as [|[f t] hints IH]; simpl; [by left|].
  destruct (dict_get f d) as [val|]; [|exact IH].
  destruct (_is_valid_type val t); simpl; [exact IH|].
  right. by eexists _, _, _.
Qed.

Lemma validate_fields_raise hints d f t g :
  validate_fields hints d = Raise (StateValidationError f t g) ->
  exists val, (f, t) ∈ hints /\ dict_get f d = Some val
              /\ _is_valid_type val t = false /\ g = type_of val.
Proof.
  induction hints as [|[f0 t0] hints IH]; simpl; [done|].
  destruct (dict_get f0 d) as [val|] eqn:Hd.
  - destruct (_is_valid_type val t0) eqn:Hv; simpl.
    + intros H. destruct (IH H) as (val' & Hin & Hrest).
      exists val'. split; [by apply list_elem_of_further|done].
    + intros [= <- <- <-]. exists val. split; [apply list_elem_of_here|done].
  - intros H. destruct (IH H) as (val' & Hin & Hrest).
    exists val'. split; [by apply list_elem_of_further|done].
Qed.

Lemma validate_fields_ok hints d :
  NoDup hints.*1 ->
  validate_fields hints d = Ok tt <->
  forall f t val, dict_get f hints = Some t -> dict_get f d = Some val ->
                  _is_valid_type val t = true.
Proof.
  induction hints as [|[f0 t0] hints IH]; simpl; intros Hnd.
  - split; [intros _ f t val H; done | done].
  - apply NoDup_cons in Hnd as [Hf0 Hnd]. specialize (IH Hnd).
    split.
    + intros Hok f t val Hh Hd.
      destruct (String.eqb_spec f0 f) as [->|Hne].
      * injection Hh as <-. rewrite Hd in Hok.
        by destruct (_is_valid_type val t0).
      * apply (proj1 IH) with f; [|done|done].
        destruct (dict_get f0 d) as [val0|]; [|done].
        by destruct (_is_valid_type val0 t0).
    + intros Hall.
      assert (Hrest : validate_fields hints d = Ok tt).
      { apply IH. intros f t val Hh Hd. apply (Hall f t val); [|done].
        destruct (String.eqb_spec f0 f) as [->|Hne]; [|done].
        exfalso. apply Hf0. by apply dict_get_Some_keys in Hh. }
      destruct (dict_get f0 d) as [val0|] eqn:Hd0; [|done].
      rewrite (Hall f0 t0 val0); [done| |done].
      by rewrite String.eqb_refl.
Qed.

Lemma dict_update_NoDup {V} (d kw : list (string * V)) :
  NoDup d.*1 -> NoDup (dict_update d kw).*1.
Proof.
  unfold dict_update. revert d.
  induction kw as [|[k v] kw IH]; intros d Hnd; simpl; [done|].
  by apply IH, dict_set_NoDup.
Qed.

Lemma get_type_hints_NoDup c : NoDup (get_type_hints c).*1.
Proof.
  destruct c; simpl.
  - constructor.
  - apply (bool_decide_unpack _). by vm_compute.
  - apply (bool_decide_unpack _). by vm_compute.
  - apply dict_update_NoDup. constructor.
Qed.

Lemma _validate_types_ok c d :
  _validate_types c d = Ok tt <->
  forall f t val, dict_get f (get_type_hints c) = Some t -> dict_get f d = Some val ->
                  _is_valid_type val t = true.
Proof. apply validate_fields_ok, get_type_hints_NoDup. Qed.

Lemma _validate_types_raises c d :
  _validate_types c d <> Ok tt <-> some_field_invalid c d.
Proof.
  unfold some_field_invalid. split.
  - intros Hnot.
    destruct (validate_fields_cases (get_type_hints c) d) as [Hok|(f & t & g & Hr)];
      [done|].
    destruct (validate_fields_raise _ _ _ _ _ Hr) as (val & Hin & Hd & Hv & _).
    exists f, t, val. split; [|done].
    apply dict_get_NoDup; [apply get_type_hints_NoDup|done].
  - rewrite _validate_types_ok.
    intros (f & t & val & Hh & Hd & Hv) Hall.
    rewrite (Hall f t val Hh Hd) in Hv. done.
Qed.

Lemma _validate_types_cases c d :
  _validate_types c d = Ok tt \/
  exists f t g, _validate_types c d = Raise (StateValidationError f t g).
Proof. apply validate_fields_cases. Qed.

(** *** Keyword binding *)

Lemma bind_keywords_spec params kwargs :
  (bind_keywords params kwargs = Ok tt /\ forall k, k ∈ kwargs.*1 -> k ∈ params)
  \/ (exists msg, bind_keywords params kwargs = Raise (TypeError msg))
     /\ exists k, k ∈ kwargs.*1 /\ k ∉ params.
Proof.
  unfold bind_keywords.
  induction kwargs as [|[k v] kw IH]; simpl.
  - left. split; [done|]. intros k Hk. by apply elem_of_nil in Hk.
  - destruct (decide (k ∈ params)) as [Hin|Hnin].
    + rewrite (bool_decide_eq_true_2 _ Hin). simpl.
      destruct IH as [[Hok Hall]|[Hex Hbad]].
      * left. split; [done|]. intros k' Hk'. csimpl in Hk'.
        apply elem_of_cons in Hk' as [->|Hk']; [done|by apply Hall].
      * right. split; [done|]. destruct Hbad as (k' & Hk' & Hn).
        exists k'. split; [|done]. csimpl. by apply list_elem_of_further.
    + rewrite (bool_decide_eq_false_2 _ Hnin). simpl.
      right. split; [by eexists|]. exists k. split; [|done].
      csimpl. apply list_elem_of_here.
Qed.

Lemma bind_self_spec kwargs :
  (bind_self kwargs = Ok tt /\ dict_get "self" kwargs = None)
  \/ (exists msg, bind_self kwargs = Raise (TypeError msg))
      /\ exists v, dict_get "self" kwargs = Some v.
Proof.
  unfold bind_self, dict_mem. destruct (dict_get "self" kwargs) as [v|].
  - right. split; by eexists.
  - by left.
Qed.

(** *** The constructor *)

Lemma new_spec c kwargs st :
  new c kwargs st =
  match init_data c kwargs with
  | Ok d => (Ok (length st), st ++ [{| cls := c; _data := d |}])
  | Raise e => (Raise e, st)
  end.
Proof.
  unfold init_data, init_args, class_args, new, bind at 1, lift at 1.
  destruct (bind_self kwargs) as [[]|]; [|done].
  destruct c;
    unfold AgentState_init, GraphState_init, StateSchema_init, bind, lift, alloc;
    fold agent_params graph_params.
  - by destruct (_validate_types StateSchema kwargs) as [[]|].
  - destruct (bind_keywords agent_params kwargs) as [[]|]; [|done].
    by destruct (_validate_types AgentState _) as [[]|].
  - destruct (bind_keywords graph_params kwargs) as [[]|]; [|done].
    by destruct (_validate_types GraphState _) as [[]|].
  - by destruct (_validate_types (UserSchema name annotations) kwargs) as [[]|].
Qed.

Lemma init_data_cases c kwargs :
  (exists d, init_data c kwargs = Ok d)
  \/ is_validation_error (init_data c kwargs) = true
  \/ is_type_error (init_data c kwargs) = true.
Proof.
  unfold init_data.
  assert (Hargs : (exists a, init_args c kwargs = Ok a)
                  \/ exists msg, init_args c kwargs = Raise (TypeError msg)).
  { unfold init_args.
    destruct (bind_self_spec kwargs) as [[-> _]|[[msg ->] _]]; [|right; by eexists].
    destruct c; simpl; try (left; by eexists).
    - destruct (bind_keywords_spec agent_params kwargs) as [[-> _]|[[msg ->] _]];
        [left|right]; by eexists.
    - destruct (bind_keywords_spec graph_params kwargs) as [[-> _]|[[msg ->] _]];
        [left|right]; by eexists. }
  destruct Hargs as [[a ->]|[msg ->]]; [|by right; right].
  destruct (_validate_types_cases c a) as [->|(f & t & g & ->)].
  - left. by eexists.
  - right; by left.
Qed.

(** The constructor raises [StateValidationError] exactly when one of the
    arguments that reach [StateSchema.__init__] is of the wrong kind. *)
Lemma init_data_validation_error c kwargs args :
  init_args c kwargs = Ok args ->
  is_validation_error (init_data c kwargs) = true <-> some_field_invalid c args.
Proof.
  intros Hargs. unfold init_data. rewrite Hargs.
  rewrite <- _validate_types_raises.
  destruct (_validate_types_cases c args) as [->|(f & t & g & ->)]; simpl.
  - split; [done|]. intros H. by destruct H.
  - split; [done|]. intros _. done.
Qed.

(** *** What a constructed object holds *)

Lemma py_or_list v : isinstance v Clist = true -> py_or v (VList []) = v.
Proof. destruct v as [| | | |[|x l]|]; try done. Qed.

Lemma py_or_dict v : isinstance v Cdict = true -> py_or v (VDict []) = v.
Proof. destruct v as [| | | | |[|x l]]; try done. Qed.

Lemma wf_arg name default kwargs :
  wf_dict kwargs = true -> wf_val default = true ->
  wf_val (arg name default kwargs) = true.
Proof.
  intros Hwf Hd. unfold arg. destruct (dict_get name kwargs) as [v|] eqn:Hget; [|done].
  apply wf_dict_spec in Hwf as [_ Hwf]. apply (Hwf name), dict_get_elem_of, Hget.
Qed.

Lemma wf_py_or a b : wf_val a = true -> wf_val b = true -> wf_val (py_or a b) = true.
Proof. unfold py_or. by destruct (truthy a). Qed.

Lemma agent_validate m t i b :
  _validate_types AgentState (agent_data m t i b) = Ok tt <->
  isinstance m Clist = true /\ isinstance t Clist = true
  /\ isinstance i Clist = true /\ isinstance b Cbool = true.
Proof.
  rewrite _validate_types_ok. split.
  - intros H. repeat split.
    + by apply (H "messages" (Tclass Clist)).
    + by apply (H "tool_calls" (Tclass Clist)).
    + by apply (H "intermediate_steps" (Tclass Clist)).
    + by apply (H "is_complete" (Tclass Cbool)).
  - intros (Hm & Ht & Hi & Hb) f ty val Hh Hd.
    apply dict_get_elem_of in Hh. simpl in Hh.
    repeat (apply elem_of_cons in Hh as [[= -> ->]|Hh]);
      [..|by apply elem_of_nil in Hh]; injection Hd as <-; done.
Qed.

Lemma graph_validate cn nn cx rs :
  _validate_types GraphState (graph_data cn nn cx rs) = Ok tt <->
  isinstance cn Cstr = true /\ isinstance nn Cstr = true
  /\ isinstance cx Cdict = true /\ isinstance rs Cdict = true.
Proof.
  rewrite _validate_types_ok. split.
  - intros H. repeat split.
    + by apply (H "current_node" (Tclass Cstr)).
    + by apply (H "next_node" (Tclass Cstr)).
    + by apply (H "context" Talias_dict).
    + by apply (H "results" Talias_dict).
  - intros (Hm & Ht & Hi & Hb) f ty val Hh Hd.
    apply dict_get_elem_of in Hh. simpl in Hh.
    repeat (apply elem_of_cons in Hh as [[= -> ->]|Hh]);
      [..|by apply elem_of_nil in Hh]; injection Hd as <-; done.
Qed.

Lemma agent_shape o :
  constructed o -> cls o = AgentState ->
  exists m t i b, _data o = agent_data m t i b
    /\ _validate_types AgentState (agent_data m t i b) = Ok tt
    /\ wf_dict (agent_data m t i b) = true.
Proof.
  intros (kw & Hwf & Hinit) Hc. rewrite Hc in Hinit.
  unfold init_data, init_args, class_args in Hinit.
  destruct (bind_self kw) as [[]|]; [|done].
  destruct (bind_keywords agent_params kw) as [[]|]; [|done].
  destruct (_validate_types AgentState _) as [[]|] eqn:Hv; [|done].
  rewrite deepcopy_dict_id in Hinit. injection Hinit as <-.
  eexists _, _, _, _. split; [reflexivity|]. split; [exact Hv|].
  apply wf_dict_spec. split; [apply (bool_decide_unpack _); by vm_compute|].
  intros k v Hin. simpl in Hin.
  repeat (apply elem_of_cons in Hin as [[= -> ->]|Hin]);
    [..|by apply elem_of_nil in Hin];
    first [by apply wf_py_or; [apply wf_arg|] | by apply wf_arg].
Qed.

Lemma graph_shape o :
  constructed o -> cls o = GraphState ->
  exists cn nn cx rs, _data o = graph_data cn nn cx rs
    /\ _validate_types GraphState (graph_data cn nn cx rs) = Ok tt
    /\ wf_dict (graph_data cn nn cx rs) = true.
Proof.
  intros (kw & Hwf & Hinit) Hc. rewrite Hc in Hinit.
  unfold init_data, init_args, class_args in Hinit.
  destruct (bind_self kw) as [[]|]; [|done].
  destruct (bind_keywords graph_params kw) as [[]|]; [|done].
  destruct (_validate_types GraphState _) as [[]|] eqn:Hv; [|done].
  rewrite deepcopy_dict_id in Hinit. injection Hinit as <-.
  eexists _, _, _, _. split; [reflexivity|]. split; [exact Hv|].
  apply wf_dict_spec. split; [apply (bool_decide_unpack _); by vm_compute|].
  intros k v Hin. simpl in Hin.
  repeat (apply elem_of_cons in Hin as [[= -> ->]|Hin]);
    [..|by apply elem_of_nil in Hin];
    first [by apply wf_py_or; [apply wf_arg|] | by apply wf_arg].
Qed.

(** Calling the constructor on validated bindings of the right shape gives
    back those bindings. *)
Lemma agent_init_data m t i b :
  _validate_types AgentState (agent_data m t i b) = Ok tt ->
  init_data AgentState (agent_data m t i b) = Ok (agent_data m t i b).
Proof.
  intros Hv. pose proof (proj1 (agent_validate m t i b) Hv) as (Hm & Ht & Hi & Hb).
  unfold init_data, init_args, class_args.
  assert (bind_self (agent_data m t i b) = Ok tt) as -> by (by vm_compute).
  assert (bind_keywords agent_params (agent_data m t i b) = Ok tt) as ->
    by (by vm_compute).
  change (arg "messages" VNone (agent_data m t i b)) with m.
  change (arg "tool_calls" VNone (agent_data m t i b)) with t.
  change (arg "intermediate_steps" VNone (agent_data m t i b)) with i.
  change (arg "is_complete" (VBool false) (agent_data m t i b)) with b.
  rewrite !py_or_list by done. fold (agent_data m t i b).
  by rewrite Hv, deepcopy_dict_id.
Qed.

Lemma graph_init_data cn nn cx rs :
  _validate_types GraphState (graph_data cn nn cx rs) = Ok tt ->
  init_data GraphState (graph_data cn nn cx rs) = Ok (graph_data cn nn cx rs).
Proof.
  intros Hv. pose proof (proj1 (graph_validate cn nn cx rs) Hv) as (Hm & Ht & Hi & Hb).
  unfold init_data, init_args, class_args.
  assert (bind_self (graph_data cn nn cx rs) = Ok tt) as -> by (by vm_compute).
  assert (bind_keywords graph_params (graph_data cn nn cx rs) = Ok tt) as ->
    by (by vm_compute).
  change (arg "current_node" (VStr "") (graph_data cn nn cx rs)) with cn.
  change (arg "next_node" (VStr "") (graph_data cn nn cx rs)) with nn.
  change (arg "context" VNone (graph_data cn nn cx rs)) with cx.
  change (arg "results" VNone (graph_data cn nn cx rs)) with rs.
  rewrite !py_or_dict by done. fold (graph_data cn nn cx rs).
  by rewrite Hv, deepcopy_dict_id.
Qed.

Lemma constructed_kwargs_class o :
  constructed o -> cls o <> AgentState -> cls o <> GraphState ->
  _validate_types (cls o) (_data o) = Ok tt /\ wf_dict (_data o) = true
  /\ dict_get "self" (_data o) = None
  /\ forall d, dict_get "self" d = None ->
       init_data (cls o) d =
       match _validate_types (cls o) d with Ok _ => Ok d | Raise e => Raise e end.
Proof.
  intros (kw & Hwf & Hinit) Ha Hg.
  assert (Hargs : forall d, class_args (cls o) d = Ok d) by (by destruct (cls o)).
  unfold init_data, init_args in *. rewrite Hargs in Hinit.
  destruct (bind_self_spec kw) as [[Hself Hnone]|[[msg Hself] _]];
    rewrite Hself in Hinit; [|done].
  destruct (_validate_types (cls o) kw) as [[]|] eqn:Hv; [|done].
  rewrite deepcopy_dict_id in Hinit. injection Hinit as <-.
  split; [done|]. split; [done|]. split; [done|].
  intros d Hd. unfold bind_self, dict_mem. rewrite Hd, Hargs, deepcopy_dict_id.
  by destruct (_validate_types _ _) as [[]|].
Qed.

(** The bindings of a constructed object are well formed and pass the
    constructor again unchanged. *)
Lemma constructed_wf o : constructed o -> wf_dict (_data o) = true.
Proof.
  intros Hc. destruct (cls o) eqn:Hcls.
  - apply (constructed_kwargs_class o); [done|congruence|congruence].
  - destruct (agent_shape o Hc Hcls) as (m & t & i & b & -> & _ & Hwf). exact Hwf.
  - destruct (graph_shape o Hc Hcls) as (m & t & i & b & -> & _ & Hwf). exact Hwf.
  - apply (constructed_kwargs_class o); [done|congruence|congruence].
Qed.

Lemma init_data_idempotent o :
  constructed o -> init_data (cls o) (_data o) = Ok (_data o).
Proof.
  intros Hc. destruct (cls o) eqn:Hcls.
  - destruct (constructed_kwargs_class o Hc) as (Hv & _ & Hself & Hinit);
      [congruence|congruence|]. rewrite Hcls in *. by rewrite Hinit, Hv.
  - destruct (agent_shape o Hc Hcls) as (m & t & i & b & -> & Hv & _).
    by apply agent_init_data.
  - destruct (graph_shape o Hc Hcls) as (m & t & i & b & -> & Hv & _).
    by apply graph_init_data.
  - destruct (constructed_kwargs_class o Hc) as (Hv & _ & Hself & Hinit);
      [congruence|congruence|]. rewrite Hcls in *. by rewrite Hinit, Hv.
Qed.

(** Rebinding one key of a constructed object and calling the constructor:
    the new bindings are stored as they are when the constructor takes the
    key, and the call is a [TypeError] when it does not. *)
Lemma init_data_set o k v :
  constructed o ->
  (forall t, dict_get k (get_type_hints (cls o)) = Some t -> _is_valid_type v t = true) ->
  if accepts (cls o) k
  then init_data (cls o) (dict_set k v (_data o)) = Ok (dict_set k v (_data o))
  else is_type_error (init_data (cls o) (dict_set k v (_data o))) = true.
Proof.
  intros Hc Hvalid.
  assert (Hkw : cls o <> AgentState -> cls o <> GraphState ->
    if negb (String.eqb k "self")
    then init_data (cls o) (dict_set k v (_data o)) = Ok (dict_set k v (_data o))
    else is_type_error (init_data (cls o) (dict_set k v (_data o))) = true).
  { intros Ha Hg.
    destruct (constructed_kwargs_class o Hc Ha Hg) as (Hv & _ & Hself & Hinit).
    destruct (String.eqb_spec k "self") as [->|Hne]; simpl.
    - unfold init_data, init_args, bind_self, dict_mem.
      by rewrite dict_get_set, String.eqb_refl.
    - rewrite Hinit.
      2:{ rewrite dict_get_set. by destruct (String.eqb_spec k "self"). }
      assert (_validate_types (cls o) (dict_set k v (_data o)) = Ok tt) as ->; [|done].
      apply _validate_types_ok. intros f t val Hh Hd.
      rewrite dict_get_set in Hd. destruct (String.eqb_spec k f) as [->|Hne'].
      + injection Hd as <-. by apply Hvalid.
      + by apply (proj1 (_validate_types_ok _ _) Hv f t val). }
  assert (Hbad : forall c params,
    (forall kw, class_args c kw =
       match bind_keywords params kw with
       | Raise e => Raise e
       | Ok _ => class_args c kw
       end) ->
    k ∉ params ->
    is_type_error (init_data c (dict_set k v (_data o))) = true).
  { intros c params Hcls Hnin. unfold init_data, init_args.
    destruct (bind_self_spec (dict_set k v (_data o))) as [[-> _]|[[msg ->] _]];
      [|done].
    rewrite Hcls.
    destruct (bind_keywords_spec params (dict_set k v (_data o)))
      as [[_ Hall]|[[msg ->] _]]; [|done].
    exfalso. apply Hnin, Hall. apply (dict_get_Some_keys k _ v).
    by rewrite dict_get_set, String.eqb_refl. }
  destruct (cls o) eqn:Hcls.
  - by apply Hkw.
  - destruct (agent_shape o Hc Hcls) as (m & t & i & b & Hd & Hv & _).
    apply agent_validate in Hv as (Hm & Ht & Hi & Hb).
    unfold accepts. destruct (decide (k ∈ agent_params)) as [Hin|Hnin].
    + rewrite (bool_decide_eq_true_2 _ Hin). rewrite Hd. unfold agent_params in Hin.
      repeat (apply elem_of_cons in Hin as [->|Hin]); [..|by apply elem_of_nil in Hin].
      * change (dict_set "messages" v (agent_data m t i b)) with (agent_data v t i b).
        apply agent_init_data, agent_validate. repeat split; try done.
        by apply (Hvalid (Tclass Clist)).
      * change (dict_set "tool_calls" v (agent_data m t i b)) with (agent_data m v i b).
        apply agent_init_data, agent_validate. repeat split; try done.
        by apply (Hvalid (Tclass Clist)).
      * change (dict_set "intermediate_steps" v (agent_data m t i b))
          with (agent_data m t v b).
        apply agent_init_data, agent_validate. repeat split; try done.
        by apply (Hvalid (Tclass Clist)).
      * change (dict_set "is_complete" v (agent_data m t i b)) with (agent_data m t i v).
        apply agent_init_data, agent_validate. repeat split; try done.
        by apply (Hvalid (Tclass Cbool)).
    + rewrite (bool_decide_eq_false_2 _ Hnin).
      apply (Hbad AgentState agent_params); [|done].
      intros kw. simpl. by destruct (bind_keywords agent_params kw) as [[]|].
  - destruct (graph_shape o Hc Hcls) as (cn & nn & cx & rs & Hd & Hv & _).
    apply graph_validate in Hv as (Hm & Ht & Hi & Hb).
    unfold accepts. destruct (decide (k ∈ graph_params)) as [Hin|Hnin].
    + rewrite (bool_decide_eq_true_2 _ Hin). rewrite Hd. unfold graph_params in Hin.
      repeat (apply elem_of_cons in Hin as [->|Hin]); [..|by apply elem_of_nil in Hin].
      * change (dict_set "current_node" v (graph_data cn nn cx rs))
          with (graph_data v nn cx rs).
        apply graph_init_data, graph_validate. repeat split; try done.
        by apply (Hvalid (Tclass Cstr)).
      * change (dict_set "next_node" v (graph_data cn nn cx rs))
          with (graph_data cn v cx rs).
        apply graph_init_data, graph_validate. repeat split; try done.
        by apply (Hvalid (Tclass Cstr)).
      * change (dict_set "context" v (graph_data cn nn cx rs))
          with (graph_data cn nn v rs).
        apply graph_init_data, graph_validate. repeat split; try done.
        by apply (Hvalid Talias_dict).
      * change (dict_set "results" v (graph_data cn nn cx rs))
          with (graph_data cn nn cx v).
        apply graph_init_data, graph_validate. repeat split; try done.
        by apply (Hvalid Talias_dict).
    + rewrite (bool_decide_eq_false_2 _ Hnin).
      apply (Hbad GraphState graph_params); [|done].
      intros kw. simpl. by destruct (bind_keywords graph_params kw) as [[]|].
  - by apply Hkw.
Qed.

(** A declared field is a keyword of the constructor. *)
Lemma declared_accepted c k t :
  dict_get k (get_type_hints c) = Some t -> k <> "self" -> accepts c k = true.
Proof.
  destruct c; intros H Hne; unfold accepts;
    try (by destruct (String.eqb_spec k "self"));
    apply bool_decide_eq_true_2; exact (dict_get_Some_keys _ _ _ H).
Qed.

(** *** The methods on a store *)

Lemma deref_spec st s o : st !! s = Some o -> deref s st = (Ok o, st).
Proof. intros H. unfold deref. by rewrite H. Qed.

Lemma get_spec st s o k default :
  st !! s = Some o ->
  get s k default st =
    (Ok (match dict_get k (_data o) with Some v => v | None => default end), st).
Proof. intros H. unfold get, bind. by rewrite (deref_spec st s o H). Qed.

Lemma set_spec st s o k v :
  st !! s = Some o ->
  StatePy.set s k v st =
    match dict_get k (get_type_hints (cls o)) with
    | Some expected =>
        if _is_valid_type v expected
        then new (cls o) (dict_set k v (_data o)) st
        else (Raise (StateValidationError k expected (type_of v)), st)
    | None => new (cls o) (dict_set k v (_data o)) st
    end.
Proof.
  intros H. unfold StatePy.set, bind. rewrite (deref_spec st s o H).
  rewrite deepcopy_dict_id.
  destruct (dict_get k (get_type_hints (cls o))) as [t|]; [|done].
  by destruct (_is_valid_type v t).
Qed.

Lemma to_dict_spec st s o : st !! s = Some o -> to_dict s st = (Ok (_data o), st).
Proof.
  intros H. unfold to_dict, bind. rewrite (deref_spec st s o H).
  unfold ret. by rewrite deepcopy_dict_id.
Qed.

Lemma __eq___spec st a b oa ob :
  st !! a = Some oa -> st !! b = Some ob ->
  __eq__ a b st =
    (Ok (issubclass (cls ob) (cls oa) && dict_eq (_data oa) (_data ob)), st).
Proof.
  intros Ha Hb. unfold __eq__, bind.
  rewrite (deref_spec st a oa Ha), (deref_spec st b ob Hb).
  by destruct (issubclass (cls ob) (cls oa)).
Qed.

(** [a == b]: the classes are the same and the bindings are equal. *)
Lemma eq_op_spec st a b oa ob :
  st !! a = Some oa -> st !! b = Some ob ->
  eq_op a b st =
    (Ok (bool_decide (cls oa = cls ob) && dict_eq (_data oa) (_data ob)), st).
Proof.
  intros Ha Hb. unfold eq_op, bind.
  rewrite (deref_spec st a oa Ha), (deref_spec st b ob Hb).
  unfold issubclass at 1.
  destruct (decide (cls oa = cls ob)) as [Heq|Hne].
  - rewrite (bool_decide_eq_true_2 _ Heq). simpl.
    rewrite (__eq___spec st a b oa ob Ha Hb). unfold issubclass.
    by rewrite (bool_decide_eq_true_2 (cls ob = cls oa)) by done.
  - rewrite (bool_decide_eq_false_2 _ Hne).
    rewrite (bool_decide_eq_false_2 (cls ob = cls oa)) by congruence. simpl.
    destruct (decide (cls oa = StateSchema)) as [Hs|Hs].
    + rewrite (bool_decide_eq_true_2 _ Hs).
      rewrite (__eq___spec st b a ob oa Hb Ha). unfold issubclass.
      rewrite (bool_decide_eq_false_2 _ Hne).
      rewrite (bool_decide_eq_false_2 (cls ob = StateSchema)) by congruence. done.
    + rewrite (bool_decide_eq_false_2 _ Hs).
      rewrite (__eq___spec st a b oa ob Ha Hb). unfold issubclass.
      rewrite (bool_decide_eq_false_2 (cls ob = cls oa)) by congruence.
      by rewrite (bool_decide_eq_false_2 _ Hs).
Qed.

Lemma ne_op_spec st a b oa ob :
  st !! a = Some oa -> st !! b = Some ob ->
  ne_op a b st =
    (Ok (negb (bool_decide (cls oa = cls ob) && dict_eq (_data oa) (_data ob))), st).
Proof. intros Ha Hb. unfold ne_op, bind. by rewrite (eq_op_spec st a b oa ob Ha Hb). Qed.

(** Rebinding [k] to a value that differs from the one it had gives
    different bindings. *)
Lemma dict_eq_set_differs d k v :
  py_eq (match dict_get k d with Some p => p | None => VNone end) v = false ->
  dict_eq d (dict_set k v d) = false.
Proof.
  intros Hp. unfold dict_eq. rewrite py_eq_dict.
  destruct (dict_get k d) as [p|] eqn:Hget.
  - apply andb_false_iff. right. apply not_true_is_false. intros Hle.
    rewrite dict_le_spec in Hle.
    destruct (Hle k p (dict_get_elem_of _ _ _ Hget)) as (v' & Hget' & Heq).
    rewrite dict_get_set, String.eqb_refl in Hget'. injection Hget' as <-.
    congruence.
  - rewrite (dict_set_absent k v d Hget), length_app. simpl.
    apply andb_false_iff. left. apply Nat.eqb_neq. lia.
Qed.

(** The three outcomes of [set] on a constructed object. *)
Lemma set_outcome st s o k v :
  st !! s = Some o -> constructed o ->
  (exists t, dict_get k (get_type_hints (cls o)) = Some t
     /\ _is_valid_type v t = false
     /\ StatePy.set s k v st = (Raise (StateValidationError k t (type_of v)), st))
  \/ ((forall t, dict_get k (get_type_hints (cls o)) = Some t ->
                 _is_valid_type v t = true)
      /\ accepts (cls o) k = true
      /\ StatePy.set s k v st =
           (Ok (length st),
            st ++ [{| cls := cls o; _data := dict_set k v (_data o) |}]))
  \/ ((forall t, dict_get k (get_type_hints (cls o)) = Some t ->
                 _is_valid_type v t = true)
      /\ accepts (cls o) k = false
      /\ exists msg, StatePy.set s k v st = (Raise (TypeError msg), st)).
Proof.
  intros Hs Hc. rewrite (set_spec st s o k v Hs).
  assert (Hnew : (forall t, dict_get k (get_type_hints (cls o)) = Some t ->
                            _is_valid_type v t = true) ->
    if accepts (cls o) k
    then new (cls o) (dict_set k v (_data o)) st =
           (Ok (length st), st ++ [{| cls := cls o; _data := dict_set k v (_data o) |}])
    else exists msg, new (cls o) (dict_set k v (_data o)) st = (Raise (TypeError msg), st)).
  { intros Hvalid. pose proof (init_data_set o k v Hc Hvalid) as H.
    rewrite new_spec. destruct (accepts (cls o) k).
    - by rewrite H.
    - destruct (init_data _ _) as [|[]]; try done. by eexists. }
  destruct (dict_get k (get_type_hints (cls o))) as [t|] eqn:Hh.
  - destruct (_is_valid_type v t) eqn:Hv.
    + assert (Hvalid : forall t0, Some t = Some t0 -> _is_valid_type v t0 = true)
        by (by intros t0 [= <-]).
      specialize (Hnew Hvalid). destruct (accepts (cls o) k).
      * right; left. by repeat split.
      * right; right. by repeat split.
    + left. by exists t.
  - assert (Hvalid : forall t0, @None pytype = Some t0 -> _is_valid_type v t0 = true)
      by done.
    specialize (Hnew Hvalid). destruct (accepts (cls o) k).
    + right; left. by repeat split.
    + right; right. by repeat split.
Qed.

(** ** The claims about the state container *)

(** C3. [s.set(k, v)] never changes [s]: whatever the outcome, [s] holds the
    bindings it had and [s.get(k)] answers as before; when it raises
    [StateValidationError] nothing at all has changed; when it succeeds the
    result is another instance, and if the value [k] had in [s] differs from
    [v] then [s != s.set(k, v)]. *)
Theorem set_is_immutable st s o k v :
  st !! s = Some o -> constructed o ->
  exists r st',
    StatePy.set s k v st = (r, st')
    /\ st' !! s = Some o
    /\ (forall default, fst (get s k default st') = fst (get s k default st))
    /\ (is_validation_error r = true -> st' = st)
    /\ (forall s', r = Ok s' ->
          s' <> s
          /\ forall prior, fst (get s k VNone st) = Ok prior ->
                           py_eq prior v = false ->
                           fst (ne_op s s' st') = Ok true).
Proof.
  intros Hs Hc.
  destruct (set_outcome st s o k v Hs Hc)
    as [(t & Hh & Hv & ->)|[(Hvalid & Hacc & ->)|(Hvalid & Hacc & msg & ->)]].
  - eexists _, _. split; [reflexivity|]. by repeat split.
  - eexists _, _. split; [reflexivity|].
    assert (Hs' : (st ++ [{| cls := cls o; _data := dict_set k v (_data o) |}]) !! s
                  = Some o) by (by apply lookup_app_l_Some).
    split; [exact Hs'|].
    split; [intros default; by rewrite (get_spec _ s o), (get_spec _ s o)|].
    split; [done|].
    intros s' [= <-]. pose proof (lookup_lt_Some _ _ _ Hs) as Hlt.
    split; [lia|].
    intros prior Hprior Hdiff. rewrite (get_spec st s o k VNone Hs) in Hprior.
    simpl in Hprior. injection Hprior as <-.
    rewrite (ne_op_spec _ s (length st) o
               {| cls := cls o; _data := dict_set k v (_data o) |} Hs').
    2:{ rewrite lookup_app_r by lia. by rewrite Nat.sub_diag. }
    simpl. rewrite (bool_decide_eq_true_2 _ eq_refl). simpl.
    by rewrite (dict_eq_set_differs _ _ _ Hdiff).
  - eexists _, _. split; [reflexivity|]. by repeat split.
Qed.


(** C8. [a == b] holds exactly when [a] and [b] are of the same class and
    their bindings are equal; states of different classes are never equal,
    whatever they bind; and [==] is symmetric. *)
Theorem state_equality st a b oa ob :
  st !! a = Some oa -> st !! b = Some ob ->
  constructed oa -> constructed ob ->
  (fst (eq_op a b st) = Ok true <->
     cls oa = cls ob /\ dict_eq (_data oa) (_data ob) = true)
  /\ (cls oa <> cls ob -> fst (eq_op a b st) = Ok false)
  /\ eq_op a b st = eq_op b a st
  /\ snd (eq_op a b st) = st.
Proof.
  intros Ha Hb Hca Hcb.
  rewrite (eq_op_spec st a b oa ob Ha Hb), (eq_op_spec st b a ob oa Hb Ha). simpl.
  split; [|split; [|split]].
  - split.
    + intros [= Heq]. apply andb_true_iff in Heq as [H1 H2].
      by apply bool_decide_eq_true in H1.
    + intros [Hcls Hd]. by rewrite (bool_decide_eq_true_2 _ Hcls), Hd.
  - intros Hne. by rewrite (bool_decide_eq_false_2 _ Hne).
  - f_equal. f_equal.
    unfold dict_eq.
    rewrite (py_eq_sym (VDict (_data oa)) (VDict (_data ob))
               (constructed_wf oa Hca) (constructed_wf ob Hcb)).
    f_equal. apply bool_decide_ext. split; congruence.
  - reflexivity.
Qed.


End ObjectFacts.

(** ** The container on concrete states *)

Section StateExamples.
Import StatePy Examples.

Lemma constructed_o_test : constructed o_test.
Proof. exists kw_test. split; reflexivity. Defined.

Lemma constructed_o_agent : constructed o_agent.
Proof. exists []. split; reflexivity. Defined.

Lemma constructed_o_plain : constructed o_plain.
Proof. exists kw_plain. split; reflexivity. Defined.

Lemma set_is_immutable_witness :
  exists r st',
    StatePy.set 0 "age" (VInt 31) st_example = (r, st')
    /\ st' !! 0 = Some o_test
    /\ (forall default, fst (get 0 "age" default st')
                        = fst (get 0 "age" default st_example))
    /\ (is_validation_error r = true -> st' = st_example)
    /\ (forall s', r = Ok s' ->
          s' <> 0
          /\ forall prior, fst (get 0 "age" VNone st_example) = Ok prior ->
                           py_eq prior (VInt 31) = false ->
                           fst (ne_op 0 s' st') = Ok true).
Proof.
  apply (set_is_immutable st_example 0 o_test "age" (VInt 31)).
  - reflexivity.
  - exact constructed_o_test.
Defined.


Lemma state_equality_witness :
  (fst (eq_op 0 2 st_example) = Ok true <->
     cls o_test = cls o_plain /\ dict_eq (_data o_test) (_data o_plain) = true)
  /\ (cls o_test <> cls o_plain -> fst (eq_op 0 2 st_example) = Ok false)
  /\ eq_op 0 2 st_example = eq_op 2 0 st_example
  /\ snd (eq_op 0 2 st_example) = st_example.
Proof.
  apply (state_equality st_example 0 2 o_test o_plain).
  - reflexivity.
  - reflexivity.
  - exact constructed_o_test.
  - exact constructed_o_plain.
Defined.



End StateExamples.

(** * Further facts about the graph engine *)

Section GraphMore.
Import GraphPy.
Context {St : Type}.
Implicit Types (w : world St) (l : locals St) (g : Graph St).

Lemma dict_mem_keys {V} (k : string) (d : list (string * V)) :
  dict_mem k d = true <-> k ∈ dict_keys d.
Proof.
  unfold dict_mem. destruct (dict_get k d) as [v|] eqn:Hget.
  - split; [intros _; by apply (dict_get_Some_keys k d v)|done].
  - apply dict_get_None_keys in Hget. split; [done|]. intros H. by destruct Hget.
Qed.

Lemma dict_mem_false_keys {V} (k : string) (d : list (string * V)) :
  dict_mem k d = false <-> k ∉ dict_keys d.
Proof.
  rewrite <- dict_mem_keys. destruct (dict_mem k d); split; try done;
    intros H; by destruct H.
Qed.

Lemma dict_get_app {V} (k : string) (d d' : list (string * V)) :
  dict_get k (d ++ d') =
  match dict_get k d with Some v => Some v | None => dict_get k d' end.
Proof.
  induction d as [|[k0 v0] d IH]; simpl; [done|].
  by destruct (String.eqb k0 k).
Qed.

Lemma dict_mem_app_l {V} (k : string) (d d' : list (string * V)) :
  dict_mem k d = true -> dict_mem k (d ++ d') = true.
Proof.
  unfold dict_mem. rewrite dict_get_app. by destruct (dict_get k d).
Qed.

Lemma add_node_spec name (f : St -> result St) w :
  add_node name f w =
  if dict_mem name (nodes (self w)) then
    (Raise (ValueError ("Node '" +:+ name +:+ "' already exists")), w)
  else
    (Ok tt,
     {| self := {| graph_name := graph_name (self w);
                   nodes := nodes (self w) ++ [(name, {| node_name := name; func := f |})];
                   edges := edges (self w);
                   entry_point := match entry_point (self w) with
                                  | None => Some name
                                  | Some first => Some first
                                  end |};
        calls := calls w |}).
Proof.
  unfold add_node, bind, gets; simpl.
  destruct (dict_mem name (nodes (self w))) eqn:Hmem; [done|].
  unfold set_nodes, modify; simpl. rewrite (dict_set_fresh _ _ _ Hmem).
  by destruct (entry_point (self w)).
Qed.

Lemma add_edge_spec src tgt (cond : option (St -> bool)) w :
  add_edge src tgt cond w =
  if negb (dict_mem src (nodes (self w))) then
    (Raise (ValueError ("Source node '" +:+ src +:+ "' not found")), w)
  else if negb (dict_mem tgt (nodes (self w))) then
    (Raise (ValueError ("Target node '" +:+ tgt +:+ "' not found")), w)
  else
    (Ok tt,
     {| self := {| graph_name := graph_name (self w);
                   nodes := nodes (self w);
                   edges := edges (self w)
                            ++ [{| source := src; target := tgt; condition := cond |}];
                   entry_point := entry_point (self w) |};
        calls := calls w |}).
Proof.
  unfold add_edge, bind, gets; simpl.
  destruct (dict_mem src (nodes (self w))); [|done].
  by destruct (dict_mem tgt (nodes (self w))).
Qed.

Lemma set_entry_point_spec name w :
  set_entry_point name w =
  if negb (dict_mem name (nodes (self w))) then
    (Raise (ValueError ("Node '" +:+ name +:+ "' not found")), w)
  else
    (Ok tt,
     {| self := {| graph_name := graph_name (self w);
                   nodes := nodes (self w);
                   edges := edges (self w);
                   entry_point := Some name |};
        calls := calls w |}).
Proof.
  unfold set_entry_point, bind, gets; simpl.
  by destruct (dict_mem name (nodes (self w))).
Qed.

(** ** Extra properties *)

(** X1. The build-time methods keep a graph well formed, whether they
    succeed or raise, and a new graph is well formed: a graph built through
    [add_node], [add_edge] and [set_entry_point] has no name registered
    twice, only edges between registered names, and an entry point that is
    registered as soon as there is a node. *)
Theorem build_keeps_graph_well_formed w :
  well_formed (self w) ->
  (forall name f, well_formed (self (snd (add_node name f w))))
  /\ (forall src tgt cond, well_formed (self (snd (add_edge src tgt cond w))))
  /\ (forall name, well_formed (self (snd (set_entry_point name w))))
  /\ (forall gname, well_formed (Graph_init (St:=St) gname)).
Proof.
  intros [Hnd Hname Hedges Hentry]. repeat apply conj.
  - intros name f. rewrite add_node_spec.
    destruct (dict_mem name (nodes (self w))) eqn:Hmem; [by constructor|].
    simpl. constructor; simpl.
    + unfold dict_keys. rewrite fmap_app. simpl.
      apply NoDup_app. split; [done|]. split; [|apply NoDup_singleton].
      intros x Hx Hx'. apply list_elem_of_singleton in Hx'. subst x.
      by apply dict_mem_false_keys in Hmem.
    + intros n node. rewrite dict_get_app.
      destruct (dict_get n (nodes (self w))) as [node'|] eqn:Hget.
      * intros [= <-]. by apply Hname.
      * simpl. destruct (String.eqb_spec name n) as [->|]; [|done].
        by intros [= <-].
    + eapply Forall_impl; [exact Hedges|]. simpl.
      intros e [H1 H2]. split; by apply dict_mem_app_l.
    + destruct (entry_point (self w)) as [first|].
      * by apply dict_mem_app_l.
      * rewrite Hentry. simpl. unfold dict_mem. simpl. by rewrite String.eqb_refl.
  - intros src tgt cond. rewrite add_edge_spec.
    destruct (dict_mem src (nodes (self w))) eqn:Hs; [|by constructor].
    destruct (dict_mem tgt (nodes (self w))) eqn:Ht; [|by constructor].
    simpl. constructor; simpl; try done.
    apply Forall_app. split; [done|]. by repeat constructor.
  - intros name. rewrite set_entry_point_spec.
    destruct (dict_mem name (nodes (self w))) eqn:Hm; [|by constructor].
    simpl. by constructor.
  - intros gname. constructor; simpl; try done. constructor.
Qed.

(** On a well-formed graph the loop only ever stands on registered names. *)
Lemma qualifying_target_registered g n (s : St) e es :
  well_formed g -> qualifying g n s = e :: es ->
  dict_mem (target e) (nodes g) = true.
Proof.
  intros Hwf Hq.
  assert (Hin : In e (qualifying g n s)) by (rewrite Hq; by left).
  unfold qualifying, outgoing in Hin.
  apply List.filter_In in Hin as [Hin _]. apply List.filter_In in Hin as [Hin _].
  pose proof (wf_edges g Hwf) as Hall. rewrite Forall_forall in Hall.
  apply list_elem_of_In in Hin. by destruct (Hall e Hin).
Qed.

Lemma while_loop_outcome fuel : forall l w r w',
  well_formed (self w) ->
  dict_mem (current_node l) (nodes (self w)) = true ->
  remaining w l < fuel ->
  while_loop fuel l w = (r, w') ->
  run_outcome (self w) r.
Proof.
  induction fuel as [|fuel IH]; intros l w r w' Hwf Hreg Hlt; [lia|].
  simpl. unfold bind at 1.
  destruct (loop_body l w) as [[c|ex] w1] eqn:Hbody.
  - destruct c as [l'|l'].
    + intros Hrun.
      destruct (loop_body_continue _ _ _ _ Hbody) as (Hrem & cs & -> & _).
      apply (IH l' (logged w cs) r w'); [done| |lia|done].
      revert Hbody. rewrite loop_body_spec.
      destruct (decide _); [done|].
      destruct (dict_get _ _) as [node|]; [|done].
      destruct (func node _) as [st|]; [|done].
      destruct (qualifying _ _ _) as [|e es] eqn:Hq; [done|].
      intros [= <- _]. simpl. by apply (qualifying_target_registered _ _ _ _ _ Hwf Hq).
    + intros [= <- _]. done.
  - intros [= <- _]. simpl. revert Hbody. rewrite loop_body_spec.
    destruct (decide _).
    { intros [= <- _]. left. by eexists. }
    unfold dict_mem in Hreg.
    destruct (dict_get (current_node l) (nodes (self w))) as [node|] eqn:Hget; [|done].
    destruct (func node (current_state l)) as [st|ex'] eqn:Hf; [done|].
    intros [= <- _]. right. by exists (current_node l), node, (current_state l).
Qed.


(** *** [validate] *)

Lemma incoming_spec (es : list (Edge St)) (X : gset (option string)) x :
  x ∈ foldl (fun acc e => {[ Some (target e) ]} ∪ acc) X es
  <-> x ∈ X \/ exists e, e ∈ es /\ x = Some (target e).
Proof.
  revert X. induction es as [|e es IH]; intros X; simpl.
  - split; [by left|]. intros [H|(e & He & _)]; [done|]. by apply elem_of_nil in He.
  - rewrite IH. split.
    + intros [H|(e' & He' & ->)].
      * apply elem_of_union in H as [H|H]; [|by left].
        apply elem_of_singleton in H. right. exists e. split; [apply list_elem_of_here|done].
      * right. exists e'. split; [by apply list_elem_of_further|done].
    + intros [H|(e' & He' & ->)].
      * left. set_solver.
      * apply elem_of_cons in He' as [->|He'].
        -- left. set_solver.
        -- right. by exists e'.
Qed.

Lemma orphan_issues_spec (names : list string) (inc : gset (option string))
    (ep : option string) (issue : string) :
  issue ∈ orphan_issues names inc ep
  <-> exists n, n ∈ names /\ (Some n ∉ inc) /\ Some n <> ep
                /\ issue = orphan_message n.
Proof.
  induction names as [|n names IH]; simpl.
  - split; [intros H; by apply elem_of_nil in H|].
    intros (n & Hn & _). by apply elem_of_nil in Hn.
  - rewrite elem_of_app, IH. split.
    + intros [H|(n' & Hn' & Hrest)].
      * destruct (bool_decide (Some n ∉ inc)) eqn:Hi;
          [|simpl in H; by apply elem_of_nil in H].
        destruct (bool_decide (Some n <> ep)) eqn:He;
          [|simpl in H; by apply elem_of_nil in H].
        simpl in H. apply list_elem_of_singleton in H.
        apply bool_decide_eq_true in Hi. apply bool_decide_eq_true in He.
        exists n. split; [apply list_elem_of_here|done].
      * exists n'. split; [by apply list_elem_of_further|done].
    + intros (n' & Hn' & Hi & He & ->).
      apply elem_of_cons in Hn' as [->|Hn'].
      * left. rewrite (bool_decide_eq_true_2 _ Hi), (bool_decide_eq_true_2 _ He).
        simpl. apply list_elem_of_here.
      * right. by exists n'.
Qed.

Lemma edge_issues_nil (es : list (Edge St)) (ns : list (string * Node St)) :
  edge_issues es ns = [] <->
  Forall (fun e => dict_mem (source e) ns = true /\ dict_mem (target e) ns = true) es.
Proof.
  induction es as [|e es IH]; simpl.
  - split; [constructor|done].
  - rewrite Forall_cons, <- IH.
    destruct (dict_mem (source e) ns), (dict_mem (target e) ns); simpl;
      split; try done; try (intros [[? ?] ?]; done); by intros ->.
Qed.

Lemma issues_of_spec g :
  issues_of g =
  Ok ((((if decide (nodes g = []) then ["Graph has no nodes"] else [])
        ++ match entry_point g with
           | None => ["Graph has no entry point"]
           | Some n => if negb (dict_mem n (nodes g))
                       then ["Entry point '" +:+ n +:+ "' not found in nodes"]
                       else []
           end)
       ++ orphan_issues (dict_keys (nodes g)) (incoming_names g) (entry_point g))
      ++ edge_issues (edges g) (nodes g)).
Proof. reflexivity. Qed.

Lemma list_nil_iff_no_elem {A} (xs : list A) : xs = [] <-> forall x, x ∉ xs.
Proof.
  destruct xs as [|x xs]; split; try done.
  - intros _ y. apply not_elem_of_nil.
  - intros H. destruct (H x). apply list_elem_of_here.
Qed.

(** X3. [validate] reports nothing exactly when the graph has a node, its
    entry point is set and registered, every node is the entry point or the
    target of some edge, and every edge joins registered names. *)
Theorem validate_reports_nothing_iff g :
  issues_of g = Ok [] <->
  nodes g <> []
  /\ (exists n, entry_point g = Some n /\ dict_mem n (nodes g) = true)
  /\ (forall n, n ∈ dict_keys (nodes g) ->
        entry_point g = Some n \/ exists e, e ∈ edges g /\ target e = n)
  /\ Forall (fun e => dict_mem (source e) (nodes g) = true
                      /\ dict_mem (target e) (nodes g) = true) (edges g).
Proof.
  rewrite issues_of_spec.
  assert (Horph :
    orphan_issues (dict_keys (nodes g)) (incoming_names g) (entry_point g) = [] <->
    forall n, n ∈ dict_keys (nodes g) ->
      entry_point g = Some n \/ exists e, e ∈ edges g /\ target e = n).
  { rewrite list_nil_iff_no_elem. split.
    - intros Hno n Hn.
      destruct (decide (entry_point g = Some n)) as [|Hep]; [by left|].
      right.
      destruct (decide (Some n ∈ incoming_names g)) as [Hin|Hnin].
      + apply incoming_spec in Hin as [Hin|(e & He & [= ->])].
        * apply elem_of_singleton in Hin. congruence.
        * by exists e.
      + exfalso. apply (Hno (orphan_message n)). apply orphan_issues_spec.
        exists n. split; [done|]. split; [done|]. split; [congruence|done].
    - intros Hall issue Hin. apply orphan_issues_spec in Hin as (n & Hn & Hi & He & _).
      apply Hi, incoming_spec.
      destruct (Hall n Hn) as [Hep|(e & Hin & <-)].
      + left. apply elem_of_singleton. done.
      + right. by exists e. }
  split.
  - intros [= H].
    apply app_eq_nil in H as [H HD]. apply app_eq_nil in H as [H HC].
    apply app_eq_nil in H as [HA HB].
    split; [by destruct (decide (nodes g = []))|].
    split.
    { destruct (entry_point g) as [n|]; [|done]. exists n. split; [done|].
      by destruct (dict_mem n (nodes g)). }
    split; [by apply Horph|by apply edge_issues_nil].
  - intros (Hne & (n & Hep & Hreg) & Hall & Hedges).
    rewrite (proj2 Horph Hall), (proj2 (edge_issues_nil _ _) Hedges).
    rewrite Hep, Hreg. simpl. by destruct (decide (nodes g = [])).
Qed.

(** X4. On a well-formed graph with a node, [validate] can only report
    orphans: its issues are exactly the messages for the registered names
    that are neither the entry point nor the target of an edge. *)
Theorem validate_well_formed_reports_orphans g :
  well_formed g -> nodes g <> [] ->
  exists issues,
    issues_of g = Ok issues
    /\ forall issue,
         issue ∈ issues <->
         exists n, n ∈ dict_keys (nodes g) /\ entry_point g <> Some n
                   /\ (forall e, e ∈ edges g -> target e <> n)
                   /\ issue = orphan_message n.
Proof.
  intros Hwf Hne. rewrite issues_of_spec.
  pose proof (wf_entry _ Hwf) as Hentry.
  destruct (entry_point g) as [n0|] eqn:Hep; [|done].
  rewrite Hentry, (proj2 (edge_issues_nil _ _) (wf_edges _ Hwf)). simpl.
  destruct (decide (nodes g = [])) as [|_]; [done|]. simpl. rewrite app_nil_r.
  eexists. split; [reflexivity|].
  intros issue. rewrite orphan_issues_spec. split.
  - intros (n & Hn & Hi & He & ->). exists n.
    split; [done|]. split; [congruence|]. split; [|done].
    intros e Hin Ht. apply Hi, incoming_spec. right. exists e. by rewrite Ht.
  - intros (n & Hn & He & Hno & ->). exists n.
    split; [done|]. split; [|split; [congruence|done]].
    intros Hin. apply incoming_spec in Hin as [Hin|(e & Hin & [= ->])].
    + apply elem_of_singleton in Hin. congruence.
    + by apply (Hno e).
Qed.

(** *** How a run ends *)

Lemma reaches_self w0 l0 w l : reaches w0 l0 w l -> self w = self w0.
Proof.
  induction 1 as [|w l w' l' _ IH Hbody]; [done|].
  destruct (loop_body_continue _ _ _ _ Hbody) as (_ & cs & -> & _). exact IH.
Qed.

(** X5. What a node function raises comes out of [execute] unchanged: when
    the run comes to a node whose function raises, [execute] raises that very
    exception, right after the call and before any edge is looked at. *)
Theorem node_exception_propagates w (s0 : St) n w' l' (node : Node St) ex :
  entry_point (self w) = Some n ->
  reaches w (initial_locals s0 n) w' l' ->
  current_node l' ∉ visited_nodes l' ->
  dict_get (current_node l') (nodes (self w)) = Some node ->
  func node (current_state l') = Raise ex ->
  execute s0 w =
    (Raise ex, logged w' [CallNode (node_name node) (current_state l')]).
Proof.
  intros Hep Hreach Hnv Hget Hf.
  destruct (reaches_while _ _ _ _ Hreach 1) as [k Hk].
  apply (execute_from_fuel (k + 1)); [|done].
  rewrite execute_fuel_spec, Hep, Hk. simpl. unfold bind.
  rewrite loop_body_spec. destruct (decide _); [done|].
  by rewrite (reaches_self _ _ _ _ Hreach), Hget, Hf.
Qed.

(** X6. A run ends normally at the first node none of whose outgoing edges
    qualifies on its output (in particular a node without outgoing edge):
    [execute] returns the state that node returned. *)
Theorem execute_returns_when_no_edge_qualifies
    w (s0 : St) n w' l' (node : Node St) st :
  entry_point (self w) = Some n ->
  reaches w (initial_locals s0 n) w' l' ->
  current_node l' ∉ visited_nodes l' ->
  dict_get (current_node l') (nodes (self w)) = Some node ->
  func node (current_state l') = Ok st ->
  qualifying (self w) (current_node l') st = [] ->
  execute s0 w = (Ok (Some st), logged w' (step_calls w' l' node st)).
Proof.
  intros Hep Hreach Hnv Hget Hf Hq.
  destruct (reaches_while _ _ _ _ Hreach 1) as [k Hk].
  apply (execute_from_fuel (k + 1)); [|done].
  rewrite execute_fuel_spec, Hep, Hk. simpl. unfold bind.
  rewrite loop_body_spec. destruct (decide _); [done|].
  by rewrite (reaches_self _ _ _ _ Hreach), Hget, Hf, Hq.
Qed.

(** *** No node runs twice *)

Lemma called_names_app (cs cs' : list (call St)) :
  called_names (cs ++ cs') = called_names cs ++ called_names cs'.
Proof.
  induction cs as [|[n s|e s] cs IH]; simpl; [done| |done]. by rewrite IH.
Qed.

Lemma called_names_should_follow (es : list (Edge St)) (s : St) :
  called_names (map (fun e => CallShouldFollow e s) es) = [].
Proof. by induction es. Qed.

Lemma while_loop_runs_each_node_once fuel : forall l w r w',
  (forall n node, dict_get n (nodes (self w)) = Some node -> node_name node = n) ->
  while_loop fuel l w = (r, w') ->
  exists cs, w' = logged w cs
    /\ NoDup (called_names cs)
    /\ forall n, n ∈ called_names cs ->
                 (n ∉ visited_nodes l) /\ dict_mem n (nodes (self w)) = true.
Proof.
  induction fuel as [|fuel IH]; intros l w r w' Hname.
  - intros [= <- <-]. exists []. rewrite logged_nil. split; [done|].
    split; [constructor|]. intros n Hn. by apply elem_of_nil in Hn.
  - simpl. unfold bind at 1. rewrite loop_body_spec.
    destruct (decide _) as [|Hnv].
    { intros [= <- <-]. exists []. rewrite logged_nil. split; [done|].
      split; [constructor|]. intros n Hn. by apply elem_of_nil in Hn. }
    destruct (dict_get _ _) as [node|] eqn:Hget.
    2:{ intros [= <- <-]. exists []. rewrite logged_nil. split; [done|].
        split; [constructor|]. intros n Hn. by apply elem_of_nil in Hn. }
    pose proof (Hname _ _ Hget) as Hnn.
    assert (Hreg : dict_mem (current_node l) (nodes (self w)) = true)
      by (unfold dict_mem; by rewrite Hget).
    destruct (func node _) as [st|ex].
    2:{ intros [= <- <-]. eexists. split; [reflexivity|]. simpl. rewrite Hnn.
        split; [apply NoDup_singleton|].
        intros n Hn. apply list_elem_of_singleton in Hn. by subst n. }
    assert (Hnames : called_names (step_calls w l node st) = [current_node l]).
    { unfold step_calls. simpl. by rewrite called_names_should_follow, Hnn. }
    destruct (qualifying _ _ _) as [|e es].
    + intros [= <- <-]. eexists. split; [reflexivity|]. rewrite Hnames.
      split; [apply NoDup_singleton|].
      intros n Hn. apply list_elem_of_singleton in Hn. by subst n.
    + intros Hrun. apply IH in Hrun as (cs & -> & Hnd & Hall); [|done].
      eexists. split; [by rewrite logged_logged|].
      rewrite called_names_app, Hnames. simpl.
      split.
      * apply NoDup_cons. split; [|done].
        intros Hin. destruct (Hall _ Hin) as [Hv _]. simpl in Hv. set_solver.
      * intros n Hn. apply elem_of_cons in Hn as [->|Hn]; [done|].
        destruct (Hall _ Hn) as [Hv Hr]. simpl in Hv. split; [set_solver|done].
Qed.

(** X7. No node function runs twice in one [execute]: the names of the
    nodes a run calls, in order, are pairwise distinct and registered
    (provided each node is stored under its own name, as [add_node] does). *)
Theorem execute_runs_each_node_at_most_once (s0 : St) w :
  (forall n node, dict_get n (nodes (self w)) = Some node -> node_name node = n) ->
  exists r cs,
    execute s0 w = (r, logged w cs)
    /\ NoDup (called_names cs)
    /\ forall n, n ∈ called_names cs -> dict_mem n (nodes (self w)) = true.
Proof.
  intros Hname. rewrite execute_unfold, execute_fuel_spec.
  destruct (entry_point (self w)) as [n|].
  - destruct (while_loop _ _ _) as [r w'] eqn:Hrun.
    apply while_loop_runs_each_node_once in Hrun as (cs & -> & Hnd & Hall); [|done].
    destruct r as [r|ex]; eexists _, cs; (split; [reflexivity|]);
      (split; [done|]); intros m Hm; by destruct (Hall m Hm).
  - eexists _, []. rewrite logged_nil. split; [reflexivity|].
    split; [constructor|]. intros m Hm. by apply elem_of_nil in Hm.
Qed.

End GraphMore.

(** * Further facts about the state container *)

Section StateMore.
Import StatePy StateOps.
Implicit Types (st : store) (o : obj) (c : pyclass) (d kwargs : dict).

Lemma update_spec st s o kwargs :
  st !! s = Some o ->
  update s kwargs st =
  if dict_mem "self" kwargs then
    (Raise (TypeError "update() got multiple values for argument 'self'"), st)
  else new (cls o) (dict_update (_data o) kwargs) st.
Proof.
  intros Hs. unfold update, bind at 1, lift at 1.
  destruct (dict_mem "self" kwargs); [done|].
  unfold bind. by rewrite (deref_spec st s o Hs).
Qed.

Lemma wf_dict_set d k v :
  wf_dict d = true -> wf_val v = true -> wf_dict (dict_set k v d) = true.
Proof.
  intros Hd Hv. apply wf_dict_spec in Hd as [Hnd Hall]. apply wf_dict_spec.
  split; [by apply dict_set_NoDup|].
  intros k' v' Hin.
  destruct (String.eqb_spec k k') as [->|Hne].
  - pose proof (dict_get_NoDup _ _ _ (dict_set_NoDup k' v d Hnd) Hin) as Hget.
    rewrite dict_get_set, String.eqb_refl in Hget. by injection Hget as <-.
  - pose proof (dict_get_NoDup _ _ _ (dict_set_NoDup k v d Hnd) Hin) as Hget.
    rewrite dict_get_set in Hget.
    destruct (String.eqb_spec k k') as [|_]; [done|].
    apply (Hall k'), dict_get_elem_of, Hget.
Qed.

Lemma wf_dict_update d kwargs :
  wf_dict d = true -> wf_dict kwargs = true -> wf_dict (dict_update d kwargs) = true.
Proof.
  intros Hd Hkw. apply wf_dict_spec in Hkw as [_ Hall].
  unfold dict_update. revert d Hd.
  induction kwargs as [|[k v] kw IH]; intros d Hd; simpl; [done|].
  apply IH.
  - intros k' v' Hin. apply (Hall k' v'). by apply list_elem_of_further.
  - apply wf_dict_set; [done|]. apply (Hall k v), list_elem_of_here.
Qed.

Lemma new_constructed c kwargs st r st' :
  wf_dict kwargs = true ->
  new c kwargs st = (r, st') ->
  (exists d, init_data c kwargs = Ok d /\ r = Ok (length st)
             /\ st' = st ++ [{| cls := c; _data := d |}]
             /\ constructed {| cls := c; _data := d |})
  \/ (exists ex, r = Raise ex /\ st' = st).
Proof.
  intros Hwf. rewrite new_spec.
  destruct (init_data c kwargs) as [d|ex] eqn:Hinit; intros [= <- <-].
  - left. exists d. repeat split; try done. by exists kwargs.
  - right. by exists ex.
Qed.

Lemma store_ok_snoc st o : store_ok st -> constructed o -> store_ok (st ++ [o]).
Proof.
  intros Hst Ho r o' Hr.
  apply lookup_app_Some in Hr as [Hr|[_ Hr]]; [by apply (Hst r)|].
  apply list_lookup_singleton_Some in Hr as [_ <-]. done.
Qed.

(** X8. The store invariant: every state instance that the constructors,
    [set] and [update] create is one a constructor call built, with
    well-formed bindings that pass validation; no method ever changes an
    instance that exists. *)
Theorem methods_keep_store_constructed st :
  store_ok st ->
  (forall c kwargs, wf_dict kwargs = true ->
      store_ok (snd (new c kwargs st))
      /\ forall r o, st !! r = Some o -> snd (new c kwargs st) !! r = Some o)
  /\ (forall s k v, wf_val v = true ->
      store_ok (snd (StatePy.set s k v st))
      /\ forall r o, st !! r = Some o -> snd (StatePy.set s k v st) !! r = Some o)
  /\ (forall s kwargs, wf_dict kwargs = true ->
      store_ok (snd (update s kwargs st))
      /\ forall r o, st !! r = Some o -> snd (update s kwargs st) !! r = Some o)
  /\ store_ok [].
Proof.
  intros Hst.
  assert (Hnew : forall c kwargs, wf_dict kwargs = true ->
      store_ok (snd (new c kwargs st))
      /\ forall r o, st !! r = Some o -> snd (new c kwargs st) !! r = Some o).
  { intros c kwargs Hwf.
    destruct (new c kwargs st) as [r st'] eqn:Hn.
    destruct (new_constructed _ _ _ _ _ Hwf Hn)
      as [(d & _ & _ & -> & Hc)|(ex & _ & ->)]; simpl.
    - split; [by apply store_ok_snoc|]. intros r0 o Hr. by apply lookup_app_l_Some.
    - done. }
  repeat apply conj; try done.
  - intros s k v Hv. unfold StatePy.set, bind. unfold deref.
    destruct (st !! s) as [o|] eqn:Hs; [|done].
    rewrite deepcopy_dict_id.
    assert (Hwf : wf_dict (dict_set k v (_data o)) = true)
      by (apply wf_dict_set; [apply constructed_wf, (Hst s o Hs)|done]).
    destruct (dict_get k (get_type_hints (cls o))) as [t|]; [|by apply Hnew].
    destruct (_is_valid_type v t); simpl; [by apply Hnew|done].
  - intros s kwargs Hwf. destruct (st !! s) as [o|] eqn:Hs.
    + rewrite (update_spec st s o kwargs Hs).
      destruct (dict_mem "self" kwargs); [done|].
      apply Hnew, wf_dict_update; [apply constructed_wf, (Hst s o Hs)|done].
    + unfold update, bind, lift, deref. rewrite Hs.
      by destruct (dict_mem "self" kwargs).
Qed.

(** X9. Insert then look up: when [s.set(k, v)] succeeds, the new state
    answers [v] for [k] whatever the default, answers for every other key
    what [s] answers, and its dictionary is that of [s] with [k] bound to
    [v] (in place if [s] had the key, at the end if not). *)
Theorem set_then_get st s o k v s' st' :
  st !! s = Some o -> constructed o ->
  StatePy.set s k v st = (Ok s', st') ->
  (forall default, get s' k default st' = (Ok v, st'))
  /\ (forall k' default, k' <> k ->
        fst (get s' k' default st') = fst (get s k' default st))
  /\ to_dict s' st' = (Ok (dict_set k v (_data o)), st').
Proof.
  intros Hs Hc Hset.
  destruct (set_outcome st s o k v Hs Hc)
    as [(t & _ & _ & H)|[(_ & _ & H)|(_ & _ & msg & H)]];
    rewrite H in Hset; try done.
  injection Hset as <- <-.
  pose proof (lookup_lt_Some _ _ _ Hs) as Hlt.
  assert (Hn : (st ++ [{| cls := cls o; _data := dict_set k v (_data o) |}])
                 !! length st
               = Some {| cls := cls o; _data := dict_set k v (_data o) |}).
  { rewrite lookup_app_r by lia. by rewrite Nat.sub_diag. }
  split; [|split].
  - intros default. rewrite (get_spec _ _ _ k default Hn). simpl.
    by rewrite dict_get_set, String.eqb_refl.
  - intros k' default Hne.
    rewrite (get_spec _ _ _ k' default Hn), (get_spec _ _ _ k' default Hs). simpl.
    rewrite dict_get_set. by destruct (String.eqb_spec k k') as [->|].
  - by rewrite (to_dict_spec _ _ _ Hn).
Qed.

(** The values of a constructed [AgentState] and [GraphState]. *)
Lemma isinstance_list v : isinstance v Clist = true -> exists l, v = VList l.
Proof. destruct v; try done. by eexists. Qed.

Lemma isinstance_dict v : isinstance v Cdict = true -> exists d, v = VDict d.
Proof. destruct v; try done. by eexists. Qed.

Lemma isinstance_str v : isinstance v Cstr = true <-> exists s, v = VStr s.
Proof.
  split; [destruct v; try done; by eexists|]. by intros [s ->].
Qed.

Lemma isinstance_bool v : isinstance v Cbool = true -> exists b, v = VBool b.
Proof. destruct v; try done. by eexists. Qed.

(** X10. The fields of the two concrete state classes are fixed: every
    [AgentState] binds exactly [messages], [tool_calls] and
    [intermediate_steps] to lists and [is_complete] to a bool, and every
    [GraphState] binds exactly [current_node] and [next_node] to strings and
    [context] and [results] to dicts, in this order. *)
Theorem agent_and_graph_state_have_fixed_fields o :
  constructed o ->
  (cls o = AgentState ->
     exists ms tcs steps b,
       _data o = agent_data (VList ms) (VList tcs) (VList steps) (VBool b))
  /\ (cls o = GraphState ->
     exists cn nn cx rs,
       _data o = graph_data (VStr cn) (VStr nn) (VDict cx) (VDict rs)).
Proof.
  intros Hc. split; intros Hcls.
  - destruct (agent_shape o Hc Hcls) as (m & t & i & b & -> & Hv & _).
    apply agent_validate in Hv as (Hm & Ht & Hi & Hb).
    apply isinstance_list in Hm as [ms ->], Ht as [tcs ->], Hi as [steps ->].
    apply isinstance_bool in Hb as [b' ->]. by eexists _, _, _, _.
  - destruct (graph_shape o Hc Hcls) as (cn & nn & cx & rs & -> & Hv & _).
    apply graph_validate in Hv as (Hm & Ht & Hi & Hb).
    apply isinstance_str in Hm as [cn' ->], Ht as [nn' ->].
    apply isinstance_dict in Hi as [cx' ->], Hb as [rs' ->]. by eexists _, _, _, _.
Qed.

(** X11. An [AgentState] or [GraphState] cannot take a key beyond its four
    fields: [set] with any other key raises [TypeError] and changes nothing.
    A [StateSchema], or a subclass that inherits its constructor, takes every
    key but [self]. *)
Theorem set_with_foreign_key st s o k v :
  st !! s = Some o -> constructed o ->
  (cls o = AgentState -> k ∉ agent_params ->
     exists msg, StatePy.set s k v st = (Raise (TypeError msg), st))
  /\ (cls o = GraphState -> k ∉ graph_params ->
     exists msg, StatePy.set s k v st = (Raise (TypeError msg), st))
  /\ (cls o <> AgentState -> cls o <> GraphState -> k <> "self" ->
      dict_get k (get_type_hints (cls o)) = None ->
      StatePy.set s k v st =
        (Ok (length st), st ++ [{| cls := cls o; _data := dict_set k v (_data o) |}])).
Proof.
  intros Hs Hc.
  destruct (set_outcome st s o k v Hs Hc)
    as [(t & Hh & Hv & H)|[(Hvalid & Hacc & H)|(Hvalid & Hacc & msg & H)]].
  - split; [|split].
    + intros Hcls Hk. rewrite Hcls in Hh. exfalso. apply Hk.
      by apply dict_get_Some_keys in Hh.
    + intros Hcls Hk. rewrite Hcls in Hh. exfalso. apply Hk.
      by apply dict_get_Some_keys in Hh.
    + intros _ _ _ Hnone. congruence.
  - split; [|split]; try done.
    + intros Hcls Hk. rewrite Hcls in Hacc. simpl in Hacc.
      by apply bool_decide_eq_true in Hacc.
    + intros Hcls Hk. rewrite Hcls in Hacc. simpl in Hacc.
      by apply bool_decide_eq_true in Hacc.
  - split; [|split]; try (intros; by exists msg).
    intros Ha Hg Hk _. exfalso. destruct (cls o); try done; simpl in Hacc;
      by destruct (String.eqb_spec k "self").
Qed.

(** *** [update] *)

Lemma validate_fields_single_failure hints d k t v :
  NoDup hints.*1 ->
  dict_get k hints = Some t -> dict_get k d = Some v ->
  _is_valid_type v t = false ->
  (forall f t' val, f <> k -> dict_get f hints = Some t' -> dict_get f d = Some val ->
                    _is_valid_type val t' = true) ->
  validate_fields hints d = Raise (StateValidationError k t (type_of v)).
Proof.
  intros Hnd Hh Hd Hv Hothers.
  destruct (validate_fields_cases hints d) as [Hok|(f & t' & g & Hr)].
  - rewrite (validate_fields_ok hints d Hnd) in Hok.
    rewrite (Hok k t v Hh Hd) in Hv. done.
  - destruct (validate_fields_raise _ _ _ _ _ Hr) as (val & Hin & Hd' & Hv' & ->).
    pose proof (dict_get_NoDup _ _ _ Hnd Hin) as Hh'.
    destruct (decide (f = k)) as [->|Hne].
    + rewrite Hh in Hh'. injection Hh' as <-.
      rewrite Hd in Hd'. injection Hd' as <-. exact Hr.
    + rewrite (Hothers f t' val Hne Hh' Hd') in Hv'. done.
Qed.

(** X12. On a [StateSchema], or a subclass that inherits its constructor,
    [update] with one keyword is [set]: same new state, same exception. *)
Theorem update_one_keyword_is_set st s o k v :
  st !! s = Some o -> constructed o ->
  cls o <> AgentState -> cls o <> GraphState -> k <> "self" ->
  update s [(k, v)] st = StatePy.set s k v st.
Proof.
  intros Hs Hc Ha Hg Hk.
  rewrite (update_spec st s o _ Hs), (set_spec st s o k v Hs).
  unfold dict_mem. simpl. destruct (String.eqb_spec k "self") as [|_]; [done|].
  change (dict_update (_data o) [(k, v)]) with (dict_set k v (_data o)).
  destruct (dict_get k (get_type_hints (cls o))) as [t|] eqn:Hh; [|done].
  destruct (_is_valid_type v t) eqn:Hv; [done|].
  destruct (constructed_kwargs_class o Hc Ha Hg) as (Hvalid & _ & Hself & Hinit).
  rewrite new_spec, Hinit.
  2:{ rewrite dict_get_set. by destruct (String.eqb_spec k "self"). }
  unfold _validate_types.
  rewrite (validate_fields_single_failure _ _ k t v); try done.
  - apply get_type_hints_NoDup.
  - by rewrite dict_get_set, String.eqb_refl.
  - intros f t' val Hne Hh' Hd. rewrite dict_get_set in Hd.
    destruct (String.eqb_spec k f) as [|_]; [congruence|].
    by apply (proj1 (_validate_types_ok _ _) Hvalid f t' val).
Qed.

Lemma dict_get_update {V} (k : string) (d kwargs : list (string * V)) :
  NoDup kwargs.*1 ->
  dict_get k (dict_update d kwargs) =
  match dict_get k kwargs with Some v => Some v | None => dict_get k d end.
Proof.
  unfold dict_update. revert d.
  induction kwargs as [|[k0 v0] kw IH]; intros d Hnd; simpl; [done|].
  apply NoDup_cons in Hnd as [Hk0 Hnd]. rewrite (IH _ Hnd), dict_get_set.
  simpl in *. destruct (String.eqb_spec k0 k) as [->|Hne]; [|done].
  apply dict_get_None_keys in Hk0. by rewrite Hk0.
Qed.

(** X13. When [update] succeeds on a [StateSchema], or a subclass that
    inherits its constructor, the new state answers for each keyword the
    value passed and for every other key what the state answered before; the
    state it was called on is unchanged, and the result is another
    instance. *)
Theorem update_then_get st s o kwargs s' st' :
  st !! s = Some o -> constructed o ->
  cls o <> AgentState -> cls o <> GraphState ->
  NoDup kwargs.*1 ->
  update s kwargs st = (Ok s', st') ->
  s' <> s
  /\ st' !! s = Some o
  /\ forall k default,
       get s' k default st' =
       (Ok match dict_get k kwargs with
           | Some v => v
           | None => match dict_get k (_data o) with
                     | Some v => v
                     | None => default
                     end
           end, st').
Proof.
  intros Hs Hc Ha Hg Hnd. rewrite (update_spec st s o _ Hs).
  destruct (dict_mem "self" kwargs); [done|].
  rewrite new_spec.
  destruct (init_data (cls o) (dict_update (_data o) kwargs)) as [d|] eqn:Hinit; [|done].
  intros [= <- <-].
  pose proof (lookup_lt_Some _ _ _ Hs) as Hlt.
  assert (Hd : d = dict_update (_data o) kwargs).
  { revert Hinit. unfold init_data, init_args.
    destruct (bind_self _) as [[]|]; [|done].
    assert (class_args (cls o) (dict_update (_data o) kwargs)
            = Ok (dict_update (_data o) kwargs)) as -> by (by destruct (cls o)).
    destruct (_validate_types _ _) as [[]|]; [|done].
    rewrite deepcopy_dict_id. by intros [= <-]. }
  subst d. split; [lia|]. split; [by apply lookup_app_l_Some|].
  intros k default.
  rewrite (get_spec _ (length st)
             {| cls := cls o; _data := dict_update (_data o) kwargs |}).
  2:{ rewrite lookup_app_r by lia. by rewrite Nat.sub_diag. }
  simpl. rewrite (dict_get_update _ _ _ Hnd).
  by destruct (dict_get k kwargs).
Qed.

Lemma agent_init_data_any m t i b :
  init_data AgentState (agent_data m t i b) =
  match _validate_types AgentState
          (agent_data (py_or m (VList [])) (py_or t (VList []))
             (py_or i (VList [])) b) with
  | Ok _ => Ok (agent_data (py_or m (VList [])) (py_or t (VList []))
                  (py_or i (VList [])) b)
  | Raise ex => Raise ex
  end.
Proof.
  unfold init_data, init_args, class_args.
  assert (bind_self (agent_data m t i b) = Ok tt) as -> by (by vm_compute).
  assert (bind_keywords agent_params (agent_data m t i b) = Ok tt) as ->
    by (by vm_compute).
  change (arg "messages" VNone (agent_data m t i b)) with m.
  change (arg "tool_calls" VNone (agent_data m t i b)) with t.
  change (arg "intermediate_steps" VNone (agent_data m t i b)) with i.
  change (arg "is_complete" (VBool false) (agent_data m t i b)) with b.
  fold (agent_data (py_or m (VList [])) (py_or t (VList [])) (py_or i (VList [])) b).
  destruct (_validate_types AgentState _) as [[]|]; [|done].
  by rewrite deepcopy_dict_id.
Qed.

Lemma graph_init_data_any cn nn cx rs :
  init_data GraphState (graph_data cn nn cx rs) =
  match _validate_types GraphState
          (graph_data cn nn (py_or cx (VDict [])) (py_or rs (VDict []))) with
  | Ok _ => Ok (graph_data cn nn (py_or cx (VDict [])) (py_or rs (VDict [])))
  | Raise ex => Raise ex
  end.
Proof.
  unfold init_data, init_args, class_args.
  assert (bind_self (graph_data cn nn cx rs) = Ok tt) as -> by (by vm_compute).
  assert (bind_keywords graph_params (graph_data cn nn cx rs) = Ok tt) as ->
    by (by vm_compute).
  change (arg "current_node" (VStr "") (graph_data cn nn cx rs)) with cn.
  change (arg "next_node" (VStr "") (graph_data cn nn cx rs)) with nn.
  change (arg "context" VNone (graph_data cn nn cx rs)) with cx.
  change (arg "results" VNone (graph_data cn nn cx rs)) with rs.
  fold (graph_data cn nn (py_or cx (VDict [])) (py_or rs (VDict []))).
  destruct (_validate_types GraphState _) as [[]|]; [|done].
  by rewrite deepcopy_dict_id.
Qed.

(** X14. On an [AgentState], [update] does not check a container field the
    way [set] does: a value that is empty or otherwise false ([None], [0],
    the empty string, an empty dict) passed for [messages], [tool_calls] or
    [intermediate_steps] is replaced by the empty list and the update
    succeeds, while [set] raises [StateValidationError] for the same value
    unless it is a list. *)
Theorem agent_update_replaces_false_values st s o field v :
  st !! s = Some o -> constructed o -> cls o = AgentState ->
  field ∈ ["messages"; "tool_calls"; "intermediate_steps"] ->
  truthy v = false ->
  update s [(field, v)] st =
    (Ok (length st),
     st ++ [{| cls := AgentState; _data := dict_set field (VList []) (_data o) |}])
  /\ (isinstance v Clist = false ->
      StatePy.set s field v st =
        (Raise (StateValidationError field (Tclass Clist) (type_of v)), st)).
Proof.
  intros Hs Hc Hcls Hf Hv.
  destruct (agent_shape o Hc Hcls) as (m & t & i & b & Hd & Hval & _).
  pose proof (proj1 (agent_validate _ _ _ _) Hval) as (Hm & Ht & Hi & Hb).
  split.
  - rewrite (update_spec st s o _ Hs), Hcls, Hd, new_spec.
    repeat (apply elem_of_cons in Hf as [->|Hf]); [..|by apply elem_of_nil in Hf].
    + assert (dict_mem "self" [("messages", v)] = false) as -> by done.
      change (dict_update (agent_data m t i b) [("messages", v)])
        with (agent_data v t i b).
      change (dict_set "messages" (VList []) (agent_data m t i b))
        with (agent_data (VList []) t i b).
      rewrite agent_init_data_any.
      assert (py_or v (VList []) = VList []) as -> by (unfold py_or; by rewrite Hv).
      rewrite !py_or_list by done.
      by rewrite (proj2 (agent_validate (VList []) t i b)).
    + assert (dict_mem "self" [("tool_calls", v)] = false) as -> by done.
      change (dict_update (agent_data m t i b) [("tool_calls", v)])
        with (agent_data m v i b).
      change (dict_set "tool_calls" (VList []) (agent_data m t i b))
        with (agent_data m (VList []) i b).
      rewrite agent_init_data_any.
      assert (py_or v (VList []) = VList []) as -> by (unfold py_or; by rewrite Hv).
      rewrite !py_or_list by done.
      by rewrite (proj2 (agent_validate m (VList []) i b)).
    + assert (dict_mem "self" [("intermediate_steps", v)] = false) as -> by done.
      change (dict_update (agent_data m t i b) [("intermediate_steps", v)])
        with (agent_data m t v b).
      change (dict_set "intermediate_steps" (VList []) (agent_data m t i b))
        with (agent_data m t (VList []) b).
      rewrite agent_init_data_any.
      assert (py_or v (VList []) = VList []) as -> by (unfold py_or; by rewrite Hv).
      rewrite !py_or_list by done.
      by rewrite (proj2 (agent_validate m t (VList []) b)).
  - intros Hnl. rewrite (set_spec st s o field v Hs), Hcls.
    repeat (apply elem_of_cons in Hf as [->|Hf]); [..|by apply elem_of_nil in Hf];
      simpl; unfold _is_valid_type; by rewrite Hnl.
Qed.

(** *** The methods of [AgentState] and [GraphState] *)

Lemma agent_new_lists ms tcs steps b st :
  new AgentState (agent_data (VList ms) (VList tcs) (VList steps) (VBool b)) st =
  (Ok (length st),
   st ++ [{| cls := AgentState;
             _data := agent_data (VList ms) (VList tcs) (VList steps) (VBool b) |}]).
Proof.
  rewrite new_spec, agent_init_data; [done|]. by apply agent_validate.
Qed.

Lemma graph_new_values cn nn cx rs st :
  new GraphState (graph_data (VStr cn) (VStr nn) (VDict cx) (VDict rs)) st =
  (Ok (length st),
   st ++ [{| cls := GraphState;
             _data := graph_data (VStr cn) (VStr nn) (VDict cx) (VDict rs) |}]).
Proof.
  rewrite new_spec, graph_init_data; [done|]. by apply graph_validate.
Qed.

(** X15. The three adders of [AgentState] append: on an [AgentState] they
    always succeed and return a new instance whose list has the new item at
    the end (the message [{role, content}], the call [{tool, args}], the
    step itself) and whose other fields are those of the state; role, content
    and the rest are stored as they come, whatever their type. *)
Theorem agent_state_adders_append st s ms tcs steps b :
  st !! s = Some {| cls := AgentState;
                    _data := agent_data (VList ms) (VList tcs) (VList steps) (VBool b) |} ->
  (forall role content,
      add_message s role content st =
        (Ok (length st),
         st ++ [{| cls := AgentState;
                   _data := agent_data
                     (VList (ms ++ [VDict [("role", role); ("content", content)]]))
                     (VList tcs) (VList steps) (VBool b) |}]))
  /\ (forall tool_name tool_args,
      add_tool_call s tool_name tool_args st =
        (Ok (length st),
         st ++ [{| cls := AgentState;
                   _data := agent_data (VList ms)
                     (VList (tcs ++ [VDict [("tool", tool_name); ("args", tool_args)]]))
                     (VList steps) (VBool b) |}]))
  /\ (forall step,
      add_intermediate_step s step st =
        (Ok (length st),
         st ++ [{| cls := AgentState;
                   _data := agent_data (VList ms) (VList tcs)
                     (VList (steps ++ [step])) (VBool b) |}])).
Proof.
  intros Hs. repeat apply conj.
  - intros role content. unfold add_message, messages, bind at 1.
    rewrite (get_spec st s _ "messages" (VList []) Hs). simpl.
    unfold bind at 1, lift; simpl. rewrite (update_spec st s _ _ Hs). simpl.
    apply agent_new_lists.
  - intros tool_name tool_args. unfold add_tool_call, tool_calls, bind at 1.
    rewrite (get_spec st s _ "tool_calls" (VList []) Hs). simpl.
    unfold bind at 1, lift; simpl. rewrite (update_spec st s _ _ Hs). simpl.
    apply agent_new_lists.
  - intros step. unfold add_intermediate_step, intermediate_steps, bind at 1.
    rewrite (get_spec st s _ "intermediate_steps" (VList []) Hs). simpl.
    unfold bind at 1, lift; simpl. rewrite (update_spec st s _ _ Hs). simpl.
    apply agent_new_lists.
Qed.

(** X16. [add_context] and [add_result] of [GraphState] bind one key in the
    dict and keep the rest: on a [GraphState] they always succeed and return
    a new instance whose [context] (or [results]) is the old one with the key
    rebound in place, or added at the end, and whose other fields are those
    of the state. *)
Theorem graph_state_adders_bind st s cn nn cx rs :
  st !! s = Some {| cls := GraphState;
                    _data := graph_data (VStr cn) (VStr nn) (VDict cx) (VDict rs) |} ->
  (forall key value,
      add_context s key value st =
        (Ok (length st),
         st ++ [{| cls := GraphState;
                   _data := graph_data (VStr cn) (VStr nn)
                              (VDict (dict_set key value cx)) (VDict rs) |}]))
  /\ (forall key value,
      add_result s key value st =
        (Ok (length st),
         st ++ [{| cls := GraphState;
                   _data := graph_data (VStr cn) (VStr nn) (VDict cx)
                              (VDict (dict_set key value rs)) |}])).
Proof.
  intros Hs. split.
  - intros key value. unfold add_context, context, bind at 1.
    rewrite (get_spec st s _ "context" (VDict []) Hs). simpl.
    unfold bind at 1, lift; simpl. rewrite (update_spec st s _ _ Hs). simpl.
    apply graph_new_values.
  - intros key value. unfold add_result, results, bind at 1.
    rewrite (get_spec st s _ "results" (VDict []) Hs). simpl.
    unfold bind at 1, lift; simpl. rewrite (update_spec st s _ _ Hs). simpl.
    apply graph_new_values.
Qed.

(** X17. [set_current_node] and [set_next_node] of [GraphState] succeed
    exactly on a string: a string is stored in the field and nothing else
    changes; any other value raises [StateValidationError] for that field
    and no instance is created. *)
Theorem graph_state_node_setters st s cn nn cx rs v :
  st !! s = Some {| cls := GraphState;
                    _data := graph_data (VStr cn) (VStr nn) (VDict cx) (VDict rs) |} ->
  (forall name, v = VStr name ->
      set_current_node s v st =
        (Ok (length st),
         st ++ [{| cls := GraphState;
                   _data := graph_data (VStr name) (VStr nn) (VDict cx) (VDict rs) |}])
      /\ set_next_node s v st =
        (Ok (length st),
         st ++ [{| cls := GraphState;
                   _data := graph_data (VStr cn) (VStr name) (VDict cx) (VDict rs) |}]))
  /\ (isinstance v Cstr = false ->
      set_current_node s v st =
        (Raise (StateValidationError "current_node" (Tclass Cstr) (type_of v)), st)
      /\ set_next_node s v st =
        (Raise (StateValidationError "next_node" (Tclass Cstr) (type_of v)), st)).
Proof.
  intros Hs. split.
  - intros name ->. split.
    + unfold set_current_node. rewrite (update_spec st s _ _ Hs). simpl.
      apply graph_new_values.
    + unfold set_next_node. rewrite (update_spec st s _ _ Hs). simpl.
      apply graph_new_values.
  - intros Hv. split.
    + unfold set_current_node. rewrite (update_spec st s _ _ Hs).
      assert (dict_mem "self" [("current_node", v)] = false) as -> by done.
      unfold cls, _data.
      change (dict_update
                (graph_data (VStr cn) (VStr nn) (VDict cx) (VDict rs))
                [("current_node", v)])
        with (graph_data v (VStr nn) (VDict cx) (VDict rs)).
      rewrite new_spec, graph_init_data_any.
      unfold _validate_types. simpl. by rewrite Hv.
    + unfold set_next_node. rewrite (update_spec st s _ _ Hs).
      assert (dict_mem "self" [("next_node", v)] = false) as -> by done.
      unfold cls, _data.
      change (dict_update
                (graph_data (VStr cn) (VStr nn) (VDict cx) (VDict rs))
                [("next_node", v)])
        with (graph_data (VStr cn) v (VDict cx) (VDict rs)).
      rewrite new_spec, graph_init_data_any.
      unfold _validate_types. simpl. by rewrite Hv.
Qed.

(** *** Equality *)

Lemma list_eqb_trans (l1 : list pyval) : forall l2 l3,
  Forall (fun x => forall y z : pyval, py_eq x y = true -> py_eq y z = true ->
                                       py_eq x z = true) l1 ->
  list_eqb py_eq l1 l2 = true -> list_eqb py_eq l2 l3 = true ->
  list_eqb py_eq l1 l3 = true.
Proof.
  induction l1 as [|x l1 IH]; intros [|y l2] [|z l3] Hall; simpl; try done.
  apply Forall_cons in Hall as [Hx Hall].
  intros H12 H23.
  apply andb_true_iff in H12 as [Hxy H12], H23 as [Hyz H23].
  by rewrite (Hx y z Hxy Hyz), (IH l2 l3 Hall H12 H23).
Qed.

Lemma py_eq_trans (a : pyval) : forall b c' : pyval,
  py_eq a b = true -> py_eq b c' = true -> py_eq a c' = true.
Proof.
  induction a as [|x|x|x|l1 IH|d1 IH] using pyval_induction;
    intros b c'; destruct b as [|y|y|y|l2|d2]; simpl; try done;
    destruct c' as [|z|z|z|l3|d3]; simpl; try done.
  all: try (intros H1 H2;
    try apply Bool.eqb_prop in H1; try apply Bool.eqb_prop in H2;
    try apply Z.eqb_eq in H1; try apply Z.eqb_eq in H2;
    try apply String.eqb_eq in H1; try apply String.eqb_eq in H2;
    first [apply Z.eqb_eq | apply String.eqb_eq | apply Bool.eqb_true_iff];
    repeat match goal with x : bool |- _ => destruct x end;
    simpl in *; first [congruence | lia]).
  - by apply list_eqb_trans.
  - change (py_eq (VDict d1) (VDict d2) = true -> py_eq (VDict d2) (VDict d3) = true ->
            py_eq (VDict d1) (VDict d3) = true).
    rewrite !py_eq_dict. intros H12 H23.
    apply andb_true_iff in H12 as [Hl12 H12], H23 as [Hl23 H23].
    apply Nat.eqb_eq in Hl12. apply Nat.eqb_eq in Hl23.
    apply andb_true_iff. split; [apply Nat.eqb_eq; lia|].
    rewrite dict_le_spec in *. intros k v1 Hin1.
    destruct (H12 k v1 Hin1) as (v2 & Hget2 & He12).
    destruct (H23 k v2 (dict_get_elem_of _ _ _ Hget2)) as (v3 & Hget3 & He23).
    exists v3. split; [done|].
    rewrite Forall_forall in IH. by apply (IH (k, v1) Hin1 v2 v3).
Qed.

(** X18. [==] is an equivalence on states: every state equals itself, and
    two states equal to a third are equal (symmetry is part of C8). *)
Theorem state_equality_is_an_equivalence st (a b c : ref) oa ob oc :
  st !! a = Some oa -> st !! b = Some ob -> st !! c = Some oc ->
  constructed oa ->
  eq_op a a st = (Ok true, st)
  /\ (fst (eq_op a b st) = Ok true -> fst (eq_op b c st) = Ok true ->
      fst (eq_op a c st) = Ok true).
Proof.
  intros Ha Hb Hc Hca. split.
  - rewrite (eq_op_spec st a a oa oa Ha Ha).
    rewrite (bool_decide_eq_true_2 _ eq_refl). unfold dict_eq.
    by rewrite (py_eq_refl _ (constructed_wf oa Hca)).
  - rewrite (eq_op_spec st a b oa ob Ha Hb), (eq_op_spec st b c ob oc Hb Hc),
      (eq_op_spec st a c oa oc Ha Hc). simpl.
    intros [= H1] [= H2].
    apply andb_true_iff in H1 as [Hc1 Hd1], H2 as [Hc2 Hd2].
    apply bool_decide_eq_true in Hc1. apply bool_decide_eq_true in Hc2.
    rewrite (bool_decide_eq_true_2 (cls oa = cls oc)) by congruence.
    unfold dict_eq in *. by rewrite (py_eq_trans _ _ _ Hd1 Hd2).
Qed.

End StateMore.

(** * Facts about the edge conditions *)

Section EdgeFacts.
Import StatePy GraphPy EdgesPy.
Implicit Types (o : obj) (key : string).

(** [state_get] is what [StateSchema.get] returns. *)
Lemma state_get_get (st : store) (s : ref) o key default :
  st !! s = Some o -> get s key default st = (Ok (state_get o key default), st).
Proof. intros H. by rewrite (get_spec st s o key default H). Qed.

Lemma has_key_false key o : has_key key o = false -> dict_get key (_data o) = None.
Proof.
  unfold has_key, dict_mem. rewrite deepcopy_dict_id.
  by destruct (dict_get key (_data o)).
Qed.

Lemma has_key_true key o :
  has_key key o = true -> exists v, dict_get key (_data o) = Some v.
Proof.
  unfold has_key, dict_mem. rewrite deepcopy_dict_id.
  destruct (dict_get key (_data o)) as [v|]; [by exists v|done].
Qed.

Lemma py_eq_None_l v : py_eq VNone v = true <-> v = VNone.
Proof. by destruct v. Qed.

Lemma py_eq_None_r v : py_eq v VNone = true <-> v = VNone.
Proof. by destruct v. Qed.

Lemma filter_other_source {St} (es : list (Edge St)) (n : string) :
  Forall (fun e => source e <> n) es ->
  List.filter (fun e => String.eqb (source e) n) es = [].
Proof.
  induction 1 as [|e es He _ IH]; [done|]. simpl.
  by destruct (String.eqb_spec (source e) n).
Qed.

(** The targets [get_next_nodes] returns when the edges out of [n] are the
    block [es] somewhere in the edge list. *)
Lemma next_nodes_of_block {St} (w : world St) (n : string) (s : St)
    (es1 es es2 : list (Edge St)) :
  edges (self w) = es1 ++ es ++ es2 ->
  Forall (fun e => source e <> n) (es1 ++ es2) ->
  Forall (fun e => source e = n) es ->
  fst (get_next_nodes n s w) =
    Ok (map target (List.filter (fun e => should_follow_pure e s) es)).
Proof.
  intros Hes Hother Hblock. rewrite get_next_nodes_spec. simpl.
  unfold qualifying, outgoing. rewrite Hes, !List.filter_app.
  apply Forall_app in Hother as [H1 H2].
  rewrite (filter_other_source es1 n H1), (filter_other_source es2 n H2).
  rewrite app_nil_r. simpl. do 3 f_equal.
  clear Hes. induction Hblock as [|e es' He _ IH]; [done|].
  simpl. by rewrite He, String.eqb_refl, IH.
Qed.

(** X19. [logical_and] holds exactly when every condition holds and
    [logical_or] exactly when some condition holds, so that without any
    condition the first is true and the second false; negation exchanges the
    two, and negating twice gives the condition back. *)
Theorem logical_combinators {St} (conditions : list (St -> bool))
    (c : St -> bool) (s : St) :
  (logical_and conditions s = true <-> Forall (fun cond => cond s = true) conditions)
  /\ (logical_or conditions s = true <-> Exists (fun cond => cond s = true) conditions)
  /\ logical_not (logical_and conditions) s
     = logical_or (map logical_not conditions) s
  /\ logical_not (logical_or conditions) s
     = logical_and (map logical_not conditions) s
  /\ logical_not (logical_not c) s = c s.
Proof.
  unfold logical_and, logical_or, logical_not.
  split; [|split; [|split; [|split]]].
  - rewrite forallb_forall, List.Forall_forall. done.
  - rewrite existsb_exists, List.Exists_exists. done.
  - induction conditions as [|cond cs IH]; [done|].
    simpl. rewrite negb_andb. by rewrite IH.
  - induction conditions as [|cond cs IH]; [done|].
    simpl. rewrite negb_orb. by rewrite IH.
  - apply negb_involutive.
Qed.

(** X20. Where the edges out of a node are the two of [EdgeBuilder.branch],
    [get_next_nodes] returns exactly one target on every state: the true
    target where the condition holds, the false target where it does not. *)
Theorem branch_follows_exactly_one_edge {St} (w : world St)
    (src true_target false_target : string) (c : St -> bool)
    (es1 es2 : list (Edge St)) (s : St) :
  edges (self w) = es1 ++ branch src true_target false_target c ++ es2 ->
  Forall (fun e => source e <> src) (es1 ++ es2) ->
  fst (get_next_nodes src s w) = Ok [if c s then true_target else false_target].
Proof.
  intros Hes Hother.
  rewrite (next_nodes_of_block w src s es1 _ es2 Hes Hother)
    by (by repeat constructor).
  unfold branch, should_follow_pure, logical_not. simpl.
  by destruct (c s).
Qed.

Lemma switch_sources (src : string) cases default :
  Forall (fun e : Edge obj => source e = src) (switch src cases default).
Proof.
  assert (Forall (fun e : Edge obj => source e = src)
            (map (fun case : pyval * string =>
                    {| source := src; target := case.2;
                       condition := Some (key_equals "switch_value" case.1) |})
                 cases)) as Hcases.
  { induction cases as [|case cases IH]; by constructor. }
  unfold switch. destruct default as [d|]; [|done].
  destruct (negb (String.eqb d "")); [|done].
  apply Forall_app. split; [done|]. by repeat constructor.
Qed.

Lemma switch_case_targets (src : string) (cases : list (pyval * string)) o :
  map target
    (List.filter (fun e : Edge obj => should_follow_pure e o)
       (map (fun case : pyval * string =>
               {| source := src; target := case.2;
                  condition := Some (key_equals "switch_value" case.1) |})
            cases))
  = map snd (List.filter
               (fun case => py_eq (state_get o "switch_value" VNone) case.1) cases).
Proof.
  induction cases as [|case cases IH]; [done|].
  simpl. unfold should_follow_pure at 1. simpl. unfold key_equals at 1.
  destruct (py_eq _ _); simpl; by rewrite IH.
Qed.

(** X21. Where the edges out of a node are those of [EdgeBuilder.switch],
    [get_next_nodes] returns the targets of the cases whose value equals what
    the state binds to [switch_value], in the order of the cases, and then
    the default when one is given and not empty. A run therefore moves to the
    first matching case, and to the default only when no case matches. *)
Theorem switch_follows_first_matching_case (w : world obj) (src : string)
    (cases : list (pyval * string)) (default : option string)
    (es1 es2 : list (Edge obj)) o :
  edges (self w) = es1 ++ switch src cases default ++ es2 ->
  Forall (fun e => source e <> src) (es1 ++ es2) ->
  fst (get_next_nodes src o w) =
    Ok (map snd (List.filter
                   (fun case => py_eq (state_get o "switch_value" VNone) case.1)
                   cases)
        ++ match default with
           | Some d => if String.eqb d "" then [] else [d]
           | None => []
           end).
Proof.
  intros Hes Hother.
  rewrite (next_nodes_of_block w src o es1 _ es2 Hes Hother)
    by apply switch_sources.
  f_equal. unfold switch. destruct default as [d|].
  - destruct (String.eqb d ""); simpl.
    + by rewrite switch_case_targets, app_nil_r.
    + by rewrite List.filter_app, map_app, switch_case_targets.
  - by rewrite switch_case_targets, app_nil_r.
Qed.

(** X22. On a state that does not bind the key, [key_equals] holds for
    [None] and for nothing else, [value_in_list] holds exactly when [None] is
    in the list, and [key_exists_and_true], [numeric_condition],
    [string_contains] and [string_starts_with] are false. *)
Theorem conditions_on_a_missing_key key o :
  has_key key o = false ->
  (forall v, key_equals key v o = true <-> v = VNone)
  /\ (forall vs, value_in_list key vs o = true <-> VNone ∈ vs)
  /\ key_exists_and_true key o = false
  /\ (forall operator value, numeric_condition key operator value o = false)
  /\ (forall sub, string_contains key sub o = false)
  /\ (forall p, string_starts_with key p o = false).
Proof.
  intros H. apply has_key_false in H.
  unfold key_equals, value_in_list, key_exists_and_true, numeric_condition,
    string_contains, string_starts_with, state_get.
  rewrite H. split; [|split; [|by repeat split]].
  - intros v. apply py_eq_None_l.
  - intros vs. rewrite existsb_exists. split.
    + intros (x & Hin & Hx). apply py_eq_None_r in Hx. subst x.
      by apply list_elem_of_In.
    + intros Hin. exists VNone. split; [by apply list_elem_of_In|done].
Qed.

(** X23. [numeric_condition] with an int bound, on the values of the model
    (floats are not among them). When the value under the key is an int, or
    a bool, which counts as the int 0 or 1, each operator compares it with
    the bound, so that [>] and [<=], [<] and [>=], [==] and [!=] are each
    other's negation. When the key is missing, or the value is [None], a
    string, a list or a dict, every operator is false, [!=] included. An
    operator outside the six is false on every state. *)
Theorem numeric_condition_cases key (value : Z) o :
  (forall n,
     state_get o key VNone = VInt n
     \/ (exists b, state_get o key VNone = VBool b /\ n = Z.b2z b) ->
     numeric_condition key ">" value o = (value <? n)%Z
     /\ numeric_condition key ">=" value o = (value <=? n)%Z
     /\ numeric_condition key "<" value o = (n <? value)%Z
     /\ numeric_condition key "<=" value o = (n <=? value)%Z
     /\ numeric_condition key "==" value o = (n =? value)%Z
     /\ numeric_condition key "!=" value o = negb (n =? value)%Z
     /\ numeric_condition key ">" value o
        = negb (numeric_condition key "<=" value o)
     /\ numeric_condition key "<" value o
        = negb (numeric_condition key ">=" value o)
     /\ numeric_condition key "!=" value o
        = negb (numeric_condition key "==" value o))
  /\ (state_get o key VNone = VNone
      \/ (exists s, state_get o key VNone = VStr s)
      \/ (exists l, state_get o key VNone = VList l)
      \/ (exists d, state_get o key VNone = VDict d) ->
      forall operator, numeric_condition key operator value o = false)
  /\ (forall operator,
        operator ∉ [">"; ">="; "<"; "<="; "=="; "!="] ->
        numeric_condition key operator value o = false).
Proof.
  unfold numeric_condition. split; [|split].
  - intros n Hn.
    assert (as_number (state_get o key VNone) = Some n) as ->.
    { destruct Hn as [->|(b & -> & ->)]; reflexivity. }
    simpl. repeat split.
    + by rewrite Z.leb_antisym, negb_involutive.
    + by rewrite Z.leb_antisym, negb_involutive.
  - by intros [->|[(s & ->)|[(l & ->)|(d & ->)]]].
  - intros operator Hop. destruct (as_number _); [|done].
    repeat match goal with
    | |- context [String.eqb operator ?x] =>
        destruct (String.eqb_spec operator x);
        [subst operator; exfalso; apply Hop; set_solver|]
    end. done.
Qed.

Lemma prefix_index (p s : string) :
  String.prefix p s = true -> String.index 0 p s = Some 0.
Proof.
  destruct s as [|a s]; intros H.
  - destruct p; [done|]. by simpl in H.
  - change (String.index 0 p (String a s))
      with (if String.prefix p (String a s) then Some 0
            else match String.index 0 p s with
                 | Some n => Some (S n)
                 | None => None
                 end).
    by rewrite H.
Qed.

(** X24. A state whose value under the key starts with a string also
    contains it; both conditions are false on a value that is not a string,
    and every string value starts with, and contains, the empty string. *)
Theorem string_starts_with_implies_contains key (p : string) o :
  (string_starts_with key p o = true -> string_contains key p o = true)
  /\ ((forall s, state_get o key VNone <> VStr s) ->
        string_starts_with key p o = false /\ string_contains key p o = false)
  /\ (forall s, state_get o key VNone = VStr s ->
        string_starts_with key "" o = true /\ string_contains key "" o = true).
Proof.
  unfold string_starts_with, string_contains. split; [|split].
  - destruct (state_get o key VNone); try done.
    intros H. by rewrite (prefix_index _ _ H).
  - intros H. destruct (state_get o key VNone) as [| | |s| |]; try done.
    by destruct (H s).
  - intros s ->. by destruct s.
Qed.

(** X25. On an [AgentState] that a constructor call made, [has_messages] and
    [has_tool_calls] never raise: they compare the lengths of the lists the
    state binds to [messages] and [tool_calls]. On an instance of another
    class they are false, whatever it binds. *)
Theorem agent_conditions_count_the_lists o :
  constructed o ->
  (cls o = AgentState ->
     exists ms tcs,
       state_get o "messages" VNone = VList ms
       /\ state_get o "tool_calls" VNone = VList tcs
       /\ (forall min_count,
             has_messages min_count o = Ok (min_count <=? Z.of_nat (length ms))%Z)
       /\ has_tool_calls o = Ok (negb (Nat.eqb (length tcs) 0)))
  /\ (cls o <> AgentState ->
      (forall min_count, has_messages min_count o = Ok false)
      /\ has_tool_calls o = Ok false).
Proof.
  intros Hc. split; intros Hcls.
  - destruct (agent_shape o Hc Hcls) as (m & t & i & b & Hd & Hv & _).
    apply agent_validate in Hv as (Hm & Ht & _ & _).
    apply isinstance_list in Hm as [ms ->], Ht as [tcs ->].
    exists ms, tcs. unfold has_messages, has_tool_calls, state_get.
    rewrite Hd, Hcls. repeat split. simpl. f_equal.
    by destruct tcs.
  - unfold has_messages, has_tool_calls, issubclass.
    rewrite (bool_decide_eq_false_2 (cls o = AgentState)) by done.
    done.
Qed.

End EdgeFacts.

(** * Facts about the agent graph, the strategies and the graph cache *)

Section AgentFacts.
Import StatePy GraphPy SimpleAgentPy.

(** An iteration that runs its node and finds a qualifying edge. *)
Lemma loop_body_moves {St} (l : locals St) (w : world St) node st e es :
  current_node l ∉ visited_nodes l ->
  dict_get (current_node l) (nodes (self w)) = Some node ->
  func node (current_state l) = Ok st ->
  qualifying (self w) (current_node l) st = e :: es ->
  loop_body l w =
    (Ok (Continue (moved l st (target e))), logged w (step_calls w l node st)).
Proof.
  intros Hnv Hget Hf Hq. rewrite loop_body_spec.
  destruct (decide _); [done|]. by rewrite Hget, Hf, Hq.
Qed.

(** An iteration that runs its node and finds no qualifying edge. *)
Lemma loop_body_stops {St} (l : locals St) (w : world St) node st :
  current_node l ∉ visited_nodes l ->
  dict_get (current_node l) (nodes (self w)) = Some node ->
  func node (current_state l) = Ok st ->
  qualifying (self w) (current_node l) st = [] ->
  loop_body l w =
    (Ok (Break (moved l st (current_node l))), logged w (step_calls w l node st)).
Proof.
  intros Hnv Hget Hf Hq. rewrite loop_body_spec.
  destruct (decide _); [done|]. by rewrite Hget, Hf, Hq.
Qed.

Lemma create_graph_spec name (m : methods) (htc : obj -> bool) :
  create_graph name m htc =
  Ok {| graph_name := name +:+ "_graph";
        nodes :=
          [("input", {| node_name := "input"; func := _create_input_node m |});
           ("analyze", {| node_name := "analyze"; func := _analyze_input m |});
           ("use_tool", {| node_name := "use_tool"; func := _use_tool_node m |});
           ("respond", {| node_name := "respond"; func := _respond_node m |});
           ("check_complete",
            {| node_name := "check_complete"; func := _check_complete_node m |});
           ("output", {| node_name := "output"; func := _create_output_node m |})];
        edges :=
          [{| source := "input"; target := "analyze"; condition := None |};
           {| source := "analyze"; target := "use_tool"; condition := Some htc |};
           {| source := "analyze"; target := "respond";
              condition := Some (EdgesPy.logical_not htc) |};
           {| source := "use_tool"; target := "respond"; condition := None |};
           {| source := "respond"; target := "check_complete"; condition := None |};
           {| source := "check_complete"; target := "output";
              condition := Some is_complete_condition |};
           {| source := "check_complete"; target := "analyze";
              condition := Some (EdgesPy.logical_not is_complete_condition) |}];
        entry_point := Some "input" |}.
Proof. reflexivity. Qed.

Ltac run_node Hf :=
  erewrite while_loop_step;
  [|eapply loop_body_moves; [simpl; set_solver|reflexivity|exact Hf|reflexivity]].

(** X26. The graph [SimpleAgent.create_graph] builds passes [validate]
    without an issue, and a run whose node functions return goes through
    [input], [analyze], [use_tool] when the tool-call condition holds,
    [respond], [check_complete] and [output] once each and returns the state
    of [output]: the edge from [check_complete] back to [analyze] never
    qualifies, whatever [is_complete] the state binds, because [is_complete]
    is passed as the condition itself and answers with a function. *)
Theorem simple_agent_graph_is_one_pass name (m : methods) (htc : obj -> bool)
    (s0 s1 s2 s3 s4 s5 s6 : obj) :
  _create_input_node m s0 = Ok s1 ->
  _analyze_input m s1 = Ok s2 ->
  (if htc s2 then _use_tool_node m s2 else Ok s2) = Ok s3 ->
  _respond_node m s3 = Ok s4 ->
  _check_complete_node m s4 = Ok s5 ->
  _create_output_node m s5 = Ok s6 ->
  exists g cs,
    create_graph name m htc = Ok g
    /\ issues_of g = Ok []
    /\ (forall s, qualifying g "check_complete" s
                  = [{| source := "check_complete"; target := "output";
                        condition := Some is_complete_condition |}])
    /\ execute s0 {| self := g; calls := [] |}
       = (Ok (Some s6), {| self := g; calls := cs |})
    /\ called_names cs
       = ["input"; "analyze"] ++ (if htc s2 then ["use_tool"] else [])
         ++ ["respond"; "check_complete"; "output"].
Proof.
  intros H1 H2 H3 H4 H5 H6.
  destruct (htc s2) eqn:Hh.
  - eexists _, _. split; [apply create_graph_spec|].
    split; [by vm_compute|]. split; [done|].
    rewrite execute_unfold, execute_fuel_spec.
    cbn [entry_point self nodes length].
    run_node H1.
    erewrite while_loop_step;
      [|eapply loop_body_moves; [simpl; set_solver|reflexivity|exact H2|]];
      [|cbn; rewrite Hh; reflexivity].
    run_node H3. run_node H4. run_node H5.
    simpl while_loop. unfold bind at 1.
    erewrite loop_body_stops; [|simpl; set_solver|reflexivity|exact H6|reflexivity].
    simpl. split; [reflexivity|]. reflexivity.
  - injection H3 as <-.
    eexists _, _. split; [apply create_graph_spec|].
    split; [by vm_compute|]. split; [done|].
    rewrite execute_unfold, execute_fuel_spec.
    cbn [entry_point self nodes length].
    run_node H1.
    erewrite while_loop_step;
      [|eapply loop_body_moves; [simpl; set_solver|reflexivity|exact H2|]];
      [|cbn; unfold EdgesPy.logical_not; rewrite Hh; reflexivity].
    run_node H4. run_node H5.
    simpl while_loop. unfold bind at 1.
    erewrite loop_body_stops; [|simpl; set_solver|reflexivity|exact H6|reflexivity].
    simpl. split; [reflexivity|]. reflexivity.
Qed.

End AgentFacts.

Section StrategyFacts.
Import StrategyPy.

Lemma names_strategy_spec (name : string) :
  names_strategy (Some name) = true <-> name ∈ strategy_names.
Proof.
  unfold names_strategy, strategy_names. simpl. split.
  - intros H. apply andb_prop in H as [_ H].
    repeat match type of H with
    | (String.eqb name ?x || _) = true =>
        destruct (String.eqb_spec name x); [subst name; set_solver|simpl in H]
    end. done.
  - intros H. repeat (apply elem_of_cons in H as [->|H]; [done|]).
    by apply elem_of_nil in H.
Qed.

Lemma names_strategy_false (name : string) :
  names_strategy (Some name) = false <-> name ∉ strategy_names.
Proof.
  rewrite <- names_strategy_spec. by destruct (names_strategy (Some name)).
Qed.

Lemma select_strategy_named (self : StrategySelector) (name : string)
    (header : option string) (complexity : option Z) :
  name ∈ strategy_names ->
  select_strategy self (Some name) header complexity = name.
Proof.
  intros Hn. unfold select_strategy.
  by rewrite (proj2 (names_strategy_spec name) Hn).
Qed.

(** X27. [select_strategy] returns one of the three strategy names or the
    configured default, which no level checks. A name on the request wins
    over everything else, then a name on the header; a request or header
    value that is no strategy name is passed over. Without either, the
    complexity decides only when automatic switching is on and the
    complexity is given and not 0: below 3, negative values included, it
    selects [traditional], from 3 on [compiled]. *)
Theorem select_strategy_levels (self : StrategySelector)
    (request header : option string) (complexity : option Z) :
  (select_strategy self request header complexity ∈ strategy_names
   \/ select_strategy self request header complexity = default_strategy self)
  /\ (forall name, name ∈ strategy_names ->
        select_strategy self (Some name) header complexity = name)
  /\ (forall name, names_strategy request = false -> name ∈ strategy_names ->
        select_strategy self request (Some name) complexity = name)
  /\ (names_strategy request = false -> names_strategy header = false ->
      (forall c, enable_auto_switch self = true -> complexity = Some c ->
                 c <> 0%Z ->
                 select_strategy self request header complexity
                 = if (c <? 3)%Z then "traditional" else "compiled")
      /\ (enable_auto_switch self = false \/ complexity = None
          \/ complexity = Some 0%Z ->
          select_strategy self request header complexity = default_strategy self)).
Proof.
  split; [|split; [|split]].
  - unfold select_strategy.
    destruct (names_strategy request) eqn:Hr.
    { destruct request as [r|]; [|done]. left. by apply names_strategy_spec. }
    destruct (names_strategy header) eqn:Hh.
    { destruct header as [h|]; [|done]. left. by apply names_strategy_spec. }
    destruct (enable_auto_switch self && _); [|by right].
    left. simpl. unfold strategy_names.
    destruct (7 <? _)%Z; [set_solver|]. destruct (_ <? 3)%Z; set_solver.
  - intros name Hn. by apply select_strategy_named.
  - intros name Hr Hn. unfold select_strategy.
    by rewrite Hr, (proj2 (names_strategy_spec name) Hn).
  - intros Hr Hh. unfold select_strategy. rewrite Hr, Hh. split.
    + intros c -> -> Hc. simpl.
      rewrite (proj2 (Z.eqb_neq c 0) Hc). simpl.
      destruct (Z.ltb_spec 7 c), (Z.ltb_spec c 3); try done. lia.
    + intros [Hoff | [-> | ->]];
        [by rewrite Hoff|by rewrite andb_false_r|by rewrite andb_false_r].
Qed.

(** X28. [AgentCompiler.compile] and [StrategySelector.create_strategy]
    build the same strategy for a strategy name given on the request:
    traditional for [traditional], compiled with the default cache size for
    [compiled] and [auto]. They differ on any other name: [compile] raises
    [ValueError], while [create_strategy], when the selection is such a name
    (only the configured default can be), builds the traditional strategy
    without complaint. *)
Theorem compile_agrees_with_create_strategy (self : StrategySelector)
    (name : string) (header : option string) (complexity : option Z) :
  (name ∈ strategy_names ->
     compile name = Ok (create_strategy self (Some name) header complexity)
     /\ create_strategy self (Some name) header complexity
        = if String.eqb name "traditional" then TraditionalStrategy
          else CompiledStrategy 50)
  /\ (name ∉ strategy_names ->
      (exists msg, compile name = Raise (ValueError msg))
      /\ (forall request,
          select_strategy self request header complexity = name ->
          create_strategy self request header complexity = TraditionalStrategy)).
Proof.
  split.
  - intros Hn. unfold create_strategy.
    rewrite (select_strategy_named self name header complexity Hn).
    unfold strategy_names in Hn.
    repeat (apply elem_of_cons in Hn as [->|Hn]; [done|]).
    by apply elem_of_nil in Hn.
  - intros Hn. unfold strategy_names in Hn. split.
    + unfold compile.
      repeat match goal with
      | |- context [String.eqb name ?x] =>
          destruct (String.eqb_spec name x); [subst name; set_solver|]
      end. by eexists.
    + intros request Hsel. unfold create_strategy. rewrite Hsel.
      repeat match goal with
      | |- context [String.eqb name ?x] =>
          destruct (String.eqb_spec name x); [subst name; set_solver|]
      end. done.
Qed.

End StrategyFacts.

Section CacheFacts.
Import GraphPy CachePy.
Context {St Agent : Type}.
Variable _generate_key : Agent -> string.
Implicit Types (c : GraphCache (St := St)) (a : Agent) (g : Graph St).


Lemma dict_set_length {V} (k : string) (v : V) (d : list (string * V)) :
  length (dict_set k v d) = if dict_mem k d then length d else S (length d).
Proof.
  unfold dict_mem. destruct (dict_get k d) as [w|] eqn:Hget.
  - rewrite <- (length_fmap fst), (dict_set_keys_present k v w d Hget).
    by rewrite length_fmap.
  - rewrite (dict_set_absent k v d Hget), length_app. simpl. lia.
Qed.

(** X29. [get] after [set] returns the graph just cached, whatever the cache
    held. A [set] on a cache that has reached its maximum size first drops
    every entry, so that the graphs of all other agents are gone; below the
    maximum it leaves them as they were. The cache never grows beyond its
    maximum size, or beyond one entry when the maximum is below one. *)
Theorem cache_set_then_get c a g :
  CachePy.get _generate_key a (CachePy.set _generate_key a g c).2 = Some g
  /\ (forall a', _generate_key a' <> _generate_key a ->
        CachePy.get _generate_key a' (CachePy.set _generate_key a g c).2
        = if (_max_size c <=? Z.of_nat (length (_cache c)))%Z then None
          else CachePy.get _generate_key a' c)
  /\ _max_size (CachePy.set _generate_key a g c).2 = _max_size c
  /\ ((Z.of_nat (length (_cache c)) <= Z.max 1 (_max_size c))%Z ->
      (Z.of_nat (length (_cache (CachePy.set _generate_key a g c).2))
       <= Z.max 1 (_max_size c))%Z).
Proof.
  unfold CachePy.get, CachePy.set. simpl.
  split; [|split; [|split]].
  - by rewrite dict_get_set, String.eqb_refl.
  - intros a' Hne. rewrite dict_get_set.
    destruct (String.eqb_spec (_generate_key a) (_generate_key a')); [congruence|].
    by destruct (_ <=? _)%Z.
  - by destruct (_ <=? _)%Z.
  - intros Hle. rewrite dict_set_length.
    destruct (Z.leb_spec (_max_size c) (Z.of_nat (length (_cache c)))); simpl.
    + lia.
    + destruct (dict_mem _ _); lia.
Qed.

(** X30. [is_valid] never lets an exception of [validate] through, and the
    answer it gives for a key is kept: asked again it gives the same answer,
    also after a [set] below the maximum size has put another graph under
    that key. The first answer for a key is whether [validate] has no issue
    with the graph cached under it; for a key with neither an answer nor a
    graph, among them every key but the new one after a [set] at the maximum
    size, [is_valid] raises [KeyError]. *)
Theorem is_valid_keeps_its_answer key c :
  (forall ex, fst (is_valid key c) <> Raised ex)
  /\ (forall b c', is_valid key c = (Returned b, c') ->
        is_valid key c' = (Returned b, c')
        /\ (forall a g, (Z.of_nat (length (_cache c')) < _max_size c')%Z ->
              is_valid key (CachePy.set _generate_key a g c').2
              = (Returned b, (CachePy.set _generate_key a g c').2))
        /\ (dict_mem key (_validation_cache c) = false ->
            exists g issues,
              dict_get key (_cache c) = Some g /\ issues_of g = Ok issues
              /\ (b = true <-> issues = [])))
  /\ (dict_mem key (_validation_cache c) = false ->
      dict_get key (_cache c) = None ->
      is_valid key c = (KeyError key, c))
  /\ (forall a g, (_max_size c <= Z.of_nat (length (_cache c)))%Z ->
        key <> _generate_key a ->
        is_valid key (CachePy.set _generate_key a g c).2
        = (KeyError key, (CachePy.set _generate_key a g c).2)).
Proof.
  split; [|split; [|split]].
  - intros ex. unfold is_valid.
    destruct (dict_mem key (_validation_cache c)) eqn:Hm; cbn [negb].
    + by destruct (dict_get key (_validation_cache c)).
    + destruct (dict_get key (_cache c)) as [g|]; [|done].
      rewrite issues_of_spec. cbv zeta. by destruct (dict_get key _).
  - intros b c' Hv.
    assert (dict_get key (_validation_cache c') = Some b) as Hb.
    { unfold is_valid in Hv.
      destruct (dict_mem key (_validation_cache c)) eqn:Hm; cbn [negb] in Hv.
      - destruct (dict_get key (_validation_cache c)) eqn:Hg; [|done].
        injection Hv as <- <-. done.
      - destruct (dict_get key (_cache c)) as [g|]; [|done].
        rewrite issues_of_spec in Hv. cbv zeta in Hv.
        cbn [_validation_cache] in Hv.
        rewrite dict_get_set, String.eqb_refl in Hv.
        injection Hv as <- <-. cbn [_validation_cache].
        by rewrite dict_get_set, String.eqb_refl. }
    split; [|split].
    + unfold is_valid, dict_mem. by rewrite Hb.
    + intros a g Hlt. unfold is_valid, dict_mem, CachePy.set. simpl.
      destruct (Z.leb_spec (_max_size c') (Z.of_nat (length (_cache c')))); [lia|].
      by rewrite Hb.
    + intros Hm. unfold is_valid in Hv. rewrite Hm in Hv. cbn [negb] in Hv.
      destruct (dict_get key (_cache c)) as [g|]; [|done].
      rewrite issues_of_spec in Hv. cbv zeta in Hv.
      cbn [_validation_cache] in Hv.
      rewrite dict_get_set, String.eqb_refl in Hv.
      injection Hv as <- <-. eexists g, _. split; [done|].
      split; [apply issues_of_spec|].
      rewrite Nat.eqb_eq. apply length_zero_iff_nil.
  - intros Hm Hg. unfold is_valid. by rewrite Hm, Hg.
  - intros a g Hfull Hne. unfold is_valid, dict_mem, CachePy.set. simpl.
    destruct (Z.leb_spec (_max_size c) (Z.of_nat (length (_cache c)))); [|lia].
    simpl. by destruct (String.eqb_spec (_generate_key a) key); [congruence|].
Qed.

End CacheFacts.

(** * The further facts on concrete graphs, states and caches *)

Section MoreGraphExamples.
Import GraphPy Examples MoreExamples.

Lemma stored_under_own_name {St} (ns : list (string * Node St)) :
  Forall (fun kn => node_name kn.2 = kn.1) ns ->
  forall n node, dict_get n ns = Some node -> node_name node = n.
Proof.
  induction 1 as [|[k nd] ns Hk _ IH]; intros n node; simpl; [done|].
  destruct (String.eqb_spec k n) as [<-|_]; [|apply IH].
  by intros [= <-].
Qed.

Ltac concrete_well_formed :=
  constructor;
  [ apply (bool_decide_unpack _); vm_compute; exact I
  | apply stored_under_own_name; repeat constructor
  | repeat (constructor; [split; reflexivity|]); constructor
  | reflexivity ].

Lemma well_formed_w_fork : well_formed (self w_fork).
Proof. concrete_well_formed. Defined.

Lemma well_formed_w_cycle : well_formed (self w_cycle).
Proof. concrete_well_formed. Defined.

Lemma build_keeps_graph_well_formed_witness :
  well_formed (self (snd (add_node "Z" incr w_fork)))
  /\ well_formed (self (snd (add_node "S" incr w_fork)))
  /\ well_formed (self (snd (add_edge "X" "Y" None w_fork)))
  /\ well_formed (self (snd (set_entry_point "Y" w_fork)))
  /\ well_formed (Graph_init (St:=nat) "new").
Proof.
  pose proof (build_keeps_graph_well_formed w_fork well_formed_w_fork)
    as (Hnode & Hedge & Hentry & Hinit).
  split; [apply Hnode|]. split; [apply Hnode|]. split; [apply Hedge|].
  split; [apply Hentry|apply Hinit].
Defined.


Lemma validate_well_formed_reports_orphans_witness :
  exists issues,
    issues_of (self w_fork) = Ok issues
    /\ forall issue,
         issue ∈ issues <->
         exists n, n ∈ dict_keys (nodes (self w_fork))
                   /\ entry_point (self w_fork) <> Some n
                   /\ (forall e, e ∈ edges (self w_fork) -> target e <> n)
                   /\ issue = orphan_message n.
Proof.
  apply (validate_well_formed_reports_orphans (self w_fork)).
  - exact well_formed_w_fork.
  - intros H; discriminate H.
Defined.

Lemma node_exception_propagates_witness :
  execute 0 w_boom =
    (Raise (RuntimeError "boom"),
     logged w_boom
       [CallNode "A" 0; CallShouldFollow (edge "A" "B" None) 1; CallNode "B" 1]).
Proof.
  refine (node_exception_propagates w_boom 0 "A"
            (logged w_boom [CallNode "A" 0; CallShouldFollow (edge "A" "B" None) 1])
            (moved (initial_locals 0 "A") 1 "B") node_boom (RuntimeError "boom")
            _ _ _ _ _).
  - reflexivity.
  - eapply reaches_next; [apply reaches_here|]. reflexivity.
  - simpl. apply (bool_decide_unpack _). vm_compute. exact I.
  - reflexivity.
  - reflexivity.
Defined.

Lemma execute_returns_when_no_edge_qualifies_witness :
  execute 0 w_guarded =
    (Ok (Some 1),
     logged w_guarded
       [CallNode "A" 0; CallShouldFollow (edge "A" "B" (Some never)) 1]).
Proof.
  refine (execute_returns_when_no_edge_qualifies w_guarded 0 "A" w_guarded
            (initial_locals 0 "A") node_A 1 _ _ _ _ _ _).
  - reflexivity.
  - apply reaches_here.
  - apply not_elem_of_empty.
  - reflexivity.
  - reflexivity.
  - reflexivity.
Defined.

Lemma execute_runs_each_node_at_most_once_witness :
  exists r cs,
    execute 0 w_cycle = (r, logged w_cycle cs)
    /\ NoDup (called_names cs)
    /\ forall n, n ∈ called_names cs -> dict_mem n (nodes (self w_cycle)) = true.
Proof.
  apply (execute_runs_each_node_at_most_once 0 w_cycle).
  apply stored_under_own_name. repeat constructor.
Defined.

Lemma branch_follows_exactly_one_edge_witness :
  fst (get_next_nodes "S" 1 w_branch) = Ok ["X"]
  /\ fst (get_next_nodes "S" 2 w_branch) = Ok ["Y"].
Proof.
  split.
  - refine (branch_follows_exactly_one_edge w_branch "S" "X" "Y" is_one
              [edge "X" "Y" None] [] 1 _ _).
    + reflexivity.
    + constructor; [intros H; discriminate H|constructor].
  - refine (branch_follows_exactly_one_edge w_branch "S" "X" "Y" is_one
              [edge "X" "Y" None] [] 2 _ _).
    + reflexivity.
    + constructor; [intros H; discriminate H|constructor].
Defined.

Lemma switch_follows_first_matching_case_witness :
  fst (get_next_nodes "route" o_switch w_switch) = Ok ["B"; "D"].
Proof.
  refine (switch_follows_first_matching_case w_switch "route" switch_cases
            (Some "D") [] [] o_switch _ _).
  - reflexivity.
  - constructor.
Defined.

Lemma simple_agent_graph_is_one_pass_witness :
  exists g cs,
    SimpleAgentPy.create_graph "simple_agent" m_keep no_tool_calls = Ok g
    /\ issues_of g = Ok []
    /\ (forall s, qualifying g "check_complete" s
                  = [{| source := "check_complete"; target := "output";
                        condition := Some SimpleAgentPy.is_complete_condition |}])
    /\ execute o_agent {| self := g; calls := [] |}
       = (Ok (Some o_agent), {| self := g; calls := cs |})
    /\ called_names cs
       = ["input"; "analyze"; "respond"; "check_complete"; "output"].
Proof.
  apply (simple_agent_graph_is_one_pass "simple_agent" m_keep no_tool_calls
           o_agent o_agent o_agent o_agent o_agent o_agent o_agent);
    reflexivity.
Defined.

End MoreGraphExamples.

Section MoreStateExamples.
Import StatePy StateOps EdgesPy Examples MoreExamples.

Lemma constructed_o_graph : constructed o_graph.
Proof. exists []. split; reflexivity. Defined.

Lemma store_ok_st_example : store_ok st_example.
Proof.
  intros r o. destruct r as [|[|[|[|r]]]]; simpl; intros [= <-].
  - exact constructed_o_test.
  - exact constructed_o_agent.
  - exact constructed_o_plain.
  - exact constructed_o_graph.
Defined.

Lemma methods_keep_store_constructed_witness :
  (store_ok (snd (new AgentState [] st_example))
   /\ forall r o, st_example !! r = Some o ->
                  snd (new AgentState [] st_example) !! r = Some o)
  /\ (store_ok (snd (StatePy.set 0 "age" (VInt 31) st_example))
      /\ forall r o, st_example !! r = Some o ->
                     snd (StatePy.set 0 "age" (VInt 31) st_example) !! r = Some o)
  /\ (store_ok (snd (update 2 [("y", VInt 2)] st_example))
      /\ forall r o, st_example !! r = Some o ->
                     snd (update 2 [("y", VInt 2)] st_example) !! r = Some o).
Proof.
  pose proof (methods_keep_store_constructed st_example store_ok_st_example)
    as (Hnew & Hset & Hupdate & _).
  split; [apply Hnew; reflexivity|].
  split; [apply Hset; reflexivity|apply Hupdate; reflexivity].
Defined.

Lemma set_then_get_witness :
  (forall default,
      get 4 "age" default (snd (StatePy.set 0 "age" (VInt 31) st_example))
      = (Ok (VInt 31), snd (StatePy.set 0 "age" (VInt 31) st_example)))
  /\ (forall k' default, k' <> "age" ->
        fst (get 4 k' default (snd (StatePy.set 0 "age" (VInt 31) st_example)))
        = fst (get 0 k' default st_example))
  /\ to_dict 4 (snd (StatePy.set 0 "age" (VInt 31) st_example))
     = (Ok (dict_set "age" (VInt 31) (_data o_test)),
        snd (StatePy.set 0 "age" (VInt 31) st_example)).
Proof.
  apply (set_then_get st_example 0 o_test "age" (VInt 31) 4).
  - reflexivity.
  - exact constructed_o_test.
  - reflexivity.
Defined.

Lemma agent_and_graph_state_have_fixed_fields_witness :
  (exists ms tcs steps b,
      _data o_agent = agent_data (VList ms) (VList tcs) (VList steps) (VBool b))
  /\ (exists cn nn cx rs,
      _data o_graph = graph_data (VStr cn) (VStr nn) (VDict cx) (VDict rs)).
Proof.
  split.
  - apply (agent_and_graph_state_have_fixed_fields o_agent constructed_o_agent).
    reflexivity.
  - apply (agent_and_graph_state_have_fixed_fields o_graph constructed_o_graph).
    reflexivity.
Defined.

Lemma set_with_foreign_key_witness :
  (exists msg,
      StatePy.set 1 "note" (VStr "hi") st_example = (Raise (TypeError msg), st_example))
  /\ StatePy.set 2 "note" (VStr "hi") st_example =
       (Ok (length st_example),
        st_example ++ [{| cls := cls o_plain;
                          _data := dict_set "note" (VStr "hi") (_data o_plain) |}]).
Proof.
  split.
  - refine (proj1 (set_with_foreign_key st_example 1 o_agent "note" (VStr "hi")
                     eq_refl constructed_o_agent) eq_refl _).
    apply (bool_decide_unpack _). vm_compute. exact I.
  - refine (proj2 (proj2 (set_with_foreign_key st_example 2 o_plain "note" (VStr "hi")
                            eq_refl constructed_o_plain)) _ _ _ eq_refl);
      intros H; discriminate H.
Defined.

Lemma update_one_keyword_is_set_witness :
  update 2 [("y", VInt 2)] st_example = StatePy.set 2 "y" (VInt 2) st_example.
Proof.
  apply (update_one_keyword_is_set st_example 2 o_plain "y" (VInt 2)).
  - reflexivity.
  - exact constructed_o_plain.
  - intros H; discriminate H.
  - intros H; discriminate H.
  - intros H; discriminate H.
Defined.

Lemma update_then_get_witness :
  4 <> 2
  /\ snd (update 2 [("x", VInt 5); ("y", VInt 2)] st_example) !! 2 = Some o_plain
  /\ forall k default,
       get 4 k default (snd (update 2 [("x", VInt 5); ("y", VInt 2)] st_example)) =
       (Ok match dict_get k [("x", VInt 5); ("y", VInt 2)] with
           | Some v => v
           | None => match dict_get k (_data o_plain) with
                     | Some v => v
                     | None => default
                     end
           end, snd (update 2 [("x", VInt 5); ("y", VInt 2)] st_example)).
Proof.
  apply (update_then_get st_example 2 o_plain [("x", VInt 5); ("y", VInt 2)] 4).
  - reflexivity.
  - exact constructed_o_plain.
  - intros H; discriminate H.
  - intros H; discriminate H.
  - apply (bool_decide_unpack _). vm_compute. exact I.
  - reflexivity.
Defined.

Lemma agent_update_replaces_false_values_witness :
  update 1 [("messages", VNone)] st_example =
    (Ok (length st_example),
     st_example ++ [{| cls := AgentState;
                       _data := dict_set "messages" (VList []) (_data o_agent) |}])
  /\ StatePy.set 1 "messages" VNone st_example =
       (Raise (StateValidationError "messages" (Tclass Clist) CNoneType), st_example).
Proof.
  pose proof (agent_update_replaces_false_values st_example 1 o_agent "messages" VNone)
    as H.
  destruct H as [Hupdate Hset].
  - reflexivity.
  - exact constructed_o_agent.
  - reflexivity.
  - apply (bool_decide_unpack _). vm_compute. exact I.
  - reflexivity.
  - split; [exact Hupdate|]. apply Hset. reflexivity.
Defined.

Lemma agent_state_adders_append_witness :
  add_message 1 (VStr "user") (VStr "hello") st_example =
    (Ok 4,
     st_example ++ [{| cls := AgentState;
                       _data := agent_data
                         (VList [VDict [("role", VStr "user");
                                        ("content", VStr "hello")]])
                         (VList []) (VList []) (VBool false) |}])
  /\ add_tool_call 1 (VStr "calculator") (VDict []) st_example =
    (Ok 4,
     st_example ++ [{| cls := AgentState;
                       _data := agent_data (VList [])
                         (VList [VDict [("tool", VStr "calculator");
                                        ("args", VDict [])]])
                         (VList []) (VBool false) |}])
  /\ add_intermediate_step 1 (VInt 7) st_example =
    (Ok 4,
     st_example ++ [{| cls := AgentState;
                       _data := agent_data (VList []) (VList []) (VList [VInt 7])
                                  (VBool false) |}]).
Proof.
  pose proof (agent_state_adders_append st_example 1 [] [] [] false eq_refl)
    as (Hm & Ht & Hs).
  split; [apply Hm|]. split; [apply Ht|apply Hs].
Defined.

Lemma graph_state_adders_bind_witness :
  add_context 3 "user" (VStr "ann") st_example =
    (Ok 4,
     st_example ++ [{| cls := GraphState;
                       _data := graph_data (VStr "") (VStr "")
                                  (VDict [("user", VStr "ann")]) (VDict []) |}])
  /\ add_result 3 "sum" (VInt 3) st_example =
    (Ok 4,
     st_example ++ [{| cls := GraphState;
                       _data := graph_data (VStr "") (VStr "") (VDict [])
                                  (VDict [("sum", VInt 3)]) |}]).
Proof.
  pose proof (graph_state_adders_bind st_example 3 "" "" [] [] eq_refl)
    as (Hc & Hr).
  split; [apply Hc|apply Hr].
Defined.

Lemma graph_state_node_setters_witness :
  set_current_node 3 (VStr "analyze") st_example =
    (Ok 4,
     st_example ++ [{| cls := GraphState;
                       _data := graph_data (VStr "analyze") (VStr "")
                                  (VDict []) (VDict []) |}])
  /\ set_next_node 3 (VInt 3) st_example =
    (Raise (StateValidationError "next_node" (Tclass Cstr) Cint), st_example).
Proof.
  split.
  - apply (proj1 (graph_state_node_setters st_example 3 "" "" [] []
                    (VStr "analyze") eq_refl) "analyze" eq_refl).
  - apply (proj2 (graph_state_node_setters st_example 3 "" "" [] []
                    (VInt 3) eq_refl) eq_refl).
Defined.

Lemma state_equality_is_an_equivalence_witness :
  eq_op 0 0 st_twice = (Ok true, st_twice)
  /\ fst (eq_op 0 0 st_twice) = Ok true.
Proof.
  pose proof (state_equality_is_an_equivalence st_twice 0 4 0 o_test o_test o_test
                eq_refl eq_refl eq_refl constructed_o_test) as (Hrefl & Htrans).
  split; [exact Hrefl|]. apply Htrans; reflexivity.
Defined.

Lemma conditions_on_a_missing_key_witness :
  (forall v, key_equals "y" v o_plain = true <-> v = VNone)
  /\ (forall vs, value_in_list "y" vs o_plain = true <-> VNone ∈ vs)
  /\ key_exists_and_true "y" o_plain = false
  /\ (forall operator value, numeric_condition "y" operator value o_plain = false)
  /\ (forall sub, string_contains "y" sub o_plain = false)
  /\ (forall p, string_starts_with "y" p o_plain = false).
Proof. apply (conditions_on_a_missing_key "y" o_plain). reflexivity. Defined.

Lemma numeric_condition_cases_witness :
  (numeric_condition "age" ">" 18 o_test = true
   /\ numeric_condition "age" "<=" 18 o_test = false
   /\ numeric_condition "age" "!=" 30 o_test
      = negb (numeric_condition "age" "==" 30 o_test))
  /\ numeric_condition "x" "==" 1 o_flag = true
  /\ numeric_condition "name" "!=" 0 o_test = false
  /\ numeric_condition "missing" "!=" 0 o_test = false
  /\ numeric_condition "age" "=>" 18 o_test = false.
Proof.
  pose proof (proj1 (numeric_condition_cases "age" 18 o_test) 30%Z
                (or_introl eq_refl)) as (Hgt & _ & _ & Hle & _).
  pose proof (proj1 (numeric_condition_cases "age" 30 o_test) 30%Z
                (or_introl eq_refl)) as (_ & _ & _ & _ & _ & _ & _ & _ & Hne).
  pose proof (proj1 (numeric_condition_cases "x" 1 o_flag) 1%Z
                (or_intror (ex_intro _ true (conj eq_refl eq_refl))))
    as (_ & _ & _ & _ & Heq & _).
  pose proof (proj1 (proj2 (numeric_condition_cases "name" 0 o_test))) as Hstr.
  pose proof (proj1 (proj2 (numeric_condition_cases "missing" 0 o_test))) as Hnone.
  pose proof (proj2 (proj2 (numeric_condition_cases "age" 18 o_test))) as Hop.
  split; [split; [exact Hgt|split; [exact Hle|exact Hne]]|].
  split; [exact Heq|].
  split; [apply Hstr; right; left; by exists "John"|].
  split; [apply Hnone; left; reflexivity|].
  apply Hop. apply (bool_decide_unpack _). vm_compute. exact I.
Defined.

Lemma string_starts_with_implies_contains_witness :
  string_contains "name" "Jo" o_test = true
  /\ string_starts_with "age" "3" o_test = false.
Proof.
  split.
  - apply (proj1 (string_starts_with_implies_contains "name" "Jo" o_test)).
    reflexivity.
  - apply (proj1 (proj2 (string_starts_with_implies_contains "age" "3" o_test))).
    intros s H; discriminate H.
Defined.

Lemma agent_conditions_count_the_lists_witness :
  (exists ms tcs,
      state_get o_agent "messages" VNone = VList ms
      /\ state_get o_agent "tool_calls" VNone = VList tcs
      /\ (forall min_count,
            has_messages min_count o_agent
            = Ok (min_count <=? Z.of_nat (length ms))%Z)
      /\ has_tool_calls o_agent = Ok (negb (Nat.eqb (length tcs) 0)))
  /\ (forall min_count, has_messages min_count o_plain = Ok false)
  /\ has_tool_calls o_plain = Ok false.
Proof.
  split.
  - apply (agent_conditions_count_the_lists o_agent constructed_o_agent).
    reflexivity.
  - apply (agent_conditions_count_the_lists o_plain constructed_o_plain).
    intros H; discriminate H.
Defined.

End MoreStateExamples.

Section MoreStrategyExamples.
Import StrategyPy GraphPy CachePy Examples MoreExamples.

Lemma select_strategy_levels_witness :
  select_strategy selector (Some "auto") (Some "traditional") (Some 9%Z) = "auto"
  /\ select_strategy selector (Some "fast") (Some "compiled") None = "compiled"
  /\ select_strategy selector None None (Some (-1)%Z) = "traditional"
  /\ select_strategy selector None None (Some 0%Z) = default_strategy selector.
Proof.
  split.
  { apply (select_strategy_levels selector None (Some "traditional") (Some 9%Z)).
    apply (bool_decide_unpack _). vm_compute. exact I. }
  split.
  { apply (select_strategy_levels selector (Some "fast") None None);
      [reflexivity|]. apply (bool_decide_unpack _). vm_compute. exact I. }
  split.
  { apply (proj1 (proj2 (proj2 (proj2
             (select_strategy_levels selector None None (Some (-1)%Z))))
             eq_refl eq_refl) (-1)%Z); [reflexivity|reflexivity|].
    intros H; discriminate H. }
  apply (proj2 (proj2 (proj2 (proj2
           (select_strategy_levels selector None None (Some 0%Z))))
           eq_refl eq_refl)).
  right. right. reflexivity.
Defined.

Lemma compile_agrees_with_create_strategy_witness :
  compile "auto" = Ok (create_strategy selector (Some "auto") None None)
  /\ (exists msg, compile "fast" = Raise (ValueError msg))
  /\ create_strategy
       {| default_strategy := "fast"; enable_auto_switch := false |} None None None
     = TraditionalStrategy.
Proof.
  split.
  { apply (compile_agrees_with_create_strategy selector "auto" None None).
    apply (bool_decide_unpack _). vm_compute. exact I. }
  pose proof (proj2 (compile_agrees_with_create_strategy
                       {| default_strategy := "fast"; enable_auto_switch := false |}
                       "fast" None None)) as H.
  destruct H as [Hraise Hfall].
  { apply (bool_decide_unpack _). vm_compute. exact I. }
  split; [exact Hraise|]. apply Hfall. reflexivity.
Defined.

Lemma cache_set_then_get_witness :
  CachePy.get agent_key "tie" (CachePy.set agent_key "tie" (self w_tie) cache_full).2
    = Some (self w_tie)
  /\ CachePy.get agent_key "fork"
       (CachePy.set agent_key "tie" (self w_tie) cache_full).2 = None
  /\ (Z.of_nat (length (_cache (CachePy.set agent_key "tie" (self w_tie) cache_full).2))
      <= 1)%Z.
Proof.
  pose proof (cache_set_then_get agent_key cache_full "tie" (self w_tie))
    as (Hget & Hother & _ & Hsize).
  split; [exact Hget|]. split.
  - apply (Hother "fork"). intros H; discriminate H.
  - apply Hsize. vm_compute. intros H; discriminate H.
Defined.

Lemma is_valid_keeps_its_answer_witness :
  is_valid "fork" (is_valid "fork" cache_full).2
    = (Returned true, (is_valid "fork" cache_full).2)
  /\ is_valid "fork" (CachePy.set agent_key "tie" (self w_tie) cache_full).2
     = (KeyError "fork", (CachePy.set agent_key "tie" (self w_tie) cache_full).2).
Proof.
  split.
  - apply (proj1 (proj2 (is_valid_keeps_its_answer agent_key "fork" cache_full))
             true (is_valid "fork" cache_full).2).
    vm_compute. reflexivity.
  - apply (proj2 (proj2 (proj2 (is_valid_keeps_its_answer agent_key "fork" cache_full)))
             "tie" (self w_tie)).
    + vm_compute. intros H; discriminate H.
    + intros H; discriminate H.
Defined.

End MoreStrategyExamples.
